(** * wordmate: the progress-synchronisation core

    A shallow embedding of [backend/app/services/progress_service.py]
    together with the parts of [backend/app/schemas/__init__.py],
    [backend/app/models/database.py] and [backend/app/db/database.py] it
    relies on: the merge engine ([sync_user_progress]), the review selector
    ([get_words_for_review]), the trial importer ([import_trial_progress]
    and its three helpers) and the progress summary
    ([get_user_progress_summary]).

    The database is explicit state.  The [user_words] table is a finite map
    keyed by its primary key [(user_id, word_id)], the [users] table a finite
    map keyed by [id].  The SQLAlchemy session is configured with
    [autoflush=False], so a query sees the persistent rows (with the changes
    already made to them in the session) but not the objects handed to
    [db.add]; those are kept in a list until the commit inserts them.

    The server is MySQL in strict mode ([db/database.py]): NULL sorts first
    in ascending order, a decimal written to a [DECIMAL(3, 1)] column keeps
    one fractional digit, a negative LIMIT is rejected.  Keys are compared
    as they are; the collation of the deployment compares them more
    loosely, and the statements that depend on the difference are made for
    plain identifiers (see [plain]).  Clocks are an argument of each
    operation.  Logging ([print]) is left out. *)

From Stdlib Require Import ZArith QArith Qpower List String Ascii Bool Lia Lqa Sorted.
From stdpp Require Import base option list sorting gmap strings.

Local Open Scope Z_scope.

(** ** The Python run time the service uses *)

Module py.

(** What an [except Exception] clause of the service can catch. *)
Inductive Exception :=
| TypeError          (* float(None), max(None, 3), "a" > 1 *)
| InvalidOperation   (* Decimal("None") *)
| IntegrityError     (* primary or foreign key violated at flush *)
| ProgrammingError.  (* statement rejected by the server *)

Definition result (A : Type) : Type := (Exception + A)%type.

Definition bind {A B : Type} (m : result A) (k : A -> result B) : result B :=
  match m with
  | inl e => inl e
  | inr a => k a
  end.

(** Whether a computation returned rather than raised. *)
Definition ok {A : Type} (m : result A) : bool :=
  match m with
  | inl _ => false
  | inr _ => true
  end.

(** [decimal.Decimal]: finite decimals, as exact rationals. *)
Definition Decimal : Type := Q.

(** A [float] is a binary64 number.  It is denoted by a decimal that rounds
    to it; a float of a request body is denoted by the text [str] prints for
    it, so that [Decimal(str(x))] is the denoting decimal itself, whereas the
    number that takes part in comparisons is [float_value x]. *)
Definition float : Type := Q.

Bind Scope Q_scope with Decimal float.

Definition round_half_even (n d : Z) : Z :=
  let q := n / d in
  match (2 * (n mod d) ?= d) with
  | Lt => q
  | Gt => q + 1
  | Eq => if Z.even q then q else q + 1
  end.

(** [n / d] scaled by [2 ^ (- e)], as a fraction. *)
Definition scaled (n d e : Z) : Z * Z :=
  if 0 <=? e then (n, d * 2 ^ e) else (n * 2 ^ (- e), d).

(** Round-to-nearest-even onto 53 bits of a positive fraction (overflow to
    infinity apart, which no value of this service reaches). *)
Definition binary64_pos (n d : Z) : Q :=
  let k := Z.log2 n - Z.log2 d in
  let '(n0, d0) := scaled n d k in
  let l := if d0 <=? n0 then k else k - 1 in
  let e := Z.max (l - 52) (-1074) in
  let '(n1, d1) := scaled n d e in
  let m := round_half_even n1 d1 in
  if 0 <=? e then (m * 2 ^ e) # 1 else m # Z.to_pos (2 ^ (- e)).

Definition binary64 (x : Q) : Q :=
  match Qnum x with
  | Z0 => 0%Q
  | Zpos n => binary64_pos (Zpos n) (Zpos (Qden x))
  | Zneg n => Qopp (binary64_pos (Zpos n) (Zpos (Qden x)))
  end.

Definition float_value (x : float) : Q := binary64 x.

(** [Decimal(str(x))] for a float [x]. *)
Definition Decimal_of_float (x : float) : Decimal := x.

(** [float(d)] for a decimal [d]: the binary64 number nearest to [d]. *)
Definition float_of_Decimal (d : Decimal) : float := d.

Definition Qlt_bool (a b : Q) : bool := negb (Qle_bool b a).

(** [d != x] between a [Decimal] attribute, possibly [None], and a float:
    Python compares the two numbers exactly. *)
Definition Decimal_ne_float (d : option Decimal) (x : float) : bool :=
  match d with
  | None => true
  | Some d => negb (Qeq_bool d (float_value x))
  end.

Definition int_ne (a : option Z) (b : Z) : bool :=
  match a with
  | None => true
  | Some a => negb (a =? b)
  end.

(** [float(v)] for an attribute that may be [None]. *)
Definition float_ (d : option Decimal) : result float :=
  match d with
  | None => inl TypeError
  | Some d => inr (float_of_Decimal d)
  end.

Record date := { year : Z; month : Z; day : Z }.

(** Dates are ordered by calendar position. *)
Definition date_key (d : date) : Z :=
  (year d * 12 + (month d - 1)) * 31 + (day d - 1).

Definition date_leb (a b : date) : bool := date_key a <=? date_key b.

(** [dt_time] counts the microseconds since midnight. *)
Record datetime := { dt_date : date; dt_time : Z }.

Definition datetime_leb (a b : datetime) : bool :=
  (date_key (dt_date a) <? date_key (dt_date b))
  || ((date_key (dt_date a) =? date_key (dt_date b)) && (dt_time a <=? dt_time b)).

(** The two clocks the service reads: [date.today()] and
    [datetime.utcnow()]. *)
Record Clock := { today : date; utcnow : datetime }.

(** The values an attribute or a payload entry can hold.  A payload that
    comes from a request body holds the first five kinds only (scalars;
    nested lists and objects are not modelled). *)
Inductive PyVal :=
| PyNone
| PyBool (b : bool)
| PyInt (n : Z)
| PyFloat (x : float)
| PyStr (s : string)
| PyDecimal (d : Decimal)
| PyDate (d : date)
| PyDatetime (t : datetime).

(** [bool(v)], as used by [if not v]. *)
Definition truthy (v : PyVal) : bool :=
  match v with
  | PyNone => false
  | PyBool b => b
  | PyInt n => negb (n =? 0)
  | PyFloat x => negb (Qeq_bool (float_value x) 0)
  | PyStr s => negb (String.eqb s "")
  | PyDecimal d => negb (Qeq_bool d 0)
  | PyDate _ | PyDatetime _ => true
  end.

(** The number a value stands for in a comparison, if it is a number. *)
Definition number (v : PyVal) : option Q :=
  match v with
  | PyBool b => Some (inject_Z (Z.b2z b))
  | PyInt n => Some (inject_Z n)
  | PyFloat x => Some (float_value x)
  | PyDecimal d => Some d
  | _ => None
  end.

(** [b > a]. *)
Definition gt (b a : PyVal) : result bool :=
  match number b, number a with
  | Some y, Some x => inr (Qlt_bool x y)
  | _, _ =>
      match b, a with
      | PyStr t, PyStr s => inr (String.ltb s t)
      | PyDate e, PyDate d => inr (negb (date_leb e d))
      | PyDatetime u, PyDatetime t => inr (negb (datetime_leb u t))
      | _, _ => inl TypeError
      end
  end.

(** [max(a, b)]: the first argument unless the second is greater. *)
Definition max (a b : PyVal) : result PyVal :=
  bind (gt b a) (fun g => inr (if g then b else a)).

(** [Dict[str, Any]]. *)
Abbreviation Dict := (gmap string PyVal).

(** [d.get(k, default)] and [d.get(k)]. *)
Definition get (k : string) (dflt : PyVal) (d : Dict) : PyVal :=
  default dflt (d !! k).

Definition get_ (k : string) (d : Dict) : PyVal := get k PyNone d.

(** [s.replace('Z', '+00:00')]. *)
Fixpoint replace_Z (s : string) : string :=
  match s with
  | EmptyString => EmptyString
  | String c s' =>
      if Ascii.eqb c "Z"%char then ("+00:00" ++ replace_Z s')%string
      else String c (replace_Z s')
  end.

(** The two parsers of the standard library the trial importer calls:
    [Decimal(s)] on a string ([None]: [InvalidOperation]; texts that denote
    NaN or an infinity are not modelled) and [datetime.fromisoformat(s)]
    ([None]: [ValueError]). *)
Class Parsers := {
  Decimal_of_string : string -> option Decimal;
  fromisoformat : string -> option datetime
}.

(** [Decimal(str(v))]. *)
Definition Decimal_str `{Parsers} (v : PyVal) : result Decimal :=
  match v with
  | PyInt n => inr (inject_Z n)
  | PyFloat x => inr (Decimal_of_float x)
  | PyDecimal d => inr d
  | PyStr s =>
      match Decimal_of_string s with
      | Some d => inr d
      | None => inl InvalidOperation
      end
  | PyNone | PyBool _ | PyDate _ | PyDatetime _ => inl InvalidOperation
  end.

End py.

Import py.

Notation "'try!' x := m 'in' k" := (py.bind m (fun x => k))
  (at level 10, x name, m at level 100, k at level 200,
   format "'[v' 'try!'  x  :=  m  'in' '/' k ']'").

(** ** Request schemas ([schemas/__init__.py]) *)

Module schemas.

Module WordProgressBase.
Record t := {
  word_id : string;
  mastery_level : float;       (* default 0.0, ge=0.0, le=5.0 *)
  repetitions : Z;             (* default 0, ge=0 *)
  ease_factor : float;         (* default 2.5, ge=1.3, le=5.0 *)
  last_review : option date;
  next_review : option date;
  seen_count : Z;              (* default 0, ge=0 *)
  correct_count : Z            (* default 0, ge=0 *)
}.

(** The [Field] constraints, checked when the request body is parsed;
    the bounds are the floats [0.0], [1.3] and [5.0]. *)
Definition validate (w : t) : bool :=
  Qle_bool (float_value 0%Q) (float_value (mastery_level w))
  && Qle_bool (float_value (mastery_level w)) (float_value 5%Q)
  && (0 <=? repetitions w)
  && Qle_bool (float_value (13 # 10)) (float_value (ease_factor w))
  && Qle_bool (float_value (ease_factor w)) (float_value 5%Q)
  && (0 <=? seen_count w)
  && (0 <=? correct_count w).
End WordProgressBase.

Module ProgressSyncData.
Record t := {
  words : list WordProgressBase.t;
  sessions : list Dict;
  stats : Dict
}.
End ProgressSyncData.

End schemas.

(** ** Tables ([models/database.py]) *)

Module models.

(** A row of [users], restricted to the columns of the progress core.  The
    statistics hold what was last assigned to them: the service assigns
    payload values as they come. *)
Module User.
Record t := {
  id : string;
  total_words_learned : PyVal;
  current_streak : PyVal;
  max_streak : PyVal;
  last_active_date : PyVal;
  updated_at : PyVal
}.
End User.

(** A row of [user_words]; every column but the key is nullable. *)
Module UserWord.
Record t := {
  user_id : string;
  word_id : string;
  mastery_level : option Decimal;   (* DECIMAL(3, 1), "0.0 to 5.0" *)
  repetitions : option Z;
  ease_factor : option Decimal;     (* DECIMAL(3, 1) *)
  last_review : option date;
  next_review : option date;
  seen_count : option Z;
  correct_count : option Z;
  updated_at : option datetime
}.

Definition key (r : t) : string * string := (user_id r, word_id r).

(** An object the trial importer builds from a payload entry, before any
    flush: its attributes hold the payload's values as given. *)
Record transient := {
  t_user_id : string;
  t_word_id : PyVal;
  t_mastery_level : Decimal;
  t_repetitions : PyVal;
  t_ease_factor : Decimal;
  t_last_review : PyVal;
  t_next_review : PyVal;
  t_seen_count : PyVal;
  t_correct_count : PyVal
}.

Definition t_key (o : transient) : string * PyVal := (t_user_id o, t_word_id o).
End UserWord.

(** A new row of [sessions] (class [Session] of the models, imported by the
    service as [DBSession]), before any flush. *)
Module DBSession.
Record transient := {
  user_id : string;
  practice_type : PyVal;
  words_count : PyVal;
  correct_count : PyVal;
  accuracy : Decimal;
  duration_seconds : PyVal;
  started_at : PyVal;
  completed_at : PyVal
}.
End DBSession.

End models.

Import schemas models.

(** ** The database and the session ([db/database.py]) *)

Module db.

Record Database := {
  users : gmap string User.t;
  user_words : gmap (string * string) UserWord.t
}.

(** What the server keeps of a decimal written to a [DECIMAL(3, 1)] column:
    one fractional digit, rounded half away from zero. *)
Definition DECIMAL_3_1 (d : Decimal) : Decimal :=
  let n := Qnum d in
  let m := Zpos (Qden d) in
  (Z.sgn n * ((2 * (10 * Z.abs n) + m) / (2 * m))) # 10.

Definition stored (r : UserWord.t) : UserWord.t :=
  {| UserWord.user_id := UserWord.user_id r;
     UserWord.word_id := UserWord.word_id r;
     UserWord.mastery_level := DECIMAL_3_1 <$> UserWord.mastery_level r;
     UserWord.repetitions := UserWord.repetitions r;
     UserWord.ease_factor := DECIMAL_3_1 <$> UserWord.ease_factor r;
     UserWord.last_review := UserWord.last_review r;
     UserWord.next_review := UserWord.next_review r;
     UserWord.seen_count := UserWord.seen_count r;
     UserWord.correct_count := UserWord.correct_count r;
     UserWord.updated_at := UserWord.updated_at r |}.

(** INSERT of one new row: the foreign key to [users.id] and the primary key
    are checked, on the identifiers as they are (the collation of the
    deployment is looser, see [plain]); [updated_at] takes its server
    default. *)
Definition insert (now : datetime) (us : gmap string User.t)
    (tbl : gmap (string * string) UserWord.t) (r : UserWord.t)
    : result (gmap (string * string) UserWord.t) :=
  match us !! UserWord.user_id r, tbl !! UserWord.key r with
  | Some _, None =>
      inr (<[UserWord.key r :=
               {| UserWord.user_id := UserWord.user_id r;
                  UserWord.word_id := UserWord.word_id r;
                  UserWord.mastery_level := UserWord.mastery_level r;
                  UserWord.repetitions := UserWord.repetitions r;
                  UserWord.ease_factor := UserWord.ease_factor r;
                  UserWord.last_review := UserWord.last_review r;
                  UserWord.next_review := UserWord.next_review r;
                  UserWord.seen_count := UserWord.seen_count r;
                  UserWord.correct_count := UserWord.correct_count r;
                  UserWord.updated_at := Some now |}]> tbl)
  | _, _ => inl IntegrityError
  end.

Fixpoint insert_all (now : datetime) (us : gmap string User.t)
    (tbl : gmap (string * string) UserWord.t) (new : list UserWord.t)
    : result (gmap (string * string) UserWord.t) :=
  match new with
  | [] => inr tbl
  | r :: new' =>
      try! tbl' := insert now us tbl r in
      insert_all now us tbl' new'
  end.

(** [db.commit()]: the pending objects are inserted, the changed rows
    written, and every decimal is kept as its column stores it.  What else
    the strict server rejects is not modelled (a decimal with more than two
    integer digits, an integer outside the range of its column, an
    identifier longer than its column, a statistic that is not an integer),
    so a commit here stands for a commit the server accepts; nor is the
    precision of the [DATETIME] columns or the server's clock, which stamps
    the [updated_at] of a new row. *)
Definition commit (now : datetime) (us : gmap string User.t)
    (rows : gmap (string * string) UserWord.t) (new : list UserWord.t)
    : result Database :=
  try! tbl := insert_all now us rows new in
  inr {| users := us; user_words := stored <$> tbl |}.

End db.

Import db.

(** ** The service ([services/progress_service.py]) *)

Module ProgressService.

(** *** Trial import *)

(** The unit of work of a registration: the persistent [users] rows and the
    objects handed to [db.add_all]. *)
Record Session := {
  s_users : gmap string User.t;
  new_user_words : list UserWord.transient;
  new_sessions : list DBSession.transient
}.

(** [trial_data]: the three entries the importer reads, each with its
    default when absent. *)
Record TrialData := {
  words : list Dict;       (* trial_data.get("words", []) *)
  sessions : list Dict;    (* trial_data.get("sessions", []) *)
  stats : Dict             (* trial_data.get("stats", {}) *)
}.

Section TrialImporter.
Context `{Parsers}.

Definition _parse_date (date_str : PyVal) : PyVal :=
  if negb (truthy date_str) then PyNone
  else
    match date_str with
    | PyStr s =>
        match fromisoformat (replace_Z s) with
        | Some t => PyDate (dt_date t)
        | None => PyNone
        end
    | _ => date_str
    end.

Definition _parse_datetime (datetime_str : PyVal) : PyVal :=
  if negb (truthy datetime_str) then PyNone
  else
    match datetime_str with
    | PyStr s =>
        match fromisoformat (replace_Z s) with
        | Some t => PyDatetime t
        | None => PyNone
        end
    | _ => datetime_str
    end.

(** The [UserWord(...)] call of the loop body. *)
Definition new_user_word (user_id : string) (word_data : Dict)
    : result UserWord.transient :=
  try! mastery := Decimal_str (get "mastery_level" (PyFloat 0%Q) word_data) in
  try! ease := Decimal_str (get "ease_factor" (PyFloat (25 # 10)) word_data) in
  inr {| UserWord.t_user_id := user_id;
         UserWord.t_word_id := get "word_id" (PyStr "") word_data;
         UserWord.t_mastery_level := mastery;
         UserWord.t_repetitions := get "repetitions" (PyInt 0) word_data;
         UserWord.t_ease_factor := ease;
         UserWord.t_last_review := _parse_date (get_ "last_review" word_data);
         UserWord.t_next_review := _parse_date (get_ "next_review" word_data);
         UserWord.t_seen_count := get "seen_count" (PyInt 0) word_data;
         UserWord.t_correct_count := get "correct_count" (PyInt 0) word_data |}.

(** The loop of [_import_word_progress]: an entry whose construction
    raises is logged and passed over. *)
Fixpoint word_objects (user_id : string) (words_data : list Dict)
    : list UserWord.transient :=
  match words_data with
  | [] => []
  | word_data :: rest =>
      match new_user_word user_id word_data with
      | inr word_progress => word_progress :: word_objects user_id rest
      | inl _ => word_objects user_id rest
      end
  end.

Definition _import_word_progress (s : Session) (user_id : string)
    (words_data : list Dict) : Session :=
  {| s_users := s_users s;
     new_user_words := new_user_words s ++ word_objects user_id words_data;
     new_sessions := new_sessions s |}.

(** [sessions_data[-5:] if len(sessions_data) > 5 else sessions_data]. *)
Definition recent_sessions (sessions_data : list Dict) : list Dict :=
  if (5 <? length sessions_data)%nat
  then drop (length sessions_data - 5) sessions_data
  else sessions_data.

(** The [DBSession(...)] call of the loop body. *)
Definition new_session (user_id : string) (session_data : Dict)
    : result DBSession.transient :=
  try! accuracy := Decimal_str (get "accuracy" (PyFloat 0%Q) session_data) in
  inr {| DBSession.user_id := user_id;
         DBSession.practice_type := get "practice_type" (PyStr "flashcard") session_data;
         DBSession.words_count := get "words_count" (PyInt 0) session_data;
         DBSession.correct_count := get "correct_count" (PyInt 0) session_data;
         DBSession.accuracy := accuracy;
         DBSession.duration_seconds := get "duration_seconds" (PyInt 0) session_data;
         DBSession.started_at := _parse_datetime (get_ "started_at" session_data);
         DBSession.completed_at := _parse_datetime (get_ "completed_at" session_data) |}.

Fixpoint session_objects (user_id : string) (sessions_data : list Dict)
    : list DBSession.transient :=
  match sessions_data with
  | [] => []
  | session_data :: rest =>
      match new_session user_id session_data with
      | inr session => session :: session_objects user_id rest
      | inl _ => session_objects user_id rest
      end
  end.

Definition _import_session_summaries (s : Session) (user_id : string)
    (sessions_data : list Dict) : Session :=
  {| s_users := s_users s;
     new_user_words := new_user_words s;
     new_sessions :=
       new_sessions s ++ session_objects user_id (recent_sessions sessions_data) |}.

(** The assignments of [_update_user_stats] to the row found. *)
Definition trial_stats (user : User.t) (stats_data : Dict) : User.t :=
  let last_active := get_ "last_active_date" stats_data in
  {| User.id := User.id user;
     User.total_words_learned := get "total_words_learned" (PyInt 0) stats_data;
     User.current_streak := get "current_streak" (PyInt 0) stats_data;
     User.max_streak := get "max_streak" (PyInt 0) stats_data;
     User.last_active_date :=
       if truthy last_active then _parse_date last_active
       else User.last_active_date user;
     User.updated_at := User.updated_at user |}.

Definition _update_user_stats (s : Session) (user_id : string)
    (stats_data : Dict) : Session :=
  match s_users s !! user_id with
  | Some user =>
      {| s_users := <[user_id := trial_stats user stats_data]> (s_users s);
         new_user_words := new_user_words s;
         new_sessions := new_sessions s |}
  | None => s
  end.

Definition import_trial_progress (s : Session) (user_id : string)
    (trial_data : TrialData) : Session :=
  let s1 :=
    match words trial_data with
    | [] => s
    | words_data => _import_word_progress s user_id words_data
    end in
  let s2 :=
    match sessions trial_data with
    | [] => s1
    | sessions_data => _import_session_summaries s1 user_id sessions_data
    end in
  if bool_decide (stats trial_data = ∅) then s2
  else _update_user_stats s2 user_id (stats trial_data).

End TrialImporter.

(** *** Review selector *)

Definition due (clock : Clock) (r : UserWord.t) : bool :=
  match UserWord.next_review r with
  | None => true
  | Some d => date_leb d (today clock)
  end.

(** The two [filter] calls; a comparison with NULL selects nothing. *)
Definition review_filter (clock : Clock) (user_id : string) (r : UserWord.t) : bool :=
  String.eqb (UserWord.user_id r) user_id
  && match UserWord.mastery_level r with
     | Some m => Qlt_bool m 4
     | None => false
     end
  && due clock r.

(** [ORDER BY mastery_level ASC, last_review ASC]; the server sorts NULL
    first in ascending order. *)
Definition mastery_compare (a b : option Decimal) : comparison :=
  match a, b with
  | None, None => Eq
  | None, Some _ => Lt
  | Some _, None => Gt
  | Some x, Some y => (x ?= y)%Q
  end.

Definition last_review_leb (a b : option date) : bool :=
  match a, b with
  | None, _ => true
  | Some _, None => false
  | Some x, Some y => date_leb x y
  end.

Definition review_leb (a b : UserWord.t) : bool :=
  match mastery_compare (UserWord.mastery_level a) (UserWord.mastery_level b) with
  | Lt => true
  | Gt => false
  | Eq => last_review_leb (UserWord.last_review a) (UserWord.last_review b)
  end.

Fixpoint insert_by (x : UserWord.t) (l : list UserWord.t) : list UserWord.t :=
  match l with
  | [] => [x]
  | y :: l' => if review_leb x y then x :: l else y :: insert_by x l'
  end.

Definition order_by (l : list UserWord.t) : list UserWord.t :=
  foldr insert_by [] l.

(** The query of [get_words_for_review]; a negative LIMIT is rejected by
    the server. *)
Definition review_query (d : Database) (clock : Clock) (user_id : string)
    (limit : Z) : result (list UserWord.t) :=
  if limit <? 0 then inl ProgrammingError
  else
    inr (take (Z.to_nat limit)
           (order_by (filter (fun r => review_filter clock user_id r = true)
                             (snd <$> map_to_list (user_words d))))).

(** An element of the list returned; [last_review] is given in ISO form. *)
Record ReviewItem := {
  r_word_id : string;
  r_mastery_level : float;
  r_last_review : option date;
  r_seen_count : option Z;
  r_repetitions : option Z
}.

Definition review_item (word : UserWord.t) : result ReviewItem :=
  try! mastery := float_ (UserWord.mastery_level word) in
  inr {| r_word_id := UserWord.word_id word;
         r_mastery_level := mastery;
         r_last_review := UserWord.last_review word;
         r_seen_count := UserWord.seen_count word;
         r_repetitions := UserWord.repetitions word |}.

Fixpoint review_items (l : list UserWord.t) : result (list ReviewItem) :=
  match l with
  | [] => inr []
  | word :: l' =>
      try! item := review_item word in
      try! items := review_items l' in
      inr (item :: items)
  end.

Definition get_words_for_review (d : Database) (clock : Clock)
    (user_id : string) (limit : Z) : result (list ReviewItem) :=
  try! words := review_query d clock user_id limit in
  review_items words.

(** *** Merge engine *)

Record SyncConflict := {
  c_word_id : string;
  server_mastery : float;
  client_mastery : float;
  resolution : string
}.

Record SyncResult := {
  updated_words : Z;
  conflicts : list SyncConflict;
  sync_timestamp : datetime
}.

(** The state of the loop over [sync_data.words]: the persistent rows as
    the session holds them, the objects handed to [db.add], and the two
    accumulators. *)
Record Loop := {
  rows : gmap (string * string) UserWord.t;
  added : list UserWord.t;
  l_conflicts : list SyncConflict;
  l_updated_words : Z
}.

(** The "Check for conflicts" statement. *)
Definition differs (existing_word : UserWord.t) (word_data : WordProgressBase.t) : bool :=
  Decimal_ne_float (UserWord.mastery_level existing_word)
                   (WordProgressBase.mastery_level word_data)
  || int_ne (UserWord.repetitions existing_word)
            (WordProgressBase.repetitions word_data).

Definition check_conflict (existing_word : UserWord.t) (word_data : WordProgressBase.t)
    (conflicts : list SyncConflict) : result (list SyncConflict) :=
  if differs existing_word word_data then
    try! server := float_ (UserWord.mastery_level existing_word) in
    inr (conflicts ++
           [ {| c_word_id := WordProgressBase.word_id word_data;
                server_mastery := server;
                client_mastery := WordProgressBase.mastery_level word_data;
                resolution := "client_wins" |} ])
  else inr conflicts.

(** A row that carries the client's values: the "Update with client data"
    assignments, which leave the key of the row alone, and the
    [UserWord(...)] call of the other branch. *)
Definition client_values (user_id word_id : string) (word_data : WordProgressBase.t)
    (updated_at : option datetime) : UserWord.t :=
  {| UserWord.user_id := user_id;
     UserWord.word_id := word_id;
     UserWord.mastery_level :=
       Some (Decimal_of_float (WordProgressBase.mastery_level word_data));
     UserWord.repetitions := Some (WordProgressBase.repetitions word_data);
     UserWord.ease_factor :=
       Some (Decimal_of_float (WordProgressBase.ease_factor word_data));
     UserWord.last_review := WordProgressBase.last_review word_data;
     UserWord.next_review := WordProgressBase.next_review word_data;
     UserWord.seen_count := Some (WordProgressBase.seen_count word_data);
     UserWord.correct_count := Some (WordProgressBase.correct_count word_data);
     UserWord.updated_at := updated_at |}.

Definition update (existing_word : UserWord.t) (word_data : WordProgressBase.t)
    (now : datetime) : UserWord.t :=
  client_values (UserWord.user_id existing_word) (UserWord.word_id existing_word)
    word_data (Some now).

Definition new_word (user_id : string) (word_data : WordProgressBase.t) : UserWord.t :=
  client_values user_id (WordProgressBase.word_id word_data) word_data None.

(** The body of the inner [try].  The query finds the record under the key
    as it is written (the collation of the deployment is looser, see
    [plain]). *)
Definition sync_word (clock : Clock) (user_id : string)
    (word_data : WordProgressBase.t) (st : Loop) : result Loop :=
  let k := (user_id, WordProgressBase.word_id word_data) in
  match rows st !! k with
  | Some existing_word =>
      try! conflicts := check_conflict existing_word word_data (l_conflicts st) in
      inr {| rows := <[k := update existing_word word_data (utcnow clock)]> (rows st);
             added := added st;
             l_conflicts := conflicts;
             l_updated_words := l_updated_words st + 1 |}
  | None =>
      inr {| rows := rows st;
             added := added st ++ [new_word user_id word_data];
             l_conflicts := l_conflicts st;
             l_updated_words := l_updated_words st + 1 |}
  end.

(** One turn of the loop: [except Exception: ... continue]. *)
Definition sync_step (clock : Clock) (user_id : string)
    (st : Loop) (word_data : WordProgressBase.t) : Loop :=
  match sync_word clock user_id word_data st with
  | inr st' => st'
  | inl _ => st
  end.

Definition sync_words (clock : Clock) (user_id : string)
    (words : list WordProgressBase.t) (st : Loop) : Loop :=
  fold_left (sync_step clock user_id) words st.

(** The "Update user statistics" assignments. *)
Definition sync_stats (clock : Clock) (user : User.t) (stats : Dict) : result User.t :=
  try! max_streak := py.max (User.max_streak user) (get "max_streak" (PyInt 0) stats) in
  inr {| User.id := User.id user;
         User.total_words_learned :=
           get "total_words_learned" (User.total_words_learned user) stats;
         User.current_streak := get "current_streak" (User.current_streak user) stats;
         User.max_streak := max_streak;
         User.last_active_date := PyDate (today clock);
         User.updated_at := PyDatetime (utcnow clock) |}.

Definition update_user_statistics (clock : Clock) (user_id : string)
    (stats : Dict) (us : gmap string User.t) : result (gmap string User.t) :=
  match us !! user_id with
  | Some user =>
      if bool_decide (stats = ∅) then inr us
      else
        try! user' := sync_stats clock user stats in
        inr (<[user_id := user']> us)
  | None => inr us
  end.

(** On an exception the transaction is rolled back and the caller gets an
    exception: the database is as it was. *)
Definition sync_user_progress (d : Database) (clock : Clock) (user_id : string)
    (sync_data : ProgressSyncData.t) : result (SyncResult * Database) :=
  let st :=
    sync_words clock user_id (ProgressSyncData.words sync_data)
      {| rows := user_words d; added := []; l_conflicts := []; l_updated_words := 0 |} in
  try! us := update_user_statistics clock user_id (ProgressSyncData.stats sync_data) (users d) in
  try! d' := commit (utcnow clock) us (rows st) (added st) in
  inr ({| updated_words := l_updated_words st;
          conflicts := l_conflicts st;
          sync_timestamp := utcnow clock |}, d').

End ProgressService.

Import ProgressService.

(** ** The progress summary ([get_user_progress_summary]) *)

Module ProgressSummary.

(** A row of [sessions] as the table keeps it (class [Session] of the
    models); [practice_type] is an enumeration, kept by its name. *)
Module SessionRow.
Record t := {
  id : Z;
  user_id : string;
  practice_type : string;
  words_count : option Z;
  correct_count : option Z;
  accuracy : option Decimal;        (* DECIMAL(4, 1) *)
  duration_seconds : option Z;
  started_at : option datetime;
  completed_at : option datetime
}.
End SessionRow.

(** The columns of a row of [users] that the progress core leaves alone. *)
Record Profile := {
  username : string;
  email : string;
  grade : option string;
  plan : option string;
  plan_status : option string;
  plan_expires_at : option datetime
}.

(** The tables the summary reads: the accounts with their statistics and
    the word records, the other columns of the row of each account, and the
    sessions by their identifier. *)
Record Store := {
  database : Database;
  profile : string -> Profile;
  sessions : gmap Z SessionRow.t
}.

(** What the [except Exception] clause of the summary catches and wraps. *)
Inductive Error :=
| UserNotFound             (* Exception("User not found") *)
| AttributeError           (* .isoformat() of a value that has none *)
| Raised (e : Exception).  (* float(None) *)

(** The text [isoformat()] gives, kept as the value it prints. *)
Inductive Iso :=
| IsoDate (d : date)
| IsoDatetime (t : datetime).

(** [v.isoformat() if v else None]. *)
Definition isoformat_or_None (v : PyVal) : Error + option Iso :=
  if truthy v then
    match v with
    | PyDate d => inr (Some (IsoDate d))
    | PyDatetime t => inr (Some (IsoDatetime t))
    | _ => inl AttributeError
    end
  else inr None.

Definition lift {A : Type} (m : result A) : Error + A :=
  match m with
  | inl e => inl (Raised e)
  | inr a => inr a
  end.

Definition and_then {A B : Type} (m : Error + A) (k : A -> Error + B) : Error + B :=
  match m with
  | inl e => inl e
  | inr a => k a
  end.

(** An element of ["words"]; the dates are given in ISO form. *)
Record WordItem := {
  w_word_id : string;
  w_mastery_level : float;
  w_repetitions : option Z;
  w_ease_factor : float;
  w_last_review : option date;
  w_next_review : option date;
  w_seen_count : option Z;
  w_correct_count : option Z
}.

Definition word_item (word : UserWord.t) : result WordItem :=
  try! mastery := float_ (UserWord.mastery_level word) in
  try! ease := float_ (UserWord.ease_factor word) in
  inr {| w_word_id := UserWord.word_id word;
         w_mastery_level := mastery;
         w_repetitions := UserWord.repetitions word;
         w_ease_factor := ease;
         w_last_review := UserWord.last_review word;
         w_next_review := UserWord.next_review word;
         w_seen_count := UserWord.seen_count word;
         w_correct_count := UserWord.correct_count word |}.

Fixpoint word_progress (words : list UserWord.t) : result (list WordItem) :=
  match words with
  | [] => inr []
  | word :: words' =>
      try! item := word_item word in
      try! items := word_progress words' in
      inr (item :: items)
  end.

(** [db.query(UserWord).filter(UserWord.user_id == user_id).all()]. *)
Definition words_query (d : Database) (user_id : string) : list UserWord.t :=
  filter (fun r => String.eqb (UserWord.user_id r) user_id = true)
         (snd <$> map_to_list (user_words d)).

(** [datetime.utcnow().replace(day=1)]: the first of the month, at the time
    of day of the call. *)
Definition replace_day (t : datetime) (d : Z) : datetime :=
  {| dt_date := {| year := year (dt_date t); month := month (dt_date t); day := d |};
     dt_time := dt_time t |}.

(** The [filter] of the sessions query; a comparison with NULL selects
    nothing. *)
Definition session_filter (clock : Clock) (user_id : string) (s : SessionRow.t) : bool :=
  String.eqb (SessionRow.user_id s) user_id
  && match SessionRow.started_at s with
     | Some t => datetime_leb (replace_day (utcnow clock) 1) t
     | None => false
     end.

(** [ORDER BY started_at DESC]; the server sorts NULL last in descending
    order. *)
Definition started_geb (a b : SessionRow.t) : bool :=
  match SessionRow.started_at a, SessionRow.started_at b with
  | Some x, Some y => datetime_leb y x
  | Some _, None => true
  | None, Some _ => false
  | None, None => true
  end.

Fixpoint insert_desc (x : SessionRow.t) (l : list SessionRow.t) : list SessionRow.t :=
  match l with
  | [] => [x]
  | y :: l' => if started_geb x y then x :: l else y :: insert_desc x l'
  end.

Definition order_by_desc (l : list SessionRow.t) : list SessionRow.t :=
  foldr insert_desc [] l.

Definition sessions_query (st : Store) (clock : Clock) (user_id : string)
    : list SessionRow.t :=
  take 50 (order_by_desc (filter (fun s => session_filter clock user_id s = true)
                                 (snd <$> map_to_list (sessions st)))).

(** An element of ["sessions"]. *)
Record SessionItem := {
  s_id : Z;
  s_practice_type : string;
  s_words_count : option Z;
  s_correct_count : option Z;
  s_accuracy : float;
  s_duration_seconds : option Z;
  s_started_at : datetime;
  s_completed_at : option datetime
}.

Definition session_item (session : SessionRow.t) : Error + SessionItem :=
  and_then (lift (float_ (SessionRow.accuracy session))) (fun accuracy =>
  and_then (match SessionRow.started_at session with
            | Some t => inr t
            | None => inl AttributeError
            end) (fun started =>
  inr {| s_id := SessionRow.id session;
         s_practice_type := SessionRow.practice_type session;
         s_words_count := SessionRow.words_count session;
         s_correct_count := SessionRow.correct_count session;
         s_accuracy := accuracy;
         s_duration_seconds := SessionRow.duration_seconds session;
         s_started_at := started;
         s_completed_at := SessionRow.completed_at session |})).

Fixpoint sessions_summary (l : list SessionRow.t) : Error + list SessionItem :=
  match l with
  | [] => inr []
  | session :: l' =>
      and_then (session_item session) (fun item =>
      and_then (sessions_summary l') (fun items =>
      inr (item :: items)))
  end.

(** The ["user"] entry of the result. *)
Record UserItem := {
  u_id : string;
  u_username : string;
  u_email : string;
  u_grade : option string;
  u_total_words_learned : PyVal;
  u_current_streak : PyVal;
  u_max_streak : PyVal;
  u_last_active_date : option Iso;
  u_plan : option string;
  u_plan_status : option string;
  u_plan_expires_at : option datetime
}.

Definition user_item (user : User.t) (p : Profile) : Error + UserItem :=
  and_then (isoformat_or_None (User.last_active_date user)) (fun last_active =>
  inr {| u_id := User.id user;
         u_username := username p;
         u_email := email p;
         u_grade := grade p;
         u_total_words_learned := User.total_words_learned user;
         u_current_streak := User.current_streak user;
         u_max_streak := User.max_streak user;
         u_last_active_date := last_active;
         u_plan := plan p;
         u_plan_status := plan_status p;
         u_plan_expires_at := plan_expires_at p |}).

Record Progress := {
  p_user : UserItem;
  p_words : list WordItem;
  p_sessions : list SessionItem;
  p_sync_timestamp : datetime
}.

Definition get_user_progress_summary (st : Store) (clock : Clock) (user_id : string)
    : Error + Progress :=
  match users (database st) !! user_id with
  | None => inl UserNotFound
  | Some user =>
      and_then (lift (word_progress (words_query (database st) user_id)))
        (fun word_progress =>
      and_then (sessions_summary (sessions_query st clock user_id))
        (fun sessions_summary =>
      and_then (user_item user (profile st user_id)) (fun user_dict =>
      inr {| p_user := user_dict;
             p_words := word_progress;
             p_sessions := sessions_summary;
             p_sync_timestamp := utcnow clock |})))
  end.

End ProgressSummary.

(** ** Sample data *)

Module sample.

(** Parsers for the texts the samples use: plain decimals
    ([digits[.digits]]) and calendar dates ([YYYY-MM-DD]). *)
Definition digit (c : ascii) : option Z :=
  let n := Z.of_nat (nat_of_ascii c) - 48 in
  if (0 <=? n) && (n <=? 9) then Some n else None.

Fixpoint digits (s : string) (acc : Z) : option Z :=
  match s with
  | EmptyString => Some acc
  | String c s' =>
      match digit c with
      | Some n => digits s' (10 * acc + n)
      | None => None
      end
  end.

Definition number_of (s : string) : option Z :=
  match s with
  | EmptyString => None
  | _ => digits s 0
  end.

Fixpoint split_dot (s : string) : string * option string :=
  match s with
  | EmptyString => (EmptyString, None)
  | String c s' =>
      if Ascii.eqb c "."%char then (EmptyString, Some s')
      else let '(a, b) := split_dot s' in (String c a, b)
  end.

Definition plain_decimal (s : string) : option Decimal :=
  match split_dot s with
  | (a, None) => inject_Z <$> number_of a
  | (a, Some b) =>
      n ← number_of (a ++ b)%string;
      Some (n # Pos.of_nat (10 ^ String.length b))
  end.

Definition days_in_month (y m : Z) : Z :=
  if m =? 2 then
    if ((y mod 4 =? 0) && negb (y mod 100 =? 0)) || (y mod 400 =? 0) then 29 else 28
  else if (m =? 4) || (m =? 6) || (m =? 9) || (m =? 11) then 30 else 31.

Definition calendar_date (s : string) : option datetime :=
  if negb (String.length s =? 10)%nat then None
  else
    y ← number_of (substring 0 4 s);
    m ← number_of (substring 5 2 s);
    d ← number_of (substring 8 2 s);
    if String.eqb (substring 4 1 s) "-" && String.eqb (substring 7 1 s) "-"
       && (1 <=? y) && (1 <=? m) && (m <=? 12) && (1 <=? d) && (d <=? days_in_month y m)
    then Some {| dt_date := {| year := y; month := m; day := d |}; dt_time := 0 |}
    else None.

Definition parsers : Parsers :=
  {| Decimal_of_string := plain_decimal; fromisoformat := calendar_date |}.

Definition ymd (y m d : Z) : date := {| year := y; month := m; day := d |}.

Definition clock : Clock :=
  {| today := ymd 2024 3 1; utcnow := {| dt_date := ymd 2024 3 1; dt_time := 0 |} |}.

Definition later : Clock :=
  {| today := ymd 2024 3 2; utcnow := {| dt_date := ymd 2024 3 2; dt_time := 7 |} |}.

Definition user (max_streak current_streak : Z) : User.t :=
  {| User.id := "u1";
     User.total_words_learned := PyInt 0;
     User.current_streak := PyInt current_streak;
     User.max_streak := PyInt max_streak;
     User.last_active_date := PyNone;
     User.updated_at := PyNone |}.

Definition row (word_id : string) (mastery : option Decimal) (repetitions : Z)
    (last_review next_review : option date) : UserWord.t :=
  {| UserWord.user_id := "u1";
     UserWord.word_id := word_id;
     UserWord.mastery_level := mastery;
     UserWord.repetitions := Some repetitions;
     UserWord.ease_factor := Some (25 # 10);
     UserWord.last_review := last_review;
     UserWord.next_review := next_review;
     UserWord.seen_count := Some 0;
     UserWord.correct_count := Some 0;
     UserWord.updated_at := None |}.

Definition entry (word_id : string) (mastery : float) (repetitions : Z)
    : WordProgressBase.t :=
  {| WordProgressBase.word_id := word_id;
     WordProgressBase.mastery_level := mastery;
     WordProgressBase.repetitions := repetitions;
     WordProgressBase.ease_factor := 25 # 10;
     WordProgressBase.last_review := None;
     WordProgressBase.next_review := None;
     WordProgressBase.seen_count := 0;
     WordProgressBase.correct_count := 0 |}.

Definition table (l : list UserWord.t) : gmap (string * string) UserWord.t :=
  list_to_map ((fun r => (UserWord.key r, r)) <$> l).

Definition database (u : User.t) (l : list UserWord.t) : Database :=
  {| users := {[ User.id u := u ]}; user_words := table l |}.

Definition batch (l : list WordProgressBase.t) (stats : Dict) : ProgressSyncData.t :=
  {| ProgressSyncData.words := l;
     ProgressSyncData.sessions := [];
     ProgressSyncData.stats := stats |}.

Definition session (u : User.t) : Session :=
  {| s_users := {[ User.id u := u ]}; new_user_words := []; new_sessions := [] |}.

(** Two words of equal mastery, both due, reviewed a month apart. *)
Definition word_A : UserWord.t :=
  row "A" (Some 1%Q) 0 (Some (ymd 2024 1 1)) None.

Definition word_B : UserWord.t :=
  row "B" (Some 1%Q) 0 (Some (ymd 2024 2 1)) (Some (ymd 2024 2 15)).

(** The loop state at the start of a batch over the given rows. *)
Definition loop (l : list UserWord.t) : Loop :=
  {| rows := table l; added := []; l_conflicts := []; l_updated_words := 0 |}.

End sample.

(** Sample data for the summary. *)
Module sample_store.

Import ProgressSummary.

Definition ann (_ : string) : Profile :=
  {| username := "ann";
     email := "ann@example.org";
     grade := Some "grade6";
     plan := Some "free-trial";
     plan_status := Some "trial";
     plan_expires_at := None |}.

Definition at_ (d : date) (time : Z) : datetime := {| dt_date := d; dt_time := time |}.

Definition session_row (id : Z) (user_id : string) (started : option datetime)
    : SessionRow.t :=
  {| SessionRow.id := id;
     SessionRow.user_id := user_id;
     SessionRow.practice_type := "flashcard";
     SessionRow.words_count := Some 10;
     SessionRow.correct_count := Some 7;
     SessionRow.accuracy := Some (700 # 10);
     SessionRow.duration_seconds := Some 60;
     SessionRow.started_at := started;
     SessionRow.completed_at := None |}.

Definition store (d : Database) (l : list SessionRow.t) : Store :=
  {| database := d;
     profile := ann;
     sessions := list_to_map ((fun s => (SessionRow.id s, s)) <$> l) |}.

(** Half past ten in the morning of 15 March 2024. *)
Definition mid_month : Clock :=
  {| today := sample.ymd 2024 3 15;
     utcnow := at_ (sample.ymd 2024 3 15) 37800000000 |}.

End sample_store.

(** ** Properties the statements below speak of *)

(** UserStats invariant of the specification, on integer statistics. *)
Definition streak_invariant (u : User.t) : Prop :=
  exists c m, User.current_streak u = PyInt c /\ User.max_streak u = PyInt m /\ c <= m.

(** What the review selector promises of a returned row: it belongs to the
    user, its mastery is below 4.0, and its next review is unset or not after
    the current date. *)
Definition due_for_review (clock : Clock) (user_id : string) (r : UserWord.t) : Prop :=
  UserWord.user_id r = user_id
  /\ (exists m, UserWord.mastery_level r = Some m /\ (m < 4)%Q)
  /\ (UserWord.next_review r = None
      \/ exists n, UserWord.next_review r = Some n /\ date_key n <= date_key (today clock)).

(** The priority order: mastery ascending; on equal mastery, last review
    ascending, a word never reviewed first. *)
Definition review_order (a b : UserWord.t) : Prop :=
  exists ma mb,
    UserWord.mastery_level a = Some ma /\ UserWord.mastery_level b = Some mb
    /\ ((ma < mb)%Q
        \/ ((ma == mb)%Q
            /\ (UserWord.last_review a = None
                \/ exists x y,
                     UserWord.last_review a = Some x /\ UserWord.last_review b = Some y
                     /\ date_key x <= date_key y))).

(** The mastery of the entry survives the column: the decimal the column
    keeps of [Decimal(str(x))] is the number [x] itself. *)
Definition exact_mastery (w : WordProgressBase.t) : Prop :=
  (DECIMAL_3_1 (Decimal_of_float (WordProgressBase.mastery_level w))
   == float_value (WordProgressBase.mastery_level w))%Q.


(** A row and an account without their time stamps. *)
Definition forget_time (r : UserWord.t) : UserWord.t :=
  {| UserWord.user_id := UserWord.user_id r;
     UserWord.word_id := UserWord.word_id r;
     UserWord.mastery_level := UserWord.mastery_level r;
     UserWord.repetitions := UserWord.repetitions r;
     UserWord.ease_factor := UserWord.ease_factor r;
     UserWord.last_review := UserWord.last_review r;
     UserWord.next_review := UserWord.next_review r;
     UserWord.seen_count := UserWord.seen_count r;
     UserWord.correct_count := UserWord.correct_count r;
     UserWord.updated_at := None |}.


(** The merge finds no record for the entry's word: the entry creates one. *)
Definition is_new (tbl : gmap (string * string) UserWord.t) (user_id : string)
    (w : WordProgressBase.t) : bool :=
  match tbl !! (user_id, WordProgressBase.word_id w) with
  | Some _ => false
  | None => true
  end.

(** The record stored for the entry's word has no mastery: the merge passes
    the entry over. *)
Definition passed_over (tbl : gmap (string * string) UserWord.t) (user_id : string)
    (w : WordProgressBase.t) : bool :=
  match tbl !! (user_id, WordProgressBase.word_id w) with
  | Some r =>
      match UserWord.mastery_level r with
      | Some _ => false
      | None => true
      end
  | None => false
  end.

(** The table is keyed by the primary key of its rows. *)
Definition keyed (tbl : gmap (string * string) UserWord.t) : Prop :=
  forall k r, tbl !! k = Some r -> UserWord.key r = k.

(** The conflict a merge reports for an entry, read off the record the store
    holds for its word: none when there is no record, when the record has no
    mastery (the entry is passed over), or when the test of the merge
    ([differs]) finds the stored mastery and repetitions to be the
    entry's. *)
Definition reported (tbl : gmap (string * string) UserWord.t) (user_id : string)
    (w : WordProgressBase.t) : option SyncConflict :=
  match tbl !! (user_id, WordProgressBase.word_id w) with
  | Some r =>
      match UserWord.mastery_level r with
      | Some m =>
          if differs r w then
            Some {| c_word_id := WordProgressBase.word_id w;
                    server_mastery := float_of_Decimal m;
                    client_mastery := WordProgressBase.mastery_level w;
                    resolution := "client_wins" |}
          else None
      | None => None
      end
  | None => None
  end.

(** The range invariant of a progress record: mastery within [0.0, 5.0],
    ease factor within [1.3, 5.0], counters not negative, for the columns
    that hold a value. *)
Definition in_range (r : UserWord.t) : Prop :=
  (forall m, UserWord.mastery_level r = Some m -> (0 <= m)%Q /\ (m <= 5)%Q)
  /\ (forall e, UserWord.ease_factor r = Some e -> (13 # 10 <= e)%Q /\ (e <= 5)%Q)
  /\ (forall n, UserWord.repetitions r = Some n -> 0 <= n)
  /\ (forall n, UserWord.seen_count r = Some n -> 0 <= n)
  /\ (forall n, UserWord.correct_count r = Some n -> 0 <= n).

(** *** Identifiers and the collation

    The database is created with the collation [utf8mb4_unicode_ci]
    ([init_db.py], [setup_db_quick.py]): a query compares [user_id] and
    [word_id] without regard to the case of letters, to accents and to
    trailing spaces, whereas the tables above are keyed by the identifiers as
    they are.  The two agree on identifiers made of lowercase ASCII letters,
    digits and underscores, the form [generate_user_id] produces: the
    collation gives each of these characters a weight of its own and ignores
    none of them.  Statements that depend on which record a key finds are
    made for stores and requests whose identifiers have this form. *)
Definition plain_char (c : ascii) : bool :=
  let n := nat_of_ascii c in
  ((97 <=? n) && (n <=? 122) || (48 <=? n) && (n <=? 57) || (n =? 95))%nat.

Fixpoint plain (s : string) : bool :=
  match s with
  | EmptyString => true
  | String c s' => plain_char c && plain s'
  end.

Definition plain_store (d : Database) : Prop :=
  (forall i u, users d !! i = Some u -> plain i = true)
  /\ (forall k r,
        user_words d !! k = Some r ->
        plain k.1 = true /\ plain k.2 = true
        /\ plain (UserWord.user_id r) = true /\ plain (UserWord.word_id r) = true).

(** The store, the account and the words of a merge all have plain
    identifiers. *)
Definition plain_merge (d : Database) (user_id : string)
    (sync_data : ProgressSyncData.t) : Prop :=
  plain_store d
  /\ plain user_id = true
  /\ Forall (fun w => plain (WordProgressBase.word_id w) = true)
            (ProgressSyncData.words sync_data).

(** ** Statistics: [max_streak], the streak invariant, [last_active_date] *)

Lemma get_absent k dflt (d : Dict) : d !! k = None -> get k dflt d = dflt.
Proof. unfold get. now intros ->. Qed.

Lemma get_int k dflt (d : Dict) (b : option Z) :
  d !! k = PyInt <$> b -> get k (PyInt dflt) d = PyInt (default dflt b).
Proof. unfold get. intros ->. now destruct b. Qed.

Lemma Qle_bool_inject a b : Qle_bool (inject_Z a) (inject_Z b) = (a <=? b).
Proof. unfold Qle_bool. simpl. now rewrite !Z.mul_1_r. Qed.

Lemma max_int a b : py.max (PyInt a) (PyInt b) = inr (PyInt (Z.max a b)).
Proof.
  unfold py.max, gt, Qlt_bool. simpl. rewrite Qle_bool_inject.
  destruct (Z.leb_spec b a); simpl.
  - now rewrite Z.max_l.
  - now rewrite Z.max_r by lia.
Qed.

Lemma sync_stats_int clock user stats a (b : option Z) :
  User.max_streak user = PyInt a ->
  stats !! "max_streak" = PyInt <$> b ->
  sync_stats clock user stats =
    inr {| User.id := User.id user;
           User.total_words_learned :=
             get "total_words_learned" (User.total_words_learned user) stats;
           User.current_streak := get "current_streak" (User.current_streak user) stats;
           User.max_streak := PyInt (Z.max a (default 0 b));
           User.last_active_date := PyDate (today clock);
           User.updated_at := PyDatetime (utcnow clock) |}.
Proof.
  intros Ha Hb. unfold sync_stats.
  now rewrite Ha, (get_int _ _ _ _ Hb), max_int.
Qed.

Lemma sync_users d clock user_id sync_data res d' :
  sync_user_progress d clock user_id sync_data = inr (res, d') ->
  update_user_statistics clock user_id (ProgressSyncData.stats sync_data) (users d)
    = inr (users d').
Proof.
  unfold sync_user_progress, commit.
  destruct (update_user_statistics _ _ _ _) as [e|us]; simpl; [discriminate|].
  destruct (insert_all _ _ _ _) as [e|tbl]; simpl; [discriminate|].
  intros [= _ <-]. reflexivity.
Qed.

(** C3, as amended.  A statistics update of the merge raises [max_streak]
    to the maximum of the stored value and the incoming one (0 when the
    payload has none), so it never decreases there; the statistics import
    of the trial importer overwrites it with the incoming value (or 0). *)
Theorem max_streak_update `{Parsers} clock user stats a (b : option Z) :
  User.max_streak user = PyInt a ->
  stats !! "max_streak" = PyInt <$> b ->
  (exists user',
      sync_stats clock user stats = inr user'
      /\ User.max_streak user' = PyInt (Z.max a (default 0 b))
      /\ a <= Z.max a (default 0 b))
  /\ (forall d user_id sync_data res d',
        users d !! user_id = Some user ->
        ProgressSyncData.stats sync_data = stats ->
        stats <> ∅ ->
        sync_user_progress d clock user_id sync_data = inr (res, d') ->
        User.max_streak <$> users d' !! user_id
          = Some (PyInt (Z.max a (default 0 b))))
  /\ User.max_streak (trial_stats user stats) = PyInt (default 0 b).
Proof.
  intros Ha Hb. split; [|split].
  - rewrite (sync_stats_int _ _ _ _ _ Ha Hb).
    eexists. split; [reflexivity|]. simpl. split; [reflexivity|lia].
  - intros d user_id sync_data res d' Hu Hs Hne Hrun.
    apply sync_users in Hrun. rewrite Hs in Hrun.
    unfold update_user_statistics in Hrun. rewrite Hu in Hrun.
    rewrite bool_decide_eq_false_2 in Hrun by assumption.
    rewrite (sync_stats_int _ _ _ _ _ Ha Hb) in Hrun. simpl in Hrun.
    injection Hrun as <-. now rewrite lookup_insert_eq.
  - simpl. now apply get_int.
Qed.

Lemma max_streak_update_witness :
  User.max_streak (sample.user 5 1) = PyInt 5
  /\ ({[ "max_streak" := PyInt 7 ]} : Dict) !! "max_streak" = PyInt <$> Some 7
  /\ exists user',
       sync_stats sample.clock (sample.user 5 1) {[ "max_streak" := PyInt 7 ]} = inr user'
       /\ User.max_streak user' = PyInt 7.
Proof.
  split; [reflexivity|]. split; [reflexivity|].
  destruct (@max_streak_update sample.parsers sample.clock (sample.user 5 1)
              {[ "max_streak" := PyInt 7 ]} 5 (Some 7))
    as [(user' & Hrun & Hmax & _) _]; [reflexivity|reflexivity|].
  exists user'. split; assumption.
Defined.

(** C3 as stated fails on the trial importer: stored 5, incoming 3 gives 3;
    and on the new account of a registration, whose stored [max_streak] is 0,
    an incoming -1 gives -1. *)
Lemma max_streak_update_counterexample :
  User.max_streak
    <$> s_users (@_update_user_stats sample.parsers (sample.session (sample.user 5 1))
                   "u1" {[ "max_streak" := PyInt 3 ]}) !! "u1"
    = Some (PyInt 3)
  /\ User.max_streak
       <$> s_users (@_update_user_stats sample.parsers (sample.session (sample.user 5 1))
                      "u1" {[ "max_streak" := PyInt 3 ]}) !! "u1"
       <> Some (PyInt (Z.max 5 3))
  /\ User.max_streak
       <$> s_users (@_update_user_stats sample.parsers (sample.session (sample.user 0 0))
                      "u1" {[ "max_streak" := PyInt (-1) ]}) !! "u1"
       = Some (PyInt (-1))
  /\ User.max_streak
       <$> s_users (@_update_user_stats sample.parsers (sample.session (sample.user 0 0))
                      "u1" {[ "max_streak" := PyInt (-1) ]}) !! "u1"
       <> Some (PyInt (Z.max 0 (-1))).
Proof. vm_compute. repeat split; try reflexivity; discriminate. Qed.

Lemma streak_invariant_int (u : User.t) c m :
  User.current_streak u = PyInt c -> User.max_streak u = PyInt m ->
  streak_invariant u <-> c <= m.
Proof.
  intros Hc Hm. unfold streak_invariant. split.
  - intros (c' & m' & Hc' & Hm' & Hle). congruence.
  - intros Hle. now exists c, m.
Qed.

Lemma invariant_insert (us : gmap string User.t) user_id (user' : User.t) :
  (forall i u, us !! i = Some u -> streak_invariant u) ->
  is_Some (us !! user_id) ->
  (forall i u, <[user_id := user']> us !! i = Some u -> streak_invariant u)
  <-> streak_invariant user'.
Proof.
  intros Hinv Hu. split.
  - intros Hall. apply (Hall user_id). apply lookup_insert_eq.
  - intros Hnew i u. destruct (decide (i = user_id)) as [->|Hi].
    + rewrite lookup_insert_eq. now intros [= <-].
    + rewrite lookup_insert_ne by congruence. apply Hinv.
Qed.

(** C4, as amended.  Neither statistics update compares the two streaks.  For
    an account that satisfies [max_streak >= current_streak], in a table
    whose accounts all do: after a merge statistics update of the account the
    invariant holds exactly when the [current_streak] it then has (the
    payload's, or the stored one when the payload has none) is at most the
    greater of the stored [max_streak] and the payload's (0 if absent), so
    always when the payload has no [current_streak]; after a trial import
    of statistics it holds exactly when the payload's [current_streak] (0 if
    absent) is at most the payload's [max_streak] (0 if absent). *)
Theorem streak_invariant_kept `{Parsers} clock user_id stats (cur mx : option Z)
    user c0 m0 :
  stats !! "current_streak" = PyInt <$> cur ->
  stats !! "max_streak" = PyInt <$> mx ->
  User.current_streak user = PyInt c0 ->
  User.max_streak user = PyInt m0 ->
  c0 <= m0 ->
  (forall us,
      us !! user_id = Some user ->
      stats <> ∅ ->
      (forall i u, us !! i = Some u -> streak_invariant u) ->
      exists us',
        update_user_statistics clock user_id stats us = inr us'
        /\ User.current_streak <$> us' !! user_id = Some (PyInt (default c0 cur))
        /\ User.max_streak <$> us' !! user_id = Some (PyInt (Z.max m0 (default 0 mx)))
        /\ ((forall i u, us' !! i = Some u -> streak_invariant u)
            <-> default c0 cur <= Z.max m0 (default 0 mx))
        /\ (cur = None -> forall i u, us' !! i = Some u -> streak_invariant u))
  /\ (forall s,
        s_users s !! user_id = Some user ->
        (forall i u, s_users s !! i = Some u -> streak_invariant u) ->
        User.current_streak <$> s_users (_update_user_stats s user_id stats) !! user_id
          = Some (PyInt (default 0 cur))
        /\ User.max_streak <$> s_users (_update_user_stats s user_id stats) !! user_id
           = Some (PyInt (default 0 mx))
        /\ ((forall i u,
                s_users (_update_user_stats s user_id stats) !! i = Some u ->
                streak_invariant u)
            <-> default 0 cur <= default 0 mx)).
Proof.
  intros Hcur Hmx Hc0 Hm0 Hle. split.
  - intros us Hu Hne Hinv. unfold update_user_statistics.
    rewrite Hu, bool_decide_eq_false_2 by assumption.
    rewrite (sync_stats_int _ _ _ _ _ Hm0 Hmx). simpl.
    eexists. split; [reflexivity|]. rewrite !lookup_insert_eq. simpl.
    assert (Hget : get "current_streak" (User.current_streak user) stats
                   = PyInt (default c0 cur)).
    { unfold get. rewrite Hcur, Hc0. now destruct cur. }
    rewrite Hget. split; [reflexivity|]. split; [reflexivity|].
    assert (Hiff : (forall i u,
                       <[user_id :=
                           {| User.id := User.id user;
                              User.total_words_learned :=
                                get "total_words_learned" (User.total_words_learned user)
                                  stats;
                              User.current_streak := PyInt (default c0 cur);
                              User.max_streak := PyInt (Z.max m0 (default 0 mx));
                              User.last_active_date := PyDate (today clock);
                              User.updated_at := PyDatetime (utcnow clock) |}]> us !! i
                       = Some u -> streak_invariant u)
                   <-> default c0 cur <= Z.max m0 (default 0 mx)).
    { rewrite invariant_insert by eauto.
      now apply streak_invariant_int. }
    split; [exact Hiff|].
    intros ->. apply Hiff. simpl. lia.
  - intros s Hu Hinv. unfold _update_user_stats. rewrite Hu. simpl.
    rewrite !lookup_insert_eq. simpl.
    rewrite (get_int _ _ _ _ Hcur), (get_int _ _ _ _ Hmx).
    split; [reflexivity|]. split; [reflexivity|].
    rewrite invariant_insert by eauto.
    apply streak_invariant_int; simpl; now apply get_int.
Qed.

Lemma streak_invariant_kept_witness :
  exists us',
    update_user_statistics sample.clock "u1" {[ "current_streak" := PyInt 5 ]}
      {[ "u1" := sample.user 10 1 ]} = inr us'
    /\ User.current_streak <$> us' !! "u1" = Some (PyInt 5)
    /\ User.max_streak <$> us' !! "u1" = Some (PyInt 10)
    /\ forall i u, us' !! i = Some u -> streak_invariant u.
Proof.
  destruct (@streak_invariant_kept sample.parsers sample.clock "u1"
              {[ "current_streak" := PyInt 5 ]} (Some 5) None
              (sample.user 10 1) 1 10) as [Hmerge _];
    [reflexivity|reflexivity|reflexivity|reflexivity|lia|].
  destruct (Hmerge {[ "u1" := sample.user 10 1 ]})
    as (us' & Hrun & Hc & Hm & Hiff & _).
  - reflexivity.
  - apply (bool_decide_unpack _). vm_compute. exact I.
  - intros i u Hu. apply lookup_singleton_Some in Hu as [_ <-].
    exists 1, 10. repeat split. lia.
  - exists us'. split; [exact Hrun|]. split; [exact Hc|]. split; [exact Hm|].
    apply Hiff. simpl. lia.
Defined.

(** C4 as stated fails: the merge stores a [current_streak] of 10 next to a
    [max_streak] of 2. *)
Lemma streak_invariant_counterexample :
  streak_invariant (sample.user 2 1)
  /\ exists res d' u',
       sync_user_progress (sample.database (sample.user 2 1) []) sample.clock "u1"
         (sample.batch [] {[ "current_streak" := PyInt 10 ]}) = inr (res, d')
       /\ users d' !! "u1" = Some u'
       /\ ~ streak_invariant u'.
Proof.
  split; [exists 1, 2; repeat split; lia|].
  eexists _, _, _. split; [vm_compute; reflexivity|]. split; [vm_compute; reflexivity|].
  intros (c & m & Hc & Hm & Hle). simpl in Hc, Hm.
  injection Hc as <-. injection Hm as <-. lia.
Qed.

(** C9, as amended.  A statistics update of the merge stamps
    [last_active_date] with the current date whatever the payload holds;
    the statistics import of the trial importer takes the date from the
    payload instead, parsed, and leaves the stored one when the payload has
    none. *)
Theorem last_active_date_stamped `{Parsers} clock user stats :
  (forall user',
      sync_stats clock user stats = inr user' ->
      User.last_active_date user' = PyDate (today clock))
  /\ (forall d user_id sync_data res d',
        users d !! user_id = Some user ->
        ProgressSyncData.stats sync_data = stats ->
        stats <> ∅ ->
        sync_user_progress d clock user_id sync_data = inr (res, d') ->
        User.last_active_date <$> users d' !! user_id = Some (PyDate (today clock)))
  /\ User.last_active_date (trial_stats user stats)
       = if truthy (get_ "last_active_date" stats)
         then _parse_date (get_ "last_active_date" stats)
         else User.last_active_date user.
Proof.
  assert (Hstamp : forall user',
             sync_stats clock user stats = inr user' ->
             User.last_active_date user' = PyDate (today clock)).
  { unfold sync_stats. intros user'.
    destruct (py.max _ _) as [e|m]; simpl; [discriminate|]. now intros [= <-]. }
  split; [exact Hstamp|]. split; [|reflexivity].
  intros d user_id sync_data res d' Hu Hs Hne Hrun.
  apply sync_users in Hrun. rewrite Hs in Hrun.
  unfold update_user_statistics in Hrun. rewrite Hu in Hrun.
  rewrite bool_decide_eq_false_2 in Hrun by assumption.
  destruct (sync_stats clock user stats) as [e|user'] eqn:Hsync; simpl in Hrun;
    [discriminate|].
  injection Hrun as <-. rewrite lookup_insert_eq. simpl. f_equal. now apply Hstamp.
Qed.

Lemma last_active_date_stamped_witness :
  User.last_active_date
    <$> users (sample.database (sample.user 2 1) []) !! "u1" = Some PyNone
  /\ exists res d',
       sync_user_progress (sample.database (sample.user 2 1) []) sample.clock "u1"
         (sample.batch [] {[ "last_active_date" := PyStr "2020-01-01" ]}) = inr (res, d')
       /\ User.last_active_date <$> users d' !! "u1" = Some (PyDate (sample.ymd 2024 3 1)).
Proof.
  split; [reflexivity|].
  eexists _, _. split; [vm_compute; reflexivity|].
  refine (proj1 (proj2 (@last_active_date_stamped sample.parsers sample.clock
                          (sample.user 2 1) {[ "last_active_date" := PyStr "2020-01-01" ]}))
            (sample.database (sample.user 2 1) []) "u1"
            (sample.batch [] {[ "last_active_date" := PyStr "2020-01-01" ]}) _ _
            eq_refl eq_refl _ _).
  - intros Heq. apply (f_equal (fun m : Dict => m !! "last_active_date")) in Heq.
    vm_compute in Heq. discriminate.
  - vm_compute. reflexivity.
Defined.

(** C9 as stated fails on the trial importer: the stored date is the
    payload's, not the current one. *)
Lemma last_active_date_counterexample :
  User.last_active_date
    <$> s_users (@_update_user_stats sample.parsers (sample.session (sample.user 2 1))
                   "u1" {[ "last_active_date" := PyStr "2020-01-01" ]}) !! "u1"
    = Some (PyDate (sample.ymd 2020 1 1))
  /\ User.last_active_date
       <$> s_users (@_update_user_stats sample.parsers (sample.session (sample.user 2 1))
                      "u1" {[ "last_active_date" := PyStr "2020-01-01" ]}) !! "u1"
       <> Some (PyDate (today sample.clock)).
Proof. vm_compute. split; [reflexivity | discriminate]. Qed.

(** ** Trial importer *)

Lemma recent_sessions_drop (sessions_data : list Dict) :
  recent_sessions sessions_data = drop (length sessions_data - 5) sessions_data.
Proof.
  unfold recent_sessions. destruct (Nat.ltb_spec 5 (length sessions_data)) as [Hlt|Hge].
  - reflexivity.
  - now replace (length sessions_data - 5)%nat with 0%nat by lia.
Qed.

Lemma filter_all {A : Type} (P : A -> Prop) `{!forall x, Decision (P x)} (l : list A) :
  Forall P l -> filter P l = l.
Proof.
  induction 1 as [|x l Hx _ IH]; [reflexivity|].
  rewrite filter_cons_True by assumption. now rewrite IH.
Qed.

Lemma session_objects_spec `{Parsers} user_id (l : list Dict) :
  Forall2 (fun e o => new_session user_id e = inr o)
    (filter (fun e => ok (new_session user_id e) = true) l)
    (session_objects user_id l).
Proof.
  induction l as [|e l IH]; simpl; [constructor|].
  destruct (new_session user_id e) as [x|o] eqn:He.
  - rewrite filter_cons_False; [assumption|]. rewrite He. discriminate.
  - rewrite filter_cons_True; [|now rewrite He]. now constructor.
Qed.

Lemma new_session_ok `{Parsers} user_id (e : Dict) :
  ok (new_session user_id e) = ok (Decimal_str (get "accuracy" (PyFloat 0%Q) e)).
Proof. unfold new_session. now destruct (Decimal_str _). Qed.

(** C7, as amended.  Of a sessions list of length [k] the importer keeps the
    last [min k 5] entries by position, and hands to the session, in input
    order, one object for each of those whose [accuracy] converts to a
    decimal; an entry for which the conversion raises is passed over.  When
    all of them convert, exactly [min k 5] objects are added. *)
Theorem recent_sessions_imported `{Parsers} s user_id (sessions_data : list Dict) :
  length (drop (length sessions_data - 5) sessions_data)
    = Nat.min (length sessions_data) 5
  /\ new_sessions (_import_session_summaries s user_id sessions_data)
       = new_sessions s
           ++ session_objects user_id (drop (length sessions_data - 5) sessions_data)
  /\ Forall2 (fun e o => new_session user_id e = inr o)
       (filter (fun e => ok (Decimal_str (get "accuracy" (PyFloat 0%Q) e)) = true)
               (drop (length sessions_data - 5) sessions_data))
       (session_objects user_id (drop (length sessions_data - 5) sessions_data))
  /\ (Forall (fun e => ok (Decimal_str (get "accuracy" (PyFloat 0%Q) e)) = true)
             (drop (length sessions_data - 5) sessions_data) ->
      Forall2 (fun e o => new_session user_id e = inr o)
        (drop (length sessions_data - 5) sessions_data)
        (session_objects user_id (drop (length sessions_data - 5) sessions_data))
      /\ length (session_objects user_id (drop (length sessions_data - 5) sessions_data))
           = Nat.min (length sessions_data) 5).
Proof.
  assert (Hlen : length (drop (length sessions_data - 5) sessions_data)
                 = Nat.min (length sessions_data) 5)
    by (rewrite length_drop; lia).
  assert (Hobj : Forall2 (fun e o => new_session user_id e = inr o)
            (filter (fun e => ok (Decimal_str (get "accuracy" (PyFloat 0%Q) e)) = true)
                    (drop (length sessions_data - 5) sessions_data))
            (session_objects user_id (drop (length sessions_data - 5) sessions_data))).
  { rewrite (list_filter_iff _ (fun e => ok (new_session user_id e) = true)).
    - apply session_objects_spec.
    - intros e. now rewrite new_session_ok. }
  split; [exact Hlen|]. split.
  - unfold _import_session_summaries. simpl. now rewrite recent_sessions_drop.
  - split; [exact Hobj|]. intros Hall.
    rewrite (filter_all _ _ Hall) in Hobj.
    split; [exact Hobj|].
    rewrite <- (Forall2_length _ _ _ Hobj). exact Hlen.
Qed.

Lemma recent_sessions_imported_witness :
  Forall (fun e : Dict => ok (@Decimal_str sample.parsers (get "accuracy" (PyFloat 0%Q) e)) = true)
    (drop (8 - 5) (replicate 8 ({[ "accuracy" := PyFloat 50 ]} : Dict)))
  /\ length (@session_objects sample.parsers "u1"
               (drop (8 - 5) (replicate 8 ({[ "accuracy" := PyFloat 50 ]} : Dict)))) = 5%nat.
Proof.
  assert (Hall : Forall (fun e : Dict =>
                    ok (@Decimal_str sample.parsers (get "accuracy" (PyFloat 0%Q) e)) = true)
            (drop (8 - 5) (replicate 8 ({[ "accuracy" := PyFloat 50 ]} : Dict))))
    by (repeat constructor).
  split; [exact Hall|].
  destruct (@recent_sessions_imported sample.parsers (sample.session (sample.user 0 0)) "u1"
              (replicate 8 {[ "accuracy" := PyFloat 50 ]})) as (_ & _ & _ & Hfull).
  exact (proj2 (Hfull Hall)).
Defined.

(** C7 as stated fails: a single entry whose [accuracy] is null is passed
    over, so nothing is added where the last [min 1 5 = 1] entry was
    expected. *)
Lemma recent_sessions_counterexample :
  new_sessions (@_import_session_summaries sample.parsers
                  (sample.session (sample.user 0 0)) "u1"
                  [ {[ "accuracy" := PyNone ]} ]) = []
  /\ length (new_sessions (@_import_session_summaries sample.parsers
                             (sample.session (sample.user 0 0)) "u1"
                             [ {[ "accuracy" := PyNone ]} ]))
       <> Nat.min (length [ ({[ "accuracy" := PyNone ]} : Dict) ]) 5.
Proof. vm_compute. split; [reflexivity | discriminate]. Qed.

(** The registration test of the repository ([tests/test_auth.py]): the trial
    data of one word, "apple", and three statistics. *)
Lemma trial_import_of_the_test :
  exists o u,
    new_user_words
      (@import_trial_progress sample.parsers (sample.session (sample.user 0 0)) "u1"
         {| words := [ {[ "word_id" := PyStr "apple";
                          "mastery_level" := PyFloat (25 # 10);
                          "repetitions" := PyInt 3;
                          "ease_factor" := PyFloat (28 # 10);
                          "seen_count" := PyInt 5;
                          "correct_count" := PyInt 3 ]} ];
            sessions := [];
            stats := {[ "total_words_learned" := PyInt 1;
                        "current_streak" := PyInt 2;
                        "max_streak" := PyInt 3 ]} |}) = [o]
    /\ UserWord.t_key o = ("u1", PyStr "apple")
    /\ UserWord.t_mastery_level o = 25 # 10
    /\ s_users
         (@import_trial_progress sample.parsers (sample.session (sample.user 0 0)) "u1"
            {| words := [ {[ "word_id" := PyStr "apple";
                             "mastery_level" := PyFloat (25 # 10);
                             "repetitions" := PyInt 3;
                             "ease_factor" := PyFloat (28 # 10);
                             "seen_count" := PyInt 5;
                             "correct_count" := PyInt 3 ]} ];
               sessions := [];
               stats := {[ "total_words_learned" := PyInt 1;
                           "current_streak" := PyInt 2;
                           "max_streak" := PyInt 3 ]} |}) !! "u1" = Some u
    /\ User.total_words_learned u = PyInt 1
    /\ User.current_streak u = PyInt 2
    /\ User.max_streak u = PyInt 3.
Proof.
  eexists _, _. split; [vm_compute; reflexivity|].
  split; [reflexivity|]. split; [reflexivity|].
  split; [vm_compute; reflexivity|]. repeat split.
Qed.

(** C8 at a failing input.  The trial importer takes [mastery_level] and
    [ease_factor] from the payload without any range check: a mastery of 9.0
    and an ease factor of 0.5 reach the object handed to the session, and the
    [DECIMAL(3, 1)] columns hold both as they are, whereas the request schema
    of the merge rejects the same values. *)
Theorem trial_import_out_of_range :
  exists o,
    new_user_words
      (@import_trial_progress sample.parsers (sample.session (sample.user 0 0)) "u1"
         {| words := [ {[ "word_id" := PyStr "apple";
                          "mastery_level" := PyFloat 9;
                          "ease_factor" := PyFloat (1 # 2) ]} ];
            sessions := [];
            stats := ∅ |}) = [o]
    /\ UserWord.t_word_id o = PyStr "apple"
    /\ (DECIMAL_3_1 (UserWord.t_mastery_level o) == 9)%Q
    /\ ~ (UserWord.t_mastery_level o <= 5)%Q
    /\ (DECIMAL_3_1 (UserWord.t_ease_factor o) == 1 # 2)%Q
    /\ ~ (13 # 10 <= UserWord.t_ease_factor o)%Q
    /\ WordProgressBase.validate
         {| WordProgressBase.word_id := "apple";
            WordProgressBase.mastery_level := 9;
            WordProgressBase.repetitions := 0;
            WordProgressBase.ease_factor := 1 # 2;
            WordProgressBase.last_review := None;
            WordProgressBase.next_review := None;
            WordProgressBase.seen_count := 0;
            WordProgressBase.correct_count := 0 |} = false.
Proof.
  eexists. split; [vm_compute; reflexivity|]. simpl.
  repeat split; try reflexivity; intros Hle; vm_compute in Hle; now apply Hle.
Qed.

Lemma new_user_word_ok `{Parsers} user_id (e : Dict) :
  ok (Decimal_str (get "mastery_level" (PyFloat 0%Q) e)) = true ->
  ok (Decimal_str (get "ease_factor" (PyFloat (25 # 10)) e)) = true ->
  exists mastery ease,
    Decimal_str (get "mastery_level" (PyFloat 0%Q) e) = inr mastery
    /\ Decimal_str (get "ease_factor" (PyFloat (25 # 10)) e) = inr ease
    /\ new_user_word user_id e =
         inr {| UserWord.t_user_id := user_id;
                UserWord.t_word_id := get "word_id" (PyStr "") e;
                UserWord.t_mastery_level := mastery;
                UserWord.t_repetitions := get "repetitions" (PyInt 0) e;
                UserWord.t_ease_factor := ease;
                UserWord.t_last_review := _parse_date (get_ "last_review" e);
                UserWord.t_next_review := _parse_date (get_ "next_review" e);
                UserWord.t_seen_count := get "seen_count" (PyInt 0) e;
                UserWord.t_correct_count := get "correct_count" (PyInt 0) e |}.
Proof.
  unfold new_user_word.
  destruct (Decimal_str (get "mastery_level" _ e)) as [x|mastery]; [discriminate|].
  destruct (Decimal_str (get "ease_factor" _ e)) as [x|ease]; [discriminate|].
  intros _ _. now exists mastery, ease.
Qed.

(** C10, as amended.  An entry without [word_id] whose [mastery_level] and
    [ease_factor], where present, convert to decimals is not passed over: the
    importer builds an object whose [word_id] is the empty string, with the
    fields the entry lacks at their defaults, and hands it to the session;
    two such entries give two objects with the one key [(user_id, "")]. *)
Theorem missing_word_id_imported `{Parsers} s user_id (e : Dict) :
  e !! "word_id" = None ->
  ok (Decimal_str (get "mastery_level" (PyFloat 0%Q) e)) = true ->
  ok (Decimal_str (get "ease_factor" (PyFloat (25 # 10)) e)) = true ->
  exists o,
    new_user_word user_id e = inr o
    /\ UserWord.t_key o = (user_id, PyStr "")
    /\ (e !! "mastery_level" = None -> UserWord.t_mastery_level o = 0%Q)
    /\ (e !! "ease_factor" = None -> UserWord.t_ease_factor o = 25 # 10)
    /\ (e !! "repetitions" = None -> UserWord.t_repetitions o = PyInt 0)
    /\ (e !! "seen_count" = None -> UserWord.t_seen_count o = PyInt 0)
    /\ (e !! "correct_count" = None -> UserWord.t_correct_count o = PyInt 0)
    /\ new_user_words (_import_word_progress s user_id [e]) = new_user_words s ++ [o]
    /\ forall e2 : Dict,
         e2 !! "word_id" = None ->
         ok (Decimal_str (get "mastery_level" (PyFloat 0%Q) e2)) = true ->
         ok (Decimal_str (get "ease_factor" (PyFloat (25 # 10)) e2)) = true ->
         exists o2,
           new_user_words (_import_word_progress s user_id [e; e2])
             = new_user_words s ++ [o; o2]
           /\ UserWord.t_key o2 = UserWord.t_key o.
Proof.
  intros Hid Hm He.
  destruct (new_user_word_ok user_id e Hm He) as (mastery & ease & Hdm & Hde & Hnew).
  eexists. split; [exact Hnew|].
  split. { unfold UserWord.t_key. simpl. now rewrite (get_absent _ _ _ Hid). }
  split. { intros Ha. rewrite (get_absent _ _ _ Ha) in Hdm. now injection Hdm as <-. }
  split. { intros Ha. rewrite (get_absent _ _ _ Ha) in Hde. now injection Hde as <-. }
  split. { intros Ha. now apply get_absent. }
  split. { intros Ha. now apply get_absent. }
  split. { intros Ha. now apply get_absent. }
  split. { unfold _import_word_progress, word_objects. now rewrite Hnew. }
  intros e2 Hid2 Hm2 He2.
  destruct (new_user_word_ok user_id e2 Hm2 He2) as (mastery2 & ease2 & _ & _ & Hnew2).
  eexists. split.
  - unfold _import_word_progress, word_objects. rewrite Hnew, Hnew2. reflexivity.
  - unfold UserWord.t_key. simpl.
    now rewrite (get_absent _ _ _ Hid), (get_absent _ _ _ Hid2).
Qed.

Lemma missing_word_id_imported_witness :
  ({[ "repetitions" := PyInt 2 ]} : Dict) !! "word_id" = None
  /\ exists o,
       @new_user_word sample.parsers "u1" {[ "repetitions" := PyInt 2 ]} = inr o
       /\ UserWord.t_key o = ("u1", PyStr "").
Proof.
  split; [reflexivity|].
  destruct (@missing_word_id_imported sample.parsers (sample.session (sample.user 0 0)) "u1"
              {[ "repetitions" := PyInt 2 ]}) as (o & Hnew & Hkey & _);
    [reflexivity|reflexivity|reflexivity|].
  exists o. split; assumption.
Defined.

(** C10 as stated fails: an entry without [word_id] whose [mastery_level] is
    null is passed over and nothing is handed to the session. *)
Lemma missing_word_id_counterexample :
  ({[ "mastery_level" := PyNone ]} : Dict) !! "word_id" = None
  /\ new_user_words
       (@_import_word_progress sample.parsers (sample.session (sample.user 0 0)) "u1"
          [ {[ "mastery_level" := PyNone ]} ]) = [].
Proof. split; reflexivity. Qed.

(** ** Review selector *)

Lemma mastery_compare_Lt_trans a b c :
  mastery_compare a b <> Gt -> mastery_compare b c <> Gt ->
  (mastery_compare a b = Lt \/ mastery_compare b c = Lt) ->
  mastery_compare a c = Lt.
Proof.
  destruct a as [x|], b as [y|], c as [z|]; simpl; try tauto; try congruence;
    try (intros _ _ [|]; congruence).
  rewrite <- !Qle_alt, <- !Qlt_alt. intros Hxy Hyz [Hlt|Hlt].
  - eapply Qlt_le_trans; eassumption.
  - eapply Qle_lt_trans; eassumption.
Qed.

Lemma mastery_compare_Eq_trans a b c :
  mastery_compare a b = Eq -> mastery_compare b c = Eq -> mastery_compare a c = Eq.
Proof.
  destruct a as [x|], b as [y|], c as [z|]; simpl; try congruence.
  rewrite <- !Qeq_alt. intros Hxy Hyz. now rewrite Hxy.
Qed.

Lemma mastery_compare_antisym a b :
  mastery_compare b a = CompOpp (mastery_compare a b).
Proof.
  destruct a as [x|], b as [y|]; simpl; try reflexivity. symmetry. apply Qcompare_antisym.
Qed.

Lemma last_review_leb_total a b : last_review_leb a b = false -> last_review_leb b a = true.
Proof.
  destruct a as [x|], b as [y|]; simpl; try congruence. unfold date_leb. lia.
Qed.

Lemma last_review_leb_trans a b c :
  last_review_leb a b = true -> last_review_leb b c = true -> last_review_leb a c = true.
Proof.
  destruct a as [x|], b as [y|], c as [z|]; simpl; try congruence. unfold date_leb. lia.
Qed.

Lemma review_leb_total a b : review_leb a b = false -> review_leb b a = true.
Proof.
  unfold review_leb. rewrite (mastery_compare_antisym a.(UserWord.mastery_level)).
  destruct (mastery_compare _ _); simpl; try congruence. apply last_review_leb_total.
Qed.

Lemma review_leb_trans a b c :
  review_leb a b = true -> review_leb b c = true -> review_leb a c = true.
Proof.
  unfold review_leb.
  destruct (mastery_compare (UserWord.mastery_level a) (UserWord.mastery_level b)) eqn:Hab;
    try discriminate;
    destruct (mastery_compare (UserWord.mastery_level b) (UserWord.mastery_level c)) eqn:Hbc;
    try discriminate; intros H1 H2.
  - rewrite (mastery_compare_Eq_trans _ _ _ Hab Hbc). eapply last_review_leb_trans; eassumption.
  - rewrite (mastery_compare_Lt_trans _ (UserWord.mastery_level b)); [reflexivity|..];
      [congruence|congruence|tauto].
  - rewrite (mastery_compare_Lt_trans _ (UserWord.mastery_level b)); [reflexivity|..];
      [congruence|congruence|tauto].
  - rewrite (mastery_compare_Lt_trans _ (UserWord.mastery_level b)); [reflexivity|..];
      [congruence|congruence|tauto].
Qed.

Lemma insert_by_elem x y l : y ∈ insert_by x l <-> y = x \/ y ∈ l.
Proof.
  induction l as [|z l IH]; simpl.
  - rewrite list_elem_of_singleton, elem_of_nil. tauto.
  - destruct (review_leb x z).
    + rewrite elem_of_cons. tauto.
    + rewrite !elem_of_cons, IH. tauto.
Qed.

Lemma order_by_elem y l : y ∈ order_by l <-> y ∈ l.
Proof.
  induction l as [|x l IH]; simpl; [reflexivity|].
  rewrite insert_by_elem, IH, elem_of_cons. tauto.
Qed.

Lemma insert_by_sorted x l :
  StronglySorted (fun a b => review_leb a b = true) l ->
  StronglySorted (fun a b => review_leb a b = true) (insert_by x l).
Proof.
  induction 1 as [|z l Hl IH Hz]; simpl.
  - repeat constructor.
  - destruct (review_leb x z) eqn:Hxz.
    + constructor; [now constructor|]. constructor; [assumption|].
      eapply Forall_impl; [exact Hz|]. intros w Hzw. simpl in Hzw.
      eapply review_leb_trans; eassumption.
    + constructor; [assumption|]. apply Forall_forall. intros w Hw.
      apply insert_by_elem in Hw as [->|Hw].
      * now apply review_leb_total.
      * rewrite Forall_forall in Hz. now apply Hz.
Qed.

Lemma order_by_sorted l : StronglySorted (fun a b => review_leb a b = true) (order_by l).
Proof.
  induction l as [|x l IH]; simpl; [constructor|]. now apply insert_by_sorted.
Qed.

Lemma review_items_ok l :
  Forall (fun r => is_Some (UserWord.mastery_level r)) l ->
  exists items,
    review_items l = inr items /\ Forall2 (fun r i => review_item r = inr i) l items.
Proof.
  induction 1 as [|r l [m Hm] _ (items & Hitems & Hall)]; simpl.
  - exists []. split; [reflexivity|constructor].
  - assert (Hitem : exists i, review_item r = inr i)
      by (unfold review_item; rewrite Hm; simpl; eauto).
    destruct Hitem as [i Hi]. rewrite Hi, Hitems. simpl.
    exists (i :: items). split; [reflexivity|now constructor].
Qed.

Lemma review_filter_due clock user_id r :
  review_filter clock user_id r = true -> due_for_review clock user_id r.
Proof.
  unfold review_filter, due_for_review, due. rewrite !andb_true_iff.
  intros [[Hu Hm] Hd]. split; [now apply String.eqb_eq|]. split.
  - destruct (UserWord.mastery_level r) as [m|]; [|discriminate].
    exists m. split; [reflexivity|]. unfold Qlt_bool in Hm.
    apply Qnot_le_lt. intros Hle. apply Qle_bool_iff in Hle. now rewrite Hle in Hm.
  - destruct (UserWord.next_review r) as [n|]; [right|now left].
    exists n. split; [reflexivity|]. unfold date_leb in Hd. lia.
Qed.

Lemma review_leb_order a b :
  is_Some (UserWord.mastery_level a) -> is_Some (UserWord.mastery_level b) ->
  review_leb a b = true -> review_order a b.
Proof.
  intros [ma Ha] [mb Hb]. unfold review_leb, review_order. rewrite Ha, Hb. simpl.
  exists ma, mb. split; [reflexivity|]. split; [reflexivity|].
  destruct (Qcompare_spec ma mb) as [Heq|Hlt|Hgt]; [|now left|discriminate].
  right. split; [exact Heq|].
  destruct (UserWord.last_review a) as [x|]; [|now left].
  destruct (UserWord.last_review b) as [y|]; [|discriminate].
  right. exists x, y. unfold last_review_leb, date_leb in H. repeat split. lia.
Qed.

Lemma StronglySorted_weaken {A : Type} (R R' : A -> A -> Prop) (P : A -> Prop) l :
  (forall a b, P a -> P b -> R a b -> R' a b) ->
  Forall P l -> StronglySorted R l -> StronglySorted R' l.
Proof.
  intros Himp HP Hs. induction Hs as [|a l Hs IH Ha]; [constructor|].
  inversion HP as [|? ? Pa Pl]; subst. constructor; [now apply IH|].
  rewrite Forall_forall in *. intros b Hb. apply Himp; auto.
Qed.

(** C5.  For a limit [N >= 0] the review selector returns at most [N]
    records; each of them is a row of the user with mastery below 4.0 whose
    next review is unset or not after the current date; they come in
    ascending order of mastery and, on equal mastery, of last review, a
    missing last review first.  With A (mastery 1.0, last reviewed
    2024-01-01) and B (mastery 1.0, last reviewed 2024-02-01) both due, A
    precedes B. *)
Theorem review_selection d clock user_id limit :
  (0 <= limit ->
   exists words items,
     review_query d clock user_id limit = inr words
     /\ get_words_for_review d clock user_id limit = inr items
     /\ Forall2 (fun r i => review_item r = inr i) words items
     /\ Z.of_nat (length items) <= limit
     /\ Forall (fun r => (exists k, user_words d !! k = Some r)
                         /\ due_for_review clock user_id r) words
     /\ StronglySorted review_order words)
  /\ get_words_for_review
       (sample.database (sample.user 0 0) [sample.word_B; sample.word_A])
       sample.clock "u1" 20
     = inr [ {| r_word_id := "A"; r_mastery_level := 1;
                r_last_review := Some (sample.ymd 2024 1 1);
                r_seen_count := Some 0; r_repetitions := Some 0 |};
             {| r_word_id := "B"; r_mastery_level := 1;
                r_last_review := Some (sample.ymd 2024 2 1);
                r_seen_count := Some 0; r_repetitions := Some 0 |} ].
Proof.
  split; [|vm_compute; reflexivity].
  intros Hlimit. unfold get_words_for_review, review_query.
  destruct (Z.ltb_spec limit 0) as [Hneg|_]; [lia|].
  set (found := filter _ _).
  assert (Hfound : Forall (fun r => (exists k, user_words d !! k = Some r)
                                    /\ due_for_review clock user_id r)
                     (take (Z.to_nat limit) (order_by found))).
  { apply Forall_take, Forall_forall. intros r Hr.
    apply order_by_elem, list_elem_of_filter in Hr as [Hf Hr].
    apply list_elem_of_fmap in Hr as ([k r'] & -> & Hr).
    apply elem_of_map_to_list in Hr.
    split; [now exists k|]. now apply review_filter_due. }
  assert (Hmastery : Forall (fun r => is_Some (UserWord.mastery_level r))
                       (take (Z.to_nat limit) (order_by found))).
  { eapply Forall_impl; [exact Hfound|]. intros r (_ & _ & (m & Hm & _) & _).
    now exists m. }
  destruct (review_items_ok _ Hmastery) as (items & Hitems & Hall).
  exists (take (Z.to_nat limit) (order_by found)), items. simpl.
  split; [reflexivity|]. split; [exact Hitems|]. split; [exact Hall|]. split.
  - rewrite <- (Forall2_length _ _ _ Hall), length_take. lia.
  - split; [exact Hfound|].
    apply (StronglySorted_weaken (fun a b => review_leb a b = true) review_order
             (fun r => is_Some (UserWord.mastery_level r))).
    + intros a b. apply review_leb_order.
    + exact Hmastery.
    + apply StronglySorted_app_1_l with (drop (Z.to_nat limit) (order_by found)).
      rewrite take_drop. apply order_by_sorted.
Qed.

Lemma review_selection_witness :
  0 <= 1
  /\ exists items,
       get_words_for_review
         (sample.database (sample.user 0 0) [sample.word_B; sample.word_A])
         sample.clock "u1" 1 = inr items
       /\ Z.of_nat (length items) <= 1.
Proof.
  split; [lia|].
  destruct (proj1 (review_selection
                     (sample.database (sample.user 0 0) [sample.word_B; sample.word_A])
                     sample.clock "u1" 1) ltac:(lia))
    as (words & items & _ & Hitems & _ & Hlen & _).
  exists items. split; assumption.
Defined.

(** ** Merge engine: the loop over the entries *)

(** The one way the body of the inner [try] raises: [float(None)], on a
    record whose [mastery_level] is NULL. *)
Lemma sync_word_raises clock user_id w st e :
  sync_word clock user_id w st = inl e ->
  exists r,
    rows st !! (user_id, WordProgressBase.word_id w) = Some r
    /\ UserWord.mastery_level r = None.
Proof.
  unfold sync_word, check_conflict.
  destruct (rows st !! _) as [r|]; [|discriminate].
  destruct (differs r w); [|discriminate].
  destruct (UserWord.mastery_level r) as [m|] eqn:Hm; [discriminate|].
  intros _. exists r. now split.
Qed.

Lemma sync_word_null clock user_id w st r :
  rows st !! (user_id, WordProgressBase.word_id w) = Some r ->
  UserWord.mastery_level r = None ->
  sync_step clock user_id st w = st.
Proof.
  intros Hr Hm. unfold sync_step, sync_word, check_conflict, differs.
  now rewrite Hr, Hm.
Qed.

Lemma sync_word_existing clock user_id w st r m :
  rows st !! (user_id, WordProgressBase.word_id w) = Some r ->
  UserWord.mastery_level r = Some m ->
  sync_word clock user_id w st =
    inr {| rows := <[(user_id, WordProgressBase.word_id w) := update r w (utcnow clock)]>
                     (rows st);
           added := added st;
           l_conflicts :=
             l_conflicts st ++
               (if differs r w
                then [ {| c_word_id := WordProgressBase.word_id w;
                          server_mastery := float_of_Decimal m;
                          client_mastery := WordProgressBase.mastery_level w;
                          resolution := "client_wins" |} ]
                else []);
           l_updated_words := l_updated_words st + 1 |}.
Proof.
  intros Hr Hm. unfold sync_word, check_conflict. rewrite Hr, Hm.
  destruct (differs r w); simpl; [reflexivity|]. now rewrite app_nil_r.
Qed.

Lemma sync_word_absent clock user_id w st :
  rows st !! (user_id, WordProgressBase.word_id w) = None ->
  sync_word clock user_id w st =
    inr {| rows := rows st;
           added := added st ++ [new_word user_id w];
           l_conflicts := l_conflicts st;
           l_updated_words := l_updated_words st + 1 |}.
Proof. intros Hr. unfold sync_word. now rewrite Hr. Qed.

(** The three ways a turn of the loop can go. *)
Lemma sync_step_cases clock user_id st w :
  (exists r,
      rows st !! (user_id, WordProgressBase.word_id w) = Some r
      /\ UserWord.mastery_level r = None
      /\ sync_step clock user_id st w = st)
  \/ (exists r m,
        rows st !! (user_id, WordProgressBase.word_id w) = Some r
        /\ UserWord.mastery_level r = Some m
        /\ sync_word clock user_id w st = inr (sync_step clock user_id st w)
        /\ rows (sync_step clock user_id st w)
             = <[(user_id, WordProgressBase.word_id w) := update r w (utcnow clock)]> (rows st)
        /\ added (sync_step clock user_id st w) = added st
        /\ l_conflicts (sync_step clock user_id st w)
             = l_conflicts st ++
                 (if differs r w
                  then [ {| c_word_id := WordProgressBase.word_id w;
                            server_mastery := float_of_Decimal m;
                            client_mastery := WordProgressBase.mastery_level w;
                            resolution := "client_wins" |} ]
                  else [])
        /\ l_updated_words (sync_step clock user_id st w) = l_updated_words st + 1)
  \/ (rows st !! (user_id, WordProgressBase.word_id w) = None
      /\ sync_word clock user_id w st = inr (sync_step clock user_id st w)
      /\ rows (sync_step clock user_id st w) = rows st
      /\ added (sync_step clock user_id st w) = added st ++ [new_word user_id w]
      /\ l_conflicts (sync_step clock user_id st w) = l_conflicts st
      /\ l_updated_words (sync_step clock user_id st w) = l_updated_words st + 1).
Proof.
  destruct (rows st !! (user_id, WordProgressBase.word_id w)) as [r|] eqn:Hr.
  - destruct (UserWord.mastery_level r) as [m|] eqn:Hm.
    + right. left. exists r, m. unfold sync_step.
      rewrite (sync_word_existing _ _ _ _ _ _ Hr Hm). simpl.
      repeat split; solve [reflexivity | assumption].
    + left. exists r. split; [reflexivity|]. split; [exact Hm|].
      eapply sync_word_null; eassumption.
  - right. right. unfold sync_step. rewrite (sync_word_absent _ _ _ _ Hr). simpl.
    repeat split; reflexivity.
Qed.

Lemma sync_words_cons clock user_id w ws st :
  sync_words clock user_id (w :: ws) st
    = sync_words clock user_id ws (sync_step clock user_id st w).
Proof. reflexivity. Qed.

Lemma sync_words_app clock user_id ws1 ws2 st :
  sync_words clock user_id (ws1 ++ ws2) st
    = sync_words clock user_id ws2 (sync_words clock user_id ws1 st).
Proof. unfold sync_words. apply fold_left_app. Qed.

Lemma sync_step_rows_other clock user_id st w k :
  k <> (user_id, WordProgressBase.word_id w) ->
  rows (sync_step clock user_id st w) !! k = rows st !! k.
Proof.
  intros Hk.
  destruct (sync_step_cases clock user_id st w)
    as [(r & _ & _ & ->)|[(r & m & _ & _ & _ & -> & _)|(_ & _ & -> & _)]];
    try reflexivity.
  now rewrite lookup_insert_ne.
Qed.

Lemma sync_words_rows_other clock user_id ws st k :
  k ∉ (fun w => (user_id, WordProgressBase.word_id w)) <$> ws ->
  rows (sync_words clock user_id ws st) !! k = rows st !! k.
Proof.
  revert st. induction ws as [|w ws IH]; intros st Hk; [reflexivity|].
  rewrite fmap_cons, not_elem_of_cons in Hk. destruct Hk as [Hw Hk].
  rewrite sync_words_cons, IH by assumption. now apply sync_step_rows_other.
Qed.

Lemma sync_step_count clock user_id st w :
  l_updated_words st <= l_updated_words (sync_step clock user_id st w)
                     <= l_updated_words st + 1
  /\ Z.of_nat (length (l_conflicts (sync_step clock user_id st w)))
       - Z.of_nat (length (l_conflicts st))
     <= l_updated_words (sync_step clock user_id st w) - l_updated_words st.
Proof.
  destruct (sync_step_cases clock user_id st w)
    as [(r & _ & _ & ->)|[(r & m & _ & _ & _ & _ & _ & -> & ->)|(_ & _ & _ & _ & -> & ->)]];
    try lia.
  rewrite length_app. destruct (differs r w); simpl; lia.
Qed.

Lemma sync_words_count clock user_id ws st :
  l_updated_words st <= l_updated_words (sync_words clock user_id ws st)
                     <= l_updated_words st + Z.of_nat (length ws)
  /\ Z.of_nat (length (l_conflicts (sync_words clock user_id ws st)))
       - Z.of_nat (length (l_conflicts st))
     <= l_updated_words (sync_words clock user_id ws st) - l_updated_words st.
Proof.
  revert st. induction ws as [|w ws IH]; intros st; [simpl; lia|].
  rewrite sync_words_cons.
  specialize (IH (sync_step clock user_id st w)).
  pose proof (sync_step_count clock user_id st w). simpl length. lia.
Qed.

Lemma sync_result d clock user_id sync_data res d' :
  sync_user_progress d clock user_id sync_data = inr (res, d') ->
  exists st us,
    st = sync_words clock user_id (ProgressSyncData.words sync_data)
           {| rows := user_words d; added := []; l_conflicts := []; l_updated_words := 0 |}
    /\ update_user_statistics clock user_id (ProgressSyncData.stats sync_data) (users d)
         = inr us
    /\ commit (utcnow clock) us (rows st) (added st) = inr d'
    /\ updated_words res = l_updated_words st
    /\ conflicts res = l_conflicts st.
Proof.
  unfold sync_user_progress.
  destruct (update_user_statistics _ _ _ _) as [e|us]; simpl; [discriminate|].
  destruct (commit _ _ _ _) as [e|d2] eqn:Hc; simpl; [discriminate|].
  intros [= <- <-]. eexists _, us. repeat split; try reflexivity. exact Hc.
Qed.

(** C2.  An entry whose processing raises is passed over: the loop goes on
    with the state it had, so the batch gives what it gives without that
    entry, in the rows, in [updated_words] and in the conflicts, and so does
    the whole operation; every other entry counts once.  Hence
    [updated_words] is at most the number of entries, and there are at most
    as many conflicts as counted entries. *)
Theorem skipped_entries clock user_id :
  (forall pre w post st e,
      sync_word clock user_id w (sync_words clock user_id pre st) = inl e ->
      sync_words clock user_id (pre ++ w :: post) st
        = sync_words clock user_id (pre ++ post) st)
  /\ (forall w st st',
        sync_word clock user_id w st = inr st' ->
        sync_step clock user_id st w = st'
        /\ l_updated_words st' = l_updated_words st + 1)
  /\ (forall ws st,
        l_updated_words st <= l_updated_words (sync_words clock user_id ws st)
                           <= l_updated_words st + Z.of_nat (length ws))
  /\ (forall d pre w post sessions stats e,
        sync_word clock user_id w
          (sync_words clock user_id pre
             {| rows := user_words d; added := []; l_conflicts := [];
                l_updated_words := 0 |}) = inl e ->
        sync_user_progress d clock user_id
          {| ProgressSyncData.words := pre ++ w :: post;
             ProgressSyncData.sessions := sessions;
             ProgressSyncData.stats := stats |}
        = sync_user_progress d clock user_id
            {| ProgressSyncData.words := pre ++ post;
               ProgressSyncData.sessions := sessions;
               ProgressSyncData.stats := stats |})
  /\ (forall d sync_data res d',
        sync_user_progress d clock user_id sync_data = inr (res, d') ->
        0 <= updated_words res <= Z.of_nat (length (ProgressSyncData.words sync_data))
        /\ Z.of_nat (length (conflicts res)) <= updated_words res).
Proof.
  assert (Hskip : forall pre w post st e,
             sync_word clock user_id w (sync_words clock user_id pre st) = inl e ->
             sync_words clock user_id (pre ++ w :: post) st
               = sync_words clock user_id (pre ++ post) st).
  { intros pre w post st e Hraise.
    rewrite !sync_words_app, sync_words_cons. f_equal.
    unfold sync_step. now rewrite Hraise. }
  split; [exact Hskip|]. split; [|split; [|split]].
  2: { intros ws st. apply sync_words_count. }
  2: { intros d pre w post sessions stats e Hraise.
       unfold sync_user_progress. simpl.
       now rewrite (Hskip _ _ post _ _ Hraise). }
  - intros w st st' Hrun. unfold sync_step. rewrite Hrun. split; [reflexivity|].
    destruct (sync_step_cases clock user_id st w)
      as [(r & Hr & Hm & _)|[(r & m & _ & _ & Hw & _ & _ & _ & Hn)|(_ & Hw & _ & _ & _ & Hn)]].
    + unfold sync_word, check_conflict, differs in Hrun.
      rewrite Hr, Hm in Hrun. discriminate.
    + rewrite Hrun in Hw. injection Hw as ->. exact Hn.
    + rewrite Hrun in Hw. injection Hw as ->. exact Hn.
  - intros d sync_data res d' Hrun.
    destruct (sync_result _ _ _ _ _ _ Hrun) as (st & us & -> & _ & _ & -> & ->).
    pose proof (sync_words_count clock user_id (ProgressSyncData.words sync_data)
                  {| rows := user_words d; added := []; l_conflicts := [];
                     l_updated_words := 0 |}) as Hcount.
    simpl in Hcount. lia.
Qed.

Lemma skipped_entries_witness :
  sync_word sample.clock "u1" (sample.entry "w" 1 1)
    (sample.loop [sample.row "w" None 1 None None]) = inl TypeError
  /\ sync_words sample.clock "u1" [sample.entry "w" 1 1; sample.entry "v" 2 2]
       (sample.loop [sample.row "w" None 1 None None])
     = sync_words sample.clock "u1" [sample.entry "v" 2 2]
         (sample.loop [sample.row "w" None 1 None None])
  /\ l_updated_words
       (sync_words sample.clock "u1" [sample.entry "w" 1 1; sample.entry "v" 2 2]
          (sample.loop [sample.row "w" None 1 None None])) = 1.
Proof.
  split; [vm_compute; reflexivity|]. split; [|vm_compute; reflexivity].
  apply (proj1 (skipped_entries sample.clock "u1")
           [] (sample.entry "w" 1 1) [sample.entry "v" 2 2]
           (sample.loop [sample.row "w" None 1 None None]) TypeError).
  vm_compute. reflexivity.
Defined.

(** ** Merge engine: conflicts *)

Lemma differs_spec r w m :
  UserWord.mastery_level r = Some m ->
  differs r w = true
  <-> (~ (m == float_value (WordProgressBase.mastery_level w))%Q
       \/ UserWord.repetitions r <> Some (WordProgressBase.repetitions w)).
Proof.
  intros Hm. unfold differs, Decimal_ne_float, int_ne. rewrite Hm.
  rewrite orb_true_iff, negb_true_iff, <- not_true_iff_false, Qeq_bool_iff.
  destruct (UserWord.repetitions r) as [n|].
  - rewrite negb_true_iff, Z.eqb_neq. split; (intros [H|H]; [now left|right]); congruence.
  - split; [right; discriminate|now right].
Qed.

(** C1 at a failing input.  The record stored for "w" holds a mastery of 0.1
    and 1 repetition, and the entry sends a mastery of 0.1 and 1 repetition:
    nothing differs, yet the merge reports a conflict, between 0.1 and 0.1.
    The stored decimal 0.1 is compared with the client's binary float, which
    is not exactly 0.1; the report itself converts the stored value to a
    float first.  With 0.5 on both sides, which the float holds exactly,
    no conflict is reported. *)
Theorem conflict_between_equal_values :
  (exists res d',
      sync_user_progress
        (sample.database (sample.user 0 0) [sample.row "w" (Some (1 # 10)) 1 None None])
        sample.clock "u1" (sample.batch [sample.entry "w" (1 # 10) 1] ∅)
      = inr (res, d')
      /\ conflicts res
         = [ {| c_word_id := "w"; server_mastery := 1 # 10; client_mastery := 1 # 10;
                resolution := "client_wins" |} ])
  /\ (float_value (float_of_Decimal (1 # 10)) == float_value (1 # 10))%Q
  /\ differs (sample.row "w" (Some (1 # 10)) 1 None None) (sample.entry "w" (1 # 10) 1)
     = true
  /\ exists res d',
       sync_user_progress
         (sample.database (sample.user 0 0) [sample.row "w" (Some (5 # 10)) 1 None None])
         sample.clock "u1" (sample.batch [sample.entry "w" (5 # 10) 1] ∅)
       = inr (res, d')
       /\ conflicts res = [].
Proof.
  split; [eexists _, _; split; [vm_compute; reflexivity|reflexivity]|].
  split; [reflexivity|]. split; [vm_compute; reflexivity|].
  eexists _, _. split; [vm_compute; reflexivity|reflexivity].
Qed.

(** The sample stores have plain identifiers when their rows do. *)
Lemma database_plain u l :
  plain (User.id u) = true ->
  Forall (fun r => plain (UserWord.user_id r) = true /\ plain (UserWord.word_id r) = true)
         l ->
  plain_store (sample.database u l).
Proof.
  intros Hu Hl. split; simpl.
  - intros i u' Hi. apply lookup_singleton_Some in Hi as [<- _]. exact Hu.
  - intros k r Hk. unfold sample.table in Hk.
    apply elem_of_list_to_map_2, list_elem_of_fmap in Hk as (r' & [= -> ->] & Hr).
    rewrite Forall_forall in Hl. destruct (Hl _ Hr) as [H1 H2]. simpl. tauto.
Qed.

(** ** Merge engine: replaying a batch *)










Lemma insert_all_keeps now us tbl new tbl' k r :
  insert_all now us tbl new = inr tbl' ->
  tbl !! k = Some r -> tbl' !! k = Some r.
Proof.
  revert tbl. induction new as [|x new IH]; intros tbl; simpl.
  - now intros [= <-].
  - unfold insert.
    destruct (us !! UserWord.user_id x); simpl; [|discriminate].
    destruct (tbl !! UserWord.key x) eqn:Hx; simpl; [discriminate|].
    intros Hrest Hk. apply (IH _ Hrest).
    rewrite lookup_insert_ne; [exact Hk|]. congruence.
Qed.

Lemma insert_all_new now us tbl new tbl' user_id w :
  insert_all now us tbl new = inr tbl' ->
  new_word user_id w ∈ new ->
  tbl' !! (user_id, WordProgressBase.word_id w)
    = Some (client_values user_id (WordProgressBase.word_id w) w (Some now)).
Proof.
  revert tbl. induction new as [|x new IH]; intros tbl; simpl.
  - intros _ Hin. now apply elem_of_nil in Hin.
  - unfold insert.
    destruct (us !! UserWord.user_id x); simpl; [|discriminate].
    destruct (tbl !! UserWord.key x) eqn:Hx; simpl; [discriminate|].
    intros Hrest Hin. apply elem_of_cons in Hin as [<-|Hin].
    + apply (insert_all_keeps _ _ _ _ _ _ _ Hrest).
      unfold UserWord.key. simpl. now rewrite lookup_insert_eq.
    + now apply (IH _ Hrest).
Qed.

Lemma sync_step_added clock user_id st w x :
  x ∈ added st -> x ∈ added (sync_step clock user_id st w).
Proof.
  intros Hx.
  destruct (sync_step_cases clock user_id st w)
    as [(r & _ & _ & ->)|[(r & m & _ & _ & _ & _ & -> & _)|(_ & _ & _ & -> & _)]];
    try assumption.
  apply elem_of_app. now left.
Qed.

Lemma sync_words_added clock user_id ws st x :
  x ∈ added st -> x ∈ added (sync_words clock user_id ws st).
Proof.
  revert st. induction ws as [|w ws IH]; intros st Hx; [exact Hx|].
  rewrite sync_words_cons. now apply IH, sync_step_added.
Qed.










(** Why [exact_mastery] is asked for: a mastery of 0.1 is stored as the decimal 0.1,
    which is not the binary64 number the client sends, so the second run of a
    one-word batch reports a conflict between 0.1 and 0.1. *)
Lemma replay_of_inexact_mastery :
  ~ exact_mastery (sample.entry "v" (1 # 10) 1)
  /\ exists res d1 res2 d2,
       sync_user_progress (sample.database (sample.user 0 0) []) sample.clock "u1"
         (sample.batch [sample.entry "v" (1 # 10) 1] ∅) = inr (res, d1)
       /\ conflicts res = []
       /\ sync_user_progress d1 sample.later "u1"
            (sample.batch [sample.entry "v" (1 # 10) 1] ∅) = inr (res2, d2)
       /\ conflicts res2
            = [ {| c_word_id := "v"; server_mastery := 1 # 10; client_mastery := 1 # 10;
                   resolution := "client_wins" |} ].
Proof.
  split; [vm_compute; discriminate|].
  eexists _, _, _, _.
  split; [vm_compute; reflexivity|]. split; [reflexivity|].
  split; [vm_compute; reflexivity|]. reflexivity.
Qed.

(** ** Merge engine: what a run commits *)

Lemma insert_all_other now us tbl new tbl' k :
  insert_all now us tbl new = inr tbl' ->
  k ∉ UserWord.key <$> new ->
  tbl' !! k = tbl !! k.
Proof.
  revert tbl. induction new as [|x new IH]; intros tbl; simpl.
  - now intros [= <-].
  - unfold insert.
    destruct (us !! UserWord.user_id x); simpl; [|discriminate].
    destruct (tbl !! UserWord.key x) eqn:Hx; simpl; [discriminate|].
    intros Hrest Hk. rewrite not_elem_of_cons in Hk. destruct Hk as [Hkx Hk].
    rewrite (IH _ Hrest Hk). now rewrite lookup_insert_ne.
Qed.

Lemma insert_all_raises now us tbl new e :
  insert_all now us tbl new = inl e -> e = IntegrityError.
Proof.
  revert tbl. induction new as [|x new IH]; intros tbl; simpl; [discriminate|].
  unfold insert.
  destruct (us !! UserWord.user_id x); simpl; [|now intros [= <-]].
  destruct (tbl !! UserWord.key x); simpl; [now intros [= <-]|]. apply IH.
Qed.

(** The INSERTs go through exactly when the account of every new row exists,
    no new key is in the table and no two new rows share a key. *)
Lemma insert_all_ok now us tbl new :
  ok (insert_all now us tbl new) = true
  <-> Forall (fun r => is_Some (us !! UserWord.user_id r)
                       /\ tbl !! UserWord.key r = None) new
      /\ NoDup (UserWord.key <$> new).
Proof.
  revert tbl. induction new as [|x new IH]; intros tbl.
  - simpl. split; [intros _; split; constructor|reflexivity].
  - rewrite fmap_cons, NoDup_cons, Forall_cons. cbn [insert_all]. unfold insert.
    destruct (us !! UserWord.user_id x) as [u|] eqn:Hu; simpl.
    2: { split; [discriminate|]. intros [[[[? [=]] _] _] _]. }
    destruct (tbl !! UserWord.key x) as [r|] eqn:Hx; simpl.
    { split; [discriminate|]. intros [[[_ [=]] _] _]. }
    rewrite IH. split.
    + intros [Hall Hnd]. split; [split; [eauto|]|split; [|exact Hnd]].
      * eapply Forall_impl; [exact Hall|]. intros r [Hr Hk]. split; [exact Hr|].
        destruct (decide (UserWord.key x = UserWord.key r)) as [Heq|Hne].
        -- rewrite Heq, lookup_insert_eq in Hk. discriminate.
        -- now rewrite lookup_insert_ne in Hk.
      * intros Hin. apply list_elem_of_fmap in Hin as (r & Heq & Hin).
        rewrite Forall_forall in Hall. destruct (Hall r Hin) as [_ Hk].
        rewrite Heq, lookup_insert_eq in Hk. discriminate.
    + intros [[_ Hall] [Hx' Hnd]]. split; [|exact Hnd].
      rewrite Forall_forall in *. intros r Hr. destruct (Hall r Hr) as [Hu' Hk].
      split; [exact Hu'|]. rewrite lookup_insert_ne; [exact Hk|].
      intros Heq. apply Hx'. rewrite Heq. now apply list_elem_of_fmap_2.
Qed.

(** The loop changes rows only where it finds one, and never the presence
    of a row or of its mastery. *)
Lemma sync_step_shape clock user_id st w k :
  (rows (sync_step clock user_id st w) !! k = None <-> rows st !! k = None)
  /\ ((exists r, rows (sync_step clock user_id st w) !! k = Some r
                 /\ UserWord.mastery_level r = None)
      <-> (exists r, rows st !! k = Some r /\ UserWord.mastery_level r = None)).
Proof.
  destruct (sync_step_cases clock user_id st w)
    as [(r & _ & _ & ->)|[(r & m & Hr & Hm & _ & -> & _)|(_ & _ & -> & _)]];
    try tauto.
  destruct (decide (k = (user_id, WordProgressBase.word_id w))) as [->|Hk].
  - rewrite lookup_insert_eq, Hr. split; [split; discriminate|].
    split; intros (r' & [= <-] & Hnull); [discriminate|congruence].
  - rewrite lookup_insert_ne by congruence. tauto.
Qed.

Lemma sync_step_is_new clock user_id st w w' :
  is_new (rows (sync_step clock user_id st w)) user_id w' = is_new (rows st) user_id w'.
Proof.
  unfold is_new.
  destruct (sync_step_shape clock user_id st w (user_id, WordProgressBase.word_id w'))
    as [Hnone _].
  destruct (rows (sync_step clock user_id st w) !! _) as [r|] eqn:H1;
    destruct (rows st !! _) as [r0|] eqn:H0; try reflexivity.
  - destruct Hnone as [_ Hn]. specialize (Hn eq_refl). discriminate.
  - destruct Hnone as [Hn _]. specialize (Hn eq_refl). discriminate.
Qed.

Lemma passed_over_spec tbl user_id w :
  passed_over tbl user_id w = true
  <-> exists r, tbl !! (user_id, WordProgressBase.word_id w) = Some r
                /\ UserWord.mastery_level r = None.
Proof.
  unfold passed_over. destruct (tbl !! _) as [r|].
  - destruct (UserWord.mastery_level r) as [m|] eqn:Hm.
    + split; [discriminate|]. intros (r' & [= <-] & Hnull). congruence.
    + split; [eauto|reflexivity].
  - split; [discriminate|]. intros (r' & [=] & _).
Qed.

Lemma sync_step_passed_over clock user_id st w w' :
  passed_over (rows (sync_step clock user_id st w)) user_id w'
  = passed_over (rows st) user_id w'.
Proof.
  apply eq_true_iff_eq. rewrite !passed_over_spec. apply sync_step_shape.
Qed.

Lemma filter_ext_bool {A : Type} (f g : A -> bool) (l : list A) :
  (forall x, f x = g x) ->
  filter (fun x => f x = true) l = filter (fun x => g x = true) l.
Proof. intros Hfg. apply list_filter_iff. intros x. now rewrite Hfg. Qed.

(** What the loop accumulates, read off the rows it started from. *)
Lemma sync_words_accumulates clock user_id ws st :
  added (sync_words clock user_id ws st)
    = added st
        ++ (new_word user_id <$> filter (fun w => is_new (rows st) user_id w = true) ws)
  /\ l_updated_words (sync_words clock user_id ws st)
     = l_updated_words st
       + Z.of_nat (length (filter (fun w => negb (passed_over (rows st) user_id w) = true)
                                  ws)).
Proof.
  revert st. induction ws as [|w ws IH]; intros st.
  - simpl. rewrite app_nil_r. split; [reflexivity|lia].
  - rewrite sync_words_cons. destruct (IH (sync_step clock user_id st w)) as [Ha Hn].
    rewrite Ha, Hn.
    rewrite (filter_ext_bool (is_new (rows (sync_step clock user_id st w)) user_id)
               (is_new (rows st) user_id)) by apply sync_step_is_new.
    rewrite (filter_ext_bool
               (fun w' => negb (passed_over (rows (sync_step clock user_id st w)) user_id w'))
               (fun w' => negb (passed_over (rows st) user_id w')))
      by (intros w'; now rewrite sync_step_passed_over).
    rewrite !filter_cons.
    destruct (sync_step_cases clock user_id st w)
      as [(r & Hr & Hm & Hs)|[(r & m & Hr & Hm & _ & _ & Hadd & _ & Hcount)
                             |(Hr & _ & _ & Hadd & _ & Hcount)]].
    + assert (Hp : passed_over (rows st) user_id w = true)
        by (apply passed_over_spec; eauto).
      assert (Hi : is_new (rows st) user_id w = false) by (unfold is_new; now rewrite Hr).
      rewrite Hs, Hp, Hi. simpl. split; reflexivity.
    + assert (Hp : passed_over (rows st) user_id w = false)
        by (unfold passed_over; now rewrite Hr, Hm).
      assert (Hi : is_new (rows st) user_id w = false) by (unfold is_new; now rewrite Hr).
      rewrite Hadd, Hcount, Hp, Hi. simpl.
      split; [reflexivity|]. simpl length. lia.
    + assert (Hp : passed_over (rows st) user_id w = false)
        by (unfold passed_over; now rewrite Hr).
      assert (Hi : is_new (rows st) user_id w = true) by (unfold is_new; now rewrite Hr).
      rewrite Hadd, Hcount, Hp, Hi. simpl.
      split; [now rewrite <- app_assoc|]. simpl length. lia.
Qed.

Lemma sync_words_shape clock user_id ws st k :
  (rows (sync_words clock user_id ws st) !! k = None <-> rows st !! k = None)
  /\ ((exists r, rows (sync_words clock user_id ws st) !! k = Some r
                 /\ UserWord.mastery_level r = None)
      <-> (exists r, rows st !! k = Some r /\ UserWord.mastery_level r = None)).
Proof.
  revert st. induction ws as [|w ws IH]; intros st; [tauto|].
  rewrite sync_words_cons.
  destruct (IH (sync_step clock user_id st w)) as [H1 H2].
  destruct (sync_step_shape clock user_id st w k) as [H3 H4]. tauto.
Qed.

Lemma statistics_domain clock user_id stats us us' i :
  update_user_statistics clock user_id stats us = inr us' ->
  is_Some (us' !! i) <-> is_Some (us !! i).
Proof.
  unfold update_user_statistics. destruct (us !! user_id) as [user|] eqn:Hu.
  - case_bool_decide; [now intros [= <-]|].
    destruct (sync_stats clock user stats) as [e|user']; simpl; [discriminate|].
    intros [= <-]. rewrite lookup_insert_is_Some.
    split; [intros [<-|[_ Hi]]; [now rewrite Hu|exact Hi]|].
    intros Hi. destruct (decide (user_id = i)); [now left|now right].
  - now intros [= <-].
Qed.

(** X1.  What a commit requires.  With plain identifiers, a merge commits
    only if its statistics update goes through, no word that is new to the
    store comes twice in the batch, and the account exists unless the batch
    creates no row: otherwise the whole merge fails and nothing is written. *)
Theorem merge_commit_requires d clock user_id sync_data res d' :
  plain_merge d user_id sync_data ->
  sync_user_progress d clock user_id sync_data = inr (res, d') ->
  ok (update_user_statistics clock user_id (ProgressSyncData.stats sync_data) (users d))
  = true
  /\ NoDup (WordProgressBase.word_id
              <$> filter (fun w => is_new (user_words d) user_id w = true)
                         (ProgressSyncData.words sync_data))
  /\ (is_Some (users d !! user_id)
      \/ Forall (fun w => is_new (user_words d) user_id w = false)
                (ProgressSyncData.words sync_data)).
Proof.
  intros _ Hrun.
  destruct (sync_result _ _ _ _ _ _ Hrun) as (st & us & Hst & Hus & Hc & _ & _).
  unfold commit in Hc.
  destruct (insert_all (utcnow clock) us (rows st) (added st)) as [e|tbl] eqn:Hins;
    simpl in Hc; [discriminate|]. clear Hc.
  assert (Hok : ok (insert_all (utcnow clock) us (rows st) (added st)) = true)
    by now rewrite Hins.
  apply insert_all_ok in Hok as [Hall Hnd].
  destruct (sync_words_accumulates clock user_id (ProgressSyncData.words sync_data)
              {| rows := user_words d; added := []; l_conflicts := [];
                 l_updated_words := 0 |}) as [Hadd _].
  rewrite <- Hst in Hadd. simpl in Hadd. rewrite Hadd in Hall, Hnd.
  set (new := filter _ _) in *.
  assert (Hkeys : UserWord.key <$> (new_word user_id <$> new)
                  = pair user_id <$> (WordProgressBase.word_id <$> new)).
  { rewrite <- !list_fmap_compose. reflexivity. }
  rewrite Hkeys in Hnd. apply NoDup_fmap in Hnd; [|intros x y [= ->]; reflexivity].
  split; [now rewrite Hus|]. split; [exact Hnd|].
  destruct new as [|w new'] eqn:Hnew.
  - right. apply Forall_forall. intros w Hw.
    destruct (is_new (user_words d) user_id w) eqn:Hi; [|reflexivity].
    assert (Hin : w ∈ filter (fun w => is_new (user_words d) user_id w = true)
                             (ProgressSyncData.words sync_data))
      by (apply list_elem_of_filter; now split).
    fold new in Hin. rewrite Hnew in Hin. now apply elem_of_nil in Hin.
  - left. rewrite fmap_cons in Hall. apply Forall_cons in Hall as [[Hu _] _].
    simpl in Hu. now apply (statistics_domain _ _ _ _ _ _ Hus).
Qed.

Lemma merge_commit_requires_witness :
  exists res d',
    sync_user_progress
      (sample.database (sample.user 0 0) [sample.row "v" (Some 1%Q) 1 None None])
      sample.clock "u1"
      (sample.batch [sample.entry "v" 2 2; sample.entry "n" 3 3] ∅)
    = inr (res, d')
    /\ NoDup (WordProgressBase.word_id
                <$> filter (fun w =>
                              is_new (user_words
                                        (sample.database (sample.user 0 0)
                                           [sample.row "v" (Some 1%Q) 1 None None]))
                                     "u1" w = true)
                           [sample.entry "v" 2 2; sample.entry "n" 3 3]).
Proof.
  destruct (sync_user_progress
              (sample.database (sample.user 0 0) [sample.row "v" (Some 1%Q) 1 None None])
              sample.clock "u1"
              (sample.batch [sample.entry "v" 2 2; sample.entry "n" 3 3] ∅))
    as [e|[res d']] eqn:Hrun.
  { vm_compute in Hrun. discriminate. }
  exists res, d'. split; [reflexivity|].
  assert (Hplain : plain_merge
                     (sample.database (sample.user 0 0)
                        [sample.row "v" (Some 1%Q) 1 None None]) "u1"
                     (sample.batch [sample.entry "v" 2 2; sample.entry "n" 3 3] ∅)).
  { split; [apply database_plain; [reflexivity|repeat constructor]|].
    split; [reflexivity|repeat constructor]. }
  destruct (merge_commit_requires _ _ _ _ _ _ Hplain Hrun) as (_ & Hnd & _).
  exact Hnd.
Defined.

(** X2.  An entry is passed over exactly when the record the store holds for
    its word, before the run, has no mastery: [updated_words] counts the
    other entries, all of them when no such record exists. *)
Theorem merge_counts_entries d clock user_id sync_data res d' :
  sync_user_progress d clock user_id sync_data = inr (res, d') ->
  updated_words res
  = Z.of_nat (length (filter (fun w => negb (passed_over (user_words d) user_id w) = true)
                             (ProgressSyncData.words sync_data)))
  /\ (Forall (fun w => passed_over (user_words d) user_id w = false)
             (ProgressSyncData.words sync_data) ->
      updated_words res = Z.of_nat (length (ProgressSyncData.words sync_data))).
Proof.
  intros Hrun.
  destruct (sync_result _ _ _ _ _ _ Hrun) as (st & us & -> & _ & _ & -> & _).
  destruct (sync_words_accumulates clock user_id (ProgressSyncData.words sync_data)
              {| rows := user_words d; added := []; l_conflicts := [];
                 l_updated_words := 0 |}) as [_ Hcount].
  simpl in Hcount. rewrite Hcount. split; [reflexivity|].
  intros Hall. rewrite filter_all; [reflexivity|].
  eapply Forall_impl; [exact Hall|]. intros w Hw. simpl in Hw. now rewrite Hw.
Qed.

Lemma merge_counts_entries_witness :
  exists res d',
    sync_user_progress
      (sample.database (sample.user 0 0)
         [sample.row "w" None 1 None None; sample.row "v" (Some 1%Q) 1 None None])
      sample.clock "u1"
      (sample.batch [sample.entry "w" 1 1; sample.entry "v" 2 2; sample.entry "n" 3 3] ∅)
    = inr (res, d')
    /\ updated_words res = 2.
Proof.
  destruct (sync_user_progress
              (sample.database (sample.user 0 0)
                 [sample.row "w" None 1 None None; sample.row "v" (Some 1%Q) 1 None None])
              sample.clock "u1"
              (sample.batch [sample.entry "w" 1 1; sample.entry "v" 2 2;
                             sample.entry "n" 3 3] ∅)) as [e|[res d']] eqn:Hrun.
  { vm_compute in Hrun. discriminate. }
  exists res, d'. split; [reflexivity|].
  destruct (merge_counts_entries _ _ _ _ _ _ Hrun) as [Hcount _].
  rewrite Hcount. vm_compute. reflexivity.
Defined.

(** What the loop leaves at the key of an entry of a batch of distinct
    words, told from the row it started with. *)
Lemma sync_words_outcome clock user_id ws st w :
  NoDup (WordProgressBase.word_id <$> ws) ->
  w ∈ ws ->
  match rows st !! (user_id, WordProgressBase.word_id w) with
  | Some r0 =>
      rows (sync_words clock user_id ws st) !! (user_id, WordProgressBase.word_id w)
      = Some (match UserWord.mastery_level r0 with
              | Some _ => update r0 w (utcnow clock)
              | None => r0
              end)
  | None =>
      rows (sync_words clock user_id ws st) !! (user_id, WordProgressBase.word_id w) = None
      /\ new_word user_id w ∈ added (sync_words clock user_id ws st)
  end.
Proof.
  revert st. induction ws as [|w0 ws IH]; intros st Hnd Hw.
  - now apply elem_of_nil in Hw.
  - rewrite fmap_cons in Hnd. apply NoDup_cons in Hnd as [Hw0 Hnd].
    rewrite sync_words_cons. apply elem_of_cons in Hw as [->|Hw].
    + assert (Hother : (user_id, WordProgressBase.word_id w0)
                       ∉ (fun w => (user_id, WordProgressBase.word_id w)) <$> ws).
      { intros Hin. apply list_elem_of_fmap in Hin as (w' & [= Heq] & Hin).
        apply Hw0. rewrite Heq. now apply list_elem_of_fmap_2. }
      rewrite (sync_words_rows_other _ _ _ _ _ Hother).
      destruct (sync_step_cases clock user_id st w0)
        as [(r & Hr & Hm & Hs)|[(r & m & Hr & Hm & _ & Hrows & _)
                               |(Hr & _ & Hrows & Hadd & _)]].
      * now rewrite Hr, Hm, Hs.
      * now rewrite Hr, Hm, Hrows, lookup_insert_eq.
      * rewrite Hr, Hrows. split; [exact Hr|].
        apply sync_words_added. rewrite Hadd. apply elem_of_app. right.
        now apply list_elem_of_singleton.
    + specialize (IH (sync_step clock user_id st w0) Hnd Hw).
      rewrite sync_step_rows_other in IH; [exact IH|].
      intros [= Heq]. apply Hw0. rewrite <- Heq. now apply list_elem_of_fmap_2.
Qed.

(** X3.  The client wins.  With plain identifiers, after a merge of distinct
    words that commits, the row of every entry that was not passed over
    holds the client's values, as the columns keep them, whatever its time
    stamp: a new row under the key [(user_id, word_id)] of the entry, an
    existing row under its own key.  A row without mastery is left as it
    was. *)
Theorem merge_stores_client_values d clock user_id sync_data res d' w :
  plain_merge d user_id sync_data ->
  NoDup (WordProgressBase.word_id <$> ProgressSyncData.words sync_data) ->
  sync_user_progress d clock user_id sync_data = inr (res, d') ->
  w ∈ ProgressSyncData.words sync_data ->
  match user_words d !! (user_id, WordProgressBase.word_id w) with
  | None =>
      forget_time <$> user_words d' !! (user_id, WordProgressBase.word_id w)
      = Some (stored (client_values user_id (WordProgressBase.word_id w) w None))
  | Some r0 =>
      match UserWord.mastery_level r0 with
      | Some _ =>
          forget_time <$> user_words d' !! (user_id, WordProgressBase.word_id w)
          = Some (stored (client_values (UserWord.user_id r0) (UserWord.word_id r0) w
                            None))
      | None => user_words d' !! (user_id, WordProgressBase.word_id w) = Some (stored r0)
      end
  end.
Proof.
  intros _ Hnd Hrun Hw.
  destruct (sync_result _ _ _ _ _ _ Hrun) as (st & us & Hst & _ & Hc & _ & _).
  unfold commit in Hc.
  destruct (insert_all _ _ _ _) as [e|tbl] eqn:Hins; simpl in Hc; [discriminate|].
  injection Hc as <-. simpl. rewrite lookup_fmap.
  pose proof (sync_words_outcome clock user_id _
                {| rows := user_words d; added := []; l_conflicts := [];
                   l_updated_words := 0 |} w Hnd Hw) as Hout.
  rewrite <- Hst in Hout. simpl in Hout.
  destruct (user_words d !! (user_id, WordProgressBase.word_id w)) as [r0|].
  - rewrite (insert_all_keeps _ _ _ _ _ _ _ Hins Hout).
    now destruct (UserWord.mastery_level r0).
  - destruct Hout as [_ Hnew]. now rewrite (insert_all_new _ _ _ _ _ _ _ Hins Hnew).
Qed.

Lemma merge_stores_client_values_witness :
  exists res d',
    sync_user_progress
      (sample.database (sample.user 0 0) [sample.row "v" (Some 1%Q) 1 None None])
      sample.clock "u1"
      (sample.batch [sample.entry "v" (255 # 100) 2; sample.entry "n" 3 3] ∅)
    = inr (res, d')
    /\ UserWord.mastery_level <$> user_words d' !! ("u1", "v") = Some (Some (26 # 10))
    /\ UserWord.repetitions <$> user_words d' !! ("u1", "n") = Some (Some 3).
Proof.
  destruct (sync_user_progress
              (sample.database (sample.user 0 0) [sample.row "v" (Some 1%Q) 1 None None])
              sample.clock "u1"
              (sample.batch [sample.entry "v" (255 # 100) 2; sample.entry "n" 3 3] ∅))
    as [e|[res d']] eqn:Hrun.
  { vm_compute in Hrun. discriminate. }
  assert (Hnd : NoDup (WordProgressBase.word_id
                         <$> [sample.entry "v" (255 # 100) 2; sample.entry "n" 3 3])).
  { apply (bool_decide_unpack _). vm_compute. exact I. }
  assert (Hplain : plain_merge
                     (sample.database (sample.user 0 0)
                        [sample.row "v" (Some 1%Q) 1 None None]) "u1"
                     (sample.batch [sample.entry "v" (255 # 100) 2; sample.entry "n" 3 3]
                        ∅)).
  { split; [apply database_plain; [reflexivity|repeat constructor]|].
    split; [reflexivity|repeat constructor]. }
  exists res, d'. split; [reflexivity|]. split.
  - pose proof (merge_stores_client_values _ sample.clock "u1"
                  (sample.batch [sample.entry "v" (255 # 100) 2; sample.entry "n" 3 3] ∅)
                  _ _ (sample.entry "v" (255 # 100) 2) Hplain Hnd Hrun
                  ltac:(apply list_elem_of_here)) as Hv.
    change (user_words _ !! ("u1", WordProgressBase.word_id (sample.entry "v" (255 # 100) 2)))
      with (Some (sample.row "v" (Some 1%Q) 1 None None)) in Hv at 1.
    cbv beta iota in Hv. simpl WordProgressBase.word_id in Hv.
    destruct (user_words d' !! ("u1", "v")) as [r|]; [|discriminate Hv].
    apply (f_equal (fmap UserWord.mastery_level)) in Hv. exact Hv.
  - pose proof (merge_stores_client_values _ sample.clock "u1"
                  (sample.batch [sample.entry "v" (255 # 100) 2; sample.entry "n" 3 3] ∅)
                  _ _ (sample.entry "n" 3 3) Hplain Hnd Hrun
                  ltac:(apply list_elem_of_further, list_elem_of_here)) as Hn.
    change (user_words _ !! ("u1", WordProgressBase.word_id (sample.entry "n" 3 3)))
      with (@None UserWord.t) in Hn at 1.
    cbv beta iota in Hn. simpl WordProgressBase.word_id in Hn.
    destruct (user_words d' !! ("u1", "n")) as [r|]; [|discriminate Hn].
    apply (f_equal (fmap UserWord.repetitions)) in Hn. exact Hn.
Defined.

(** X4.  What a merge leaves alone.  With plain identifiers, a merge that
    commits keeps every row under a key that no entry of the batch names, as
    the columns keep it: the rows of other accounts, and the other words of
    this one.  It removes no row and no account, changes no account but its
    own, and without statistics in the batch changes no account at all. *)
Theorem merge_leaves_the_rest d clock user_id sync_data res d' :
  plain_merge d user_id sync_data ->
  sync_user_progress d clock user_id sync_data = inr (res, d') ->
  (forall k,
      k ∉ pair user_id <$> (WordProgressBase.word_id <$> ProgressSyncData.words sync_data) ->
      user_words d' !! k = stored <$> user_words d !! k)
  /\ (forall k, is_Some (user_words d !! k) -> is_Some (user_words d' !! k))
  /\ (forall i, i <> user_id -> users d' !! i = users d !! i)
  /\ (forall i, is_Some (users d' !! i) <-> is_Some (users d !! i))
  /\ (ProgressSyncData.stats sync_data = ∅ -> users d' = users d).
Proof.
  intros _ Hrun. pose proof (sync_users _ _ _ _ _ _ Hrun) as Hus.
  destruct (sync_result _ _ _ _ _ _ Hrun) as (st & us & Hst & _ & Hc & _ & _).
  unfold commit in Hc.
  destruct (insert_all _ _ _ _) as [e|tbl] eqn:Hins; simpl in Hc; [discriminate|].
  injection Hc as <-. simpl in *.
  repeat split.
  - intros k Hk. rewrite lookup_fmap. f_equal.
    rewrite (insert_all_other _ _ _ _ _ _ Hins).
    + rewrite Hst. rewrite sync_words_rows_other; [reflexivity|].
      intros Hin. apply Hk. apply list_elem_of_fmap in Hin as (w & -> & Hw).
      apply list_elem_of_fmap. exists (WordProgressBase.word_id w).
      split; [reflexivity|]. now apply list_elem_of_fmap_2.
    + destruct (sync_words_accumulates clock user_id (ProgressSyncData.words sync_data)
                  {| rows := user_words d; added := []; l_conflicts := [];
                     l_updated_words := 0 |}) as [Hadd _].
      rewrite <- Hst in Hadd. simpl in Hadd. rewrite Hadd.
      intros Hin. apply Hk.
      apply list_elem_of_fmap in Hin as (r & -> & Hr).
      apply list_elem_of_fmap in Hr as (w & -> & Hw).
      apply list_elem_of_filter in Hw as [_ Hw].
      apply list_elem_of_fmap. exists (WordProgressBase.word_id w).
      split; [reflexivity|]. now apply list_elem_of_fmap_2.
  - intros k Hk. rewrite lookup_fmap.
    destruct (rows st !! k) as [r|] eqn:Hr.
    + now rewrite (insert_all_keeps _ _ _ _ _ _ _ Hins Hr).
    + rewrite Hst in Hr. apply sync_words_shape in Hr. simpl in Hr.
      rewrite Hr in Hk. now destruct Hk.
  - intros i Hi. unfold update_user_statistics in Hus.
    destruct (users d !! user_id) as [user|]; [|now injection Hus as <-].
    case_bool_decide; [now injection Hus as <-|].
    destruct (sync_stats _ _ _) as [e|user']; simpl in Hus; [discriminate|].
    injection Hus as <-. now rewrite lookup_insert_ne.
  - now apply (statistics_domain _ _ _ _ _ _ Hus).
  - now apply (statistics_domain _ _ _ _ _ _ Hus).
  - intros Hempty. unfold update_user_statistics in Hus. rewrite Hempty in Hus.
    destruct (users d !! user_id); now injection Hus as <-.
Qed.

Lemma merge_leaves_the_rest_witness :
  exists res d',
    sync_user_progress
      (sample.database (sample.user 0 0)
         [sample.row "v" (Some 1%Q) 1 None None; sample.row "w" (Some (20 # 10)) 1 None None])
      sample.clock "u1" (sample.batch [sample.entry "v" 3 2] ∅)
    = inr (res, d')
    /\ user_words d' !! ("u1", "w") = Some (sample.row "w" (Some (20 # 10)) 1 None None)
    /\ users d' = {[ "u1" := sample.user 0 0 ]}.
Proof.
  destruct (sync_user_progress
              (sample.database (sample.user 0 0)
                 [sample.row "v" (Some 1%Q) 1 None None;
                  sample.row "w" (Some (20 # 10)) 1 None None])
              sample.clock "u1" (sample.batch [sample.entry "v" 3 2] ∅))
    as [e|[res d']] eqn:Hrun.
  { vm_compute in Hrun. discriminate. }
  exists res, d'. split; [reflexivity|].
  assert (Hplain : plain_merge
                     (sample.database (sample.user 0 0)
                        [sample.row "v" (Some 1%Q) 1 None None;
                         sample.row "w" (Some (20 # 10)) 1 None None]) "u1"
                     (sample.batch [sample.entry "v" 3 2] ∅)).
  { split; [apply database_plain; [reflexivity|repeat constructor]|].
    split; [reflexivity|repeat constructor]. }
  destruct (merge_leaves_the_rest _ _ _ _ _ _ Hplain Hrun)
    as (Hrows & _ & _ & _ & Husers).
  split.
  - rewrite Hrows; [reflexivity|].
    apply (bool_decide_unpack _). vm_compute. exact I.
  - now rewrite Husers.
Defined.

(** X5.  The statistics update can make a whole merge fail.  For an account
    whose stored [max_streak] is an integer and a batch with statistics, the
    merge can only commit if the incoming [max_streak], when the payload has
    one, is a number; with any other value there (a text, a null) it raises
    [TypeError], whatever the words of the batch.  On an account whose stored
    [max_streak] is NULL, every batch with statistics fails so. *)
Theorem merge_fails_on_max_streak d clock user_id sync_data user :
  users d !! user_id = Some user ->
  ProgressSyncData.stats sync_data <> ∅ ->
  (forall a, User.max_streak user = PyInt a ->
     (number (get "max_streak" (PyInt 0) (ProgressSyncData.stats sync_data)) = None ->
      sync_user_progress d clock user_id sync_data = inl TypeError)
     /\ (is_Some (number (get "max_streak" (PyInt 0) (ProgressSyncData.stats sync_data))) ->
         ok (update_user_statistics clock user_id (ProgressSyncData.stats sync_data)
               (users d)) = true))
  /\ (User.max_streak user = PyNone ->
      sync_user_progress d clock user_id sync_data = inl TypeError).
Proof.
  intros Hu Hne.
  assert (Hfail : py.max (User.max_streak user)
                    (get "max_streak" (PyInt 0) (ProgressSyncData.stats sync_data))
                  = inl TypeError ->
                  sync_user_progress d clock user_id sync_data = inl TypeError).
  { intros Hmax. unfold sync_user_progress, update_user_statistics, sync_stats.
    rewrite Hu, bool_decide_eq_false_2 by assumption. now rewrite Hmax. }
  split.
  - intros a Ha. split.
    + intros Hnum. apply Hfail. rewrite Ha. unfold py.max, gt. rewrite Hnum.
      now destruct (get _ _ _).
    + intros [q Hq]. unfold update_user_statistics, sync_stats.
      rewrite Hu, bool_decide_eq_false_2 by assumption.
      rewrite Ha. unfold py.max, gt. rewrite Hq. reflexivity.
  - intros Hnull. apply Hfail. rewrite Hnull. unfold py.max, gt. simpl.
    destruct (number _); now destruct (get _ _ _).
Qed.

Lemma merge_fails_on_max_streak_witness :
  sync_user_progress (sample.database (sample.user 2 1) []) sample.clock "u1"
    (sample.batch [sample.entry "v" 3 2] {[ "max_streak" := PyStr "7" ]})
  = inl TypeError.
Proof.
  refine (proj1 (proj1 (merge_fails_on_max_streak
                          (sample.database (sample.user 2 1) []) sample.clock "u1"
                          (sample.batch [sample.entry "v" 3 2]
                             {[ "max_streak" := PyStr "7" ]})
                          (sample.user 2 1) _ _) 2 _) _).
  - reflexivity.
  - apply (bool_decide_unpack _). vm_compute. exact I.
  - reflexivity.
  - reflexivity.
Defined.

(** ** Review selector: what the limit cuts off *)

Lemma due_review_filter clock user_id r :
  due_for_review clock user_id r -> review_filter clock user_id r = true.
Proof.
  intros (Hu & (m & Hm & Hlt) & Hd). unfold review_filter, due.
  rewrite Hu, String.eqb_refl, Hm. simpl.
  assert (Hq : Qlt_bool m 4 = true).
  { unfold Qlt_bool. destruct (Qle_bool 4 m) eqn:Hle; [|reflexivity].
    apply Qle_bool_iff in Hle. exfalso. now apply (Qlt_not_le _ _ Hlt). }
  rewrite Hq. simpl.
  destruct Hd as [->|(n & -> & Hn)]; [reflexivity|]. unfold date_leb. lia.
Qed.

Lemma insert_by_Permutation x l : insert_by x l ≡ₚ x :: l.
Proof.
  induction l as [|y l IH]; simpl; [reflexivity|].
  destruct (review_leb x y); [reflexivity|].
  rewrite IH. apply Permutation_swap.
Qed.

Lemma order_by_Permutation l : order_by l ≡ₚ l.
Proof.
  induction l as [|x l IH]; simpl; [reflexivity|].
  now rewrite insert_by_Permutation, IH.
Qed.

(** X6.  The review selector misses nothing.  For a limit [N >= 0], a stored
    row of the user that is due for review is among the records returned,
    unless [N] records are returned that all come before it, or level with
    it, in the priority order. *)
Theorem review_misses_nothing d clock user_id limit k r :
  0 <= limit ->
  user_words d !! k = Some r ->
  due_for_review clock user_id r ->
  exists words,
    review_query d clock user_id limit = inr words
    /\ (r ∈ words
        \/ (Z.of_nat (length words) = limit
            /\ Forall (fun w => review_order w r) words)).
Proof.
  intros Hlimit Hk Hdue. unfold review_query.
  destruct (Z.ltb_spec limit 0) as [Hneg|_]; [lia|].
  set (found := filter _ _).
  assert (Hr : r ∈ order_by found).
  { apply order_by_elem, list_elem_of_filter. split; [now apply due_review_filter|].
    apply list_elem_of_fmap. exists (k, r). split; [reflexivity|].
    now apply elem_of_map_to_list. }
  eexists. split; [reflexivity|].
  rewrite <- (take_drop (Z.to_nat limit) (order_by found)) in Hr.
  apply elem_of_app in Hr as [Hin|Hout]; [now left|right].
  split.
  - rewrite length_take.
    assert (Hlen : (Z.to_nat limit < length (order_by found))%nat).
    { destruct (Nat.lt_ge_cases (Z.to_nat limit) (length (order_by found)))
        as [Hlt|Hge]; [exact Hlt|].
      rewrite drop_ge in Hout by exact Hge. now apply elem_of_nil in Hout. }
    lia.
  - apply Forall_forall. intros w Hw. apply review_leb_order.
    + apply elem_of_take in Hw as (i & Hw & _).
      apply list_elem_of_lookup_2, order_by_elem, list_elem_of_filter in Hw as [Hf _].
      apply review_filter_due in Hf as (_ & (m & Hm & _) & _). now exists m.
    + destruct Hdue as (_ & (m & Hm & _) & _). now exists m.
    + apply (StronglySorted_app_1_elem_of (fun a b => review_leb a b = true)
               (take (Z.to_nat limit) (order_by found))
               (drop (Z.to_nat limit) (order_by found)) w r); [|assumption..].
      rewrite take_drop. apply order_by_sorted.
Qed.

Lemma review_misses_nothing_witness :
  exists words,
    review_query (sample.database (sample.user 0 0) [sample.word_B; sample.word_A])
      sample.clock "u1" 1 = inr words
    /\ (sample.word_B ∈ words
        \/ (Z.of_nat (length words) = 1
            /\ Forall (fun w => review_order w sample.word_B) words)).
Proof.
  apply (review_misses_nothing
           (sample.database (sample.user 0 0) [sample.word_B; sample.word_A])
           sample.clock "u1" 1 ("u1", "B") sample.word_B).
  - lia.
  - reflexivity.
  - split; [reflexivity|]. split.
    + exists 1%Q. split; reflexivity.
    + right. exists (sample.ymd 2024 2 15). split; [reflexivity|]. vm_compute. discriminate.
Defined.

(** X7.  How many records the review selector returns: the limit, or the
    number of stored rows that pass the filter when that is less, so none
    for a limit of 0 or when nothing is due; a negative limit is refused. *)
Theorem review_count d clock user_id limit :
  (limit < 0 -> get_words_for_review d clock user_id limit = inl ProgrammingError)
  /\ (0 <= limit ->
      exists items,
        get_words_for_review d clock user_id limit = inr items
        /\ length items
           = Nat.min (Z.to_nat limit)
               (length (filter (fun r => review_filter clock user_id r = true)
                               (snd <$> map_to_list (user_words d)))))
  /\ (0 <= limit ->
      (forall k r, user_words d !! k = Some r -> ~ due_for_review clock user_id r) ->
      get_words_for_review d clock user_id limit = inr []).
Proof.
  unfold get_words_for_review, review_query.
  set (found := filter _ _).
  assert (Hitems : exists items,
             review_items (take (Z.to_nat limit) (order_by found)) = inr items
             /\ length items = Nat.min (Z.to_nat limit) (length found)).
  { destruct (review_items_ok (take (Z.to_nat limit) (order_by found)))
      as (items & Hitems & Hall).
    - apply Forall_take, Forall_forall. intros r Hr.
      apply order_by_elem, list_elem_of_filter in Hr as [Hf _].
      apply review_filter_due in Hf as (_ & (m & Hm & _) & _). now exists m.
    - exists items. split; [exact Hitems|].
      rewrite <- (Forall2_length _ _ _ Hall), length_take.
      now rewrite (Permutation_length (order_by_Permutation found)). }
  split; [|split].
  - intros Hneg. destruct (Z.ltb_spec limit 0); [reflexivity|lia].
  - intros Hlimit. destruct (Z.ltb_spec limit 0); [lia|]. exact Hitems.
  - intros Hlimit Hnone. destruct (Z.ltb_spec limit 0); [lia|]. simpl.
    assert (Hempty : found = []).
    { destruct found as [|r l] eqn:Hfound; [reflexivity|].
      assert (Hr : r ∈ found) by (rewrite Hfound; apply list_elem_of_here).
      apply list_elem_of_filter in Hr as [Hf Hr].
      apply list_elem_of_fmap in Hr as ([k r'] & -> & Hr).
      apply elem_of_map_to_list in Hr.
      exfalso. apply (Hnone k r' Hr). now apply review_filter_due. }
    rewrite Hempty. now destruct (Z.to_nat limit).
Qed.

Lemma review_count_witness :
  get_words_for_review (sample.database (sample.user 0 0) [sample.word_B; sample.word_A])
    sample.clock "u1" (-1) = inl ProgrammingError
  /\ exists items,
       get_words_for_review
         (sample.database (sample.user 0 0) [sample.word_B; sample.word_A])
         sample.clock "u1" 5 = inr items
       /\ length items = 2%nat.
Proof.
  destruct (review_count
              (sample.database (sample.user 0 0) [sample.word_B; sample.word_A])
              sample.clock "u1" (-1)) as (Hneg & _ & _).
  destruct (review_count
              (sample.database (sample.user 0 0) [sample.word_B; sample.word_A])
              sample.clock "u1" 5) as (_ & Hcount & _).
  split; [apply Hneg; lia|].
  destruct (Hcount ltac:(lia)) as (items & Hitems & Hlen).
  exists items. split; [exact Hitems|]. rewrite Hlen. vm_compute. reflexivity.
Defined.

(** ** Trial importer: what an import adds *)

Lemma new_user_word_converts `{Parsers} user_id (e : Dict) :
  ok (new_user_word user_id e)
  = ok (Decimal_str (get "mastery_level" (PyFloat 0%Q) e))
    && ok (Decimal_str (get "ease_factor" (PyFloat (25 # 10)) e)).
Proof.
  unfold new_user_word.
  destruct (Decimal_str (get "mastery_level" _ e)); [reflexivity|].
  now destruct (Decimal_str (get "ease_factor" _ e)).
Qed.

Lemma word_objects_spec `{Parsers} user_id (l : list Dict) :
  Forall2 (fun e o => new_user_word user_id e = inr o)
    (filter (fun e => ok (new_user_word user_id e) = true) l)
    (word_objects user_id l).
Proof.
  induction l as [|e l IH]; simpl; [constructor|].
  destruct (new_user_word user_id e) as [x|o] eqn:He.
  - rewrite filter_cons_False; [assumption|]. rewrite He. discriminate.
  - rewrite filter_cons_True; [|now rewrite He]. now constructor.
Qed.

Lemma session_objects_length `{Parsers} user_id (l : list Dict) :
  (length (session_objects user_id l) <= length l)%nat.
Proof.
  induction l as [|e l IH]; simpl; [lia|].
  destruct (new_session user_id e); simpl; lia.
Qed.

(** X8.  The word import is fail-soft and keeps the input order: the objects
    handed to the session are those of the entries whose [mastery_level] and
    [ease_factor] (or their defaults) convert to decimals, one each, in the
    order of the payload, all for the account of the import; the other
    entries are passed over.  An entry whose [mastery_level] or
    [ease_factor] is null is among those passed over, whereas absent ones
    take their defaults. *)
Theorem trial_words_imported `{Parsers} user_id (words_data : list Dict) :
  Forall2 (fun e o => new_user_word user_id e = inr o)
    (filter (fun e => ok (Decimal_str (get "mastery_level" (PyFloat 0%Q) e))
                      && ok (Decimal_str (get "ease_factor" (PyFloat (25 # 10)) e))
                      = true) words_data)
    (word_objects user_id words_data)
  /\ Forall (fun o => UserWord.t_user_id o = user_id) (word_objects user_id words_data)
  /\ (length (word_objects user_id words_data) <= length words_data)%nat
  /\ (forall e : Dict,
        e !! "mastery_level" = Some PyNone \/ e !! "ease_factor" = Some PyNone ->
        word_objects user_id (e :: words_data) = word_objects user_id words_data)
  /\ (forall e : Dict,
        e !! "mastery_level" = None -> e !! "ease_factor" = None ->
        exists o,
          word_objects user_id (e :: words_data) = o :: word_objects user_id words_data
          /\ UserWord.t_mastery_level o = 0%Q
          /\ UserWord.t_ease_factor o = 25 # 10).
Proof.
  assert (Hobj : Forall2 (fun e o => new_user_word user_id e = inr o)
            (filter (fun e => ok (Decimal_str (get "mastery_level" (PyFloat 0%Q) e))
                              && ok (Decimal_str (get "ease_factor" (PyFloat (25 # 10)) e))
                              = true) words_data)
            (word_objects user_id words_data)).
  { rewrite (list_filter_iff _ (fun e => ok (new_user_word user_id e) = true)).
    - apply word_objects_spec.
    - intros e. now rewrite new_user_word_converts. }
  split; [exact Hobj|]. split; [|split; [|split]].
  - clear Hobj. induction words_data as [|e l IH]; simpl; [constructor|].
    destruct (new_user_word user_id e) as [x|o] eqn:He; [exact IH|].
    constructor; [|exact IH]. unfold new_user_word in He.
    destruct (Decimal_str (get "mastery_level" _ e)); simpl in He; [discriminate|].
    destruct (Decimal_str (get "ease_factor" _ e)); simpl in He; [discriminate|].
    now injection He as <-.
  - rewrite <- (Forall2_length _ _ _ Hobj). apply length_filter.
  - intros e Hnull. simpl.
    assert (Hraise : ok (new_user_word user_id e) = false).
    { rewrite new_user_word_converts. unfold get.
      destruct Hnull as [-> | ->]; simpl; [reflexivity|apply andb_false_r]. }
    now destruct (new_user_word user_id e).
  - intros e Hm He. simpl. unfold new_user_word, get. rewrite Hm, He. simpl.
    eexists. split; [reflexivity|]. split; reflexivity.
Qed.

Lemma trial_words_imported_witness :
  @word_objects sample.parsers "u1"
    [ {[ "word_id" := PyStr "b"; "mastery_level" := PyNone ]};
      {[ "word_id" := PyStr "a" ]} ]
  = @word_objects sample.parsers "u1" [ {[ "word_id" := PyStr "a" ]} ]
  /\ (length (@word_objects sample.parsers "u1" [ {[ "word_id" := PyStr "a" ]} ]) <= 1)%nat.
Proof.
  destruct (@trial_words_imported sample.parsers "u1" [ {[ "word_id" := PyStr "a" ]} ])
    as (_ & _ & Hlen & Hnull & _).
  split; [|exact Hlen].
  apply Hnull. left. reflexivity.
Defined.

(** X9.  What a trial import leaves alone.  The import only appends to the
    objects the session already holds: at most one word object for each
    entry of [words] and at most five session objects, never more than
    [sessions] has entries.  It changes no account but the one of the
    import, adds and removes none, and for an unknown account drops the
    statistics without a failure; an empty payload changes nothing. *)
Theorem trial_import_appends `{Parsers} s user_id (trial_data : TrialData) :
  (exists ws ss,
      new_user_words (import_trial_progress s user_id trial_data)
        = new_user_words s ++ ws
      /\ (length ws <= length (words trial_data))%nat
      /\ new_sessions (import_trial_progress s user_id trial_data)
           = new_sessions s ++ ss
      /\ (length ss <= Nat.min 5 (length (sessions trial_data)))%nat)
  /\ (forall i, i <> user_id ->
        s_users (import_trial_progress s user_id trial_data) !! i = s_users s !! i)
  /\ (forall i, is_Some (s_users (import_trial_progress s user_id trial_data) !! i)
                <-> is_Some (s_users s !! i))
  /\ (s_users s !! user_id = None ->
      s_users (import_trial_progress s user_id trial_data) = s_users s)
  /\ (words trial_data = [] -> sessions trial_data = [] -> stats trial_data = ∅ ->
      import_trial_progress s user_id trial_data = s).
Proof.
  pose (s1 := match words trial_data with
              | [] => s
              | _ => _import_word_progress s user_id (words trial_data)
              end).
  pose (s2 := match sessions trial_data with
              | [] => s1
              | _ => _import_session_summaries s1 user_id (sessions trial_data)
              end).
  assert (Himport : import_trial_progress s user_id trial_data
                    = if bool_decide (stats trial_data = ∅) then s2
                      else _update_user_stats s2 user_id (stats trial_data)).
  { unfold import_trial_progress. subst s2 s1.
    destruct (words trial_data); destruct (sessions trial_data); reflexivity. }
  rewrite Himport. clear Himport.
  assert (H1 : s_users s1 = s_users s /\ new_sessions s1 = new_sessions s
               /\ new_user_words s1
                  = new_user_words s ++ word_objects user_id (words trial_data)).
  { subst s1. destruct (words trial_data); simpl; [|auto].
    now rewrite app_nil_r. }
  destruct H1 as (Hu1 & Hs1 & Hw1).
  assert (H2 : s_users s2 = s_users s /\ new_user_words s2 = new_user_words s1
               /\ new_sessions s2
                  = new_sessions s
                      ++ session_objects user_id (recent_sessions (sessions trial_data))).
  { subst s2. destruct (sessions trial_data) eqn:Hs.
    - simpl. now rewrite app_nil_r.
    - rewrite <- Hs. simpl. now rewrite Hs1. }
  destruct H2 as (Hu2 & Hw2 & Hs2).
  assert (H3 : forall s3,
             s3 = (if bool_decide (stats trial_data = ∅) then s2
                   else _update_user_stats s2 user_id (stats trial_data)) ->
             new_user_words s3 = new_user_words s2
             /\ new_sessions s3 = new_sessions s2
             /\ (forall i, i <> user_id -> s_users s3 !! i = s_users s !! i)
             /\ (forall i, is_Some (s_users s3 !! i) <-> is_Some (s_users s !! i))
             /\ (s_users s !! user_id = None -> s_users s3 = s_users s)).
  { intros s3 ->. case_bool_decide.
    - rewrite Hu2. repeat split; auto.
    - unfold _update_user_stats. rewrite Hu2.
      destruct (s_users s !! user_id) as [user|] eqn:Huser; simpl.
      + rewrite ?Hu2. repeat split; try discriminate.
        * intros i Hi. now rewrite lookup_insert_ne.
        * rewrite lookup_insert_is_Some. intros [<-|[_ Hi]]; [now rewrite Huser|exact Hi].
        * intros Hi. apply lookup_insert_is_Some.
          destruct (decide (user_id = i)); [now left|now right].
      + rewrite ?Hu2. repeat split; auto. }
  destruct (H3 (if bool_decide (stats trial_data = ∅) then s2
                else _update_user_stats s2 user_id (stats trial_data)) eq_refl)
    as (Hw3 & Hs3 & Hother & Hdom & Hnone).
  split; [|split; [exact Hother|split; [exact Hdom|split; [exact Hnone|]]]].
  - exists (word_objects user_id (words trial_data)),
           (session_objects user_id (recent_sessions (sessions trial_data))).
    rewrite Hw3, Hw2, Hw1, Hs3, Hs2. split; [reflexivity|]. split.
    + clear. induction (words trial_data) as [|e l IH]; simpl; [lia|].
      destruct (new_user_word user_id e); simpl; lia.
    + split; [reflexivity|].
      pose proof (session_objects_length user_id (recent_sessions (sessions trial_data)))
        as Hlen.
      rewrite recent_sessions_drop, length_drop in Hlen.
      rewrite recent_sessions_drop. lia.
  - intros Hw Hs Hst. subst s2 s1. rewrite Hw, Hs, Hst. reflexivity.
Qed.

Lemma trial_import_appends_witness :
  s_users
    (@import_trial_progress sample.parsers (sample.session (sample.user 3 1)) "u2"
       {| words := [ {[ "word_id" := PyStr "a" ]} ];
          sessions := [];
          stats := {[ "max_streak" := PyInt 9 ]} |})
  = s_users (sample.session (sample.user 3 1)).
Proof.
  destruct (@trial_import_appends sample.parsers (sample.session (sample.user 3 1)) "u2"
              {| words := [ {[ "word_id" := PyStr "a" ]} ];
                 sessions := [];
                 stats := {[ "max_streak" := PyInt 9 ]} |})
    as (_ & _ & _ & Hnone & _).
  apply Hnone. reflexivity.
Defined.

(** X10.  What the date parser gives back.  A value that counts as false
    gives [None]; a text gives the date of the time stamp [_parse_datetime]
    reads from it, or [None] when there is none, so never a text; any other
    value comes back as it is, unchecked.  Parsing the result again changes
    nothing. *)
Theorem parse_date_result `{Parsers} (v : PyVal) :
  (truthy v = false -> _parse_date v = PyNone)
  /\ (forall s, _parse_date v <> PyStr s)
  /\ (forall s, v = PyStr s ->
        _parse_date v = match _parse_datetime v with
                        | PyDatetime t => PyDate (dt_date t)
                        | _ => PyNone
                        end)
  /\ (truthy v = true -> (forall s, v <> PyStr s) -> _parse_date v = v)
  /\ _parse_date (_parse_date v) = _parse_date v.
Proof.
  unfold _parse_date, _parse_datetime.
  split; [|split; [|split; [|split]]].
  - now intros ->.
  - intros s. destruct (truthy v); simpl; [|discriminate].
    destruct v; try discriminate. now destruct (fromisoformat _).
  - intros s ->. destruct (truthy (PyStr s)); simpl; [|reflexivity].
    now destruct (fromisoformat _).
  - intros -> Hs. simpl. destruct v; try reflexivity. now destruct (Hs s).
  - destruct (truthy v) eqn:Hv; simpl; [|reflexivity].
    destruct v; simpl in *; rewrite ?Hv; try reflexivity.
    now destruct (fromisoformat _).
Qed.

Lemma parse_date_result_witness :
  @_parse_date sample.parsers (PyStr "") = PyNone
  /\ @_parse_date sample.parsers (PyInt 20240101) = PyInt 20240101.
Proof.
  destruct (@parse_date_result sample.parsers (PyStr "")) as (Hfalse & _).
  destruct (@parse_date_result sample.parsers (PyInt 20240101)) as (_ & _ & _ & Hother & _).
  split; [apply Hfalse; reflexivity|].
  apply Hother; [reflexivity|]. intros s. discriminate.
Defined.

(** ** Progress summary *)

Import ProgressSummary.

Lemma word_item_ok r :
  ok (word_item r) = true
  <-> is_Some (UserWord.mastery_level r) /\ is_Some (UserWord.ease_factor r).
Proof.
  unfold word_item.
  destruct (UserWord.mastery_level r) as [m|]; simpl.
  - destruct (UserWord.ease_factor r) as [e|]; simpl.
    + split; [eauto|reflexivity].
    + split; [discriminate|]. now intros [_ [? [=]]].
  - split; [discriminate|]. now intros [[? [=]] _].
Qed.

Lemma word_progress_items l items :
  word_progress l = inr items -> Forall2 (fun r i => word_item r = inr i) l items.
Proof.
  revert items. induction l as [|r l IH]; simpl; intros items.
  - intros [= <-]. constructor.
  - destruct (word_item r) as [e|i] eqn:Hi; simpl; [discriminate|].
    destruct (word_progress l) as [e|items'] eqn:His; simpl; [discriminate|].
    intros [= <-]. constructor; [exact Hi|now apply IH].
Qed.

Lemma word_progress_ok l :
  ok (word_progress l) = true <-> Forall (fun r => ok (word_item r) = true) l.
Proof.
  induction l as [|r l IH]; simpl.
  - split; [constructor|reflexivity].
  - rewrite Forall_cons, <- IH.
    destruct (word_item r); simpl; [split; [discriminate|now intros [[=] _]]|].
    destruct (word_progress l); simpl; [split; [discriminate|now intros [_ [=]]]|].
    tauto.
Qed.

Lemma word_progress_raises l e : word_progress l = inl e -> e = TypeError.
Proof.
  induction l as [|r l IH]; simpl; [discriminate|].
  unfold word_item at 1.
  destruct (UserWord.mastery_level r); simpl; [|now intros [= <-]].
  destruct (UserWord.ease_factor r); simpl; [|now intros [= <-]].
  destruct (word_progress l); simpl; [|discriminate].
  intros [= <-]. now apply IH.
Qed.

Lemma session_item_ok s :
  is_Some (SessionRow.started_at s) ->
  (exists i, session_item s = inr i) <-> is_Some (SessionRow.accuracy s).
Proof.
  intros [t Ht]. unfold session_item. rewrite Ht.
  destruct (SessionRow.accuracy s) as [a|]; simpl.
  - split; [eauto|]. intros _. eexists. reflexivity.
  - split; [now intros [i [=]]|]. now intros [? [=]].
Qed.

Lemma sessions_summary_items l items :
  sessions_summary l = inr items -> Forall2 (fun s i => session_item s = inr i) l items.
Proof.
  revert items. induction l as [|s l IH]; simpl; intros items.
  - intros [= <-]. constructor.
  - destruct (session_item s) as [e|i] eqn:Hi; simpl; [discriminate|].
    destruct (sessions_summary l) as [e|items'] eqn:His; simpl; [discriminate|].
    intros [= <-]. constructor; [exact Hi|now apply IH].
Qed.

Lemma sessions_summary_ok l :
  (exists items, sessions_summary l = inr items)
  <-> Forall (fun s => exists i, session_item s = inr i) l.
Proof.
  induction l as [|s l IH]; simpl.
  - split; [constructor|eauto].
  - rewrite Forall_cons, <- IH.
    destruct (session_item s) as [e|i]; simpl.
    { split; [now intros [? [=]]|]. now intros [[? [=]] _]. }
    destruct (sessions_summary l) as [e|items']; simpl.
    { split; [now intros [? [=]]|]. now intros [_ [? [=]]]. }
    split; eauto.
Qed.

Lemma insert_desc_elem x y l : y ∈ insert_desc x l <-> y = x \/ y ∈ l.
Proof.
  induction l as [|z l IH]; simpl.
  - rewrite list_elem_of_singleton, elem_of_nil. tauto.
  - destruct (started_geb x z).
    + rewrite elem_of_cons. tauto.
    + rewrite !elem_of_cons, IH. tauto.
Qed.

Lemma order_by_desc_elem y l : y ∈ order_by_desc l <-> y ∈ l.
Proof.
  induction l as [|x l IH]; simpl; [reflexivity|].
  rewrite insert_desc_elem, IH, elem_of_cons. tauto.
Qed.

Lemma datetime_leb_spec a b :
  datetime_leb a b = true
  <-> date_key (dt_date a) < date_key (dt_date b)
      \/ (date_key (dt_date a) = date_key (dt_date b) /\ dt_time a <= dt_time b).
Proof.
  unfold datetime_leb.
  rewrite orb_true_iff, andb_true_iff, Z.ltb_lt, Z.eqb_eq, Z.leb_le. tauto.
Qed.

Lemma started_geb_total a b : started_geb a b = false -> started_geb b a = true.
Proof.
  unfold started_geb.
  destruct (SessionRow.started_at a) as [x|], (SessionRow.started_at b) as [y|];
    try discriminate; try reflexivity.
  intros Hf. apply datetime_leb_spec.
  assert (Hn : ~ datetime_leb y x = true) by (rewrite Hf; discriminate).
  rewrite datetime_leb_spec in Hn. lia.
Qed.

Lemma started_geb_trans a b c :
  started_geb a b = true -> started_geb b c = true -> started_geb a c = true.
Proof.
  unfold started_geb.
  destruct (SessionRow.started_at a) as [x|], (SessionRow.started_at b) as [y|],
    (SessionRow.started_at c) as [z|]; try discriminate; try reflexivity.
  rewrite !datetime_leb_spec. lia.
Qed.

Lemma insert_desc_sorted x l :
  StronglySorted (fun a b => started_geb a b = true) l ->
  StronglySorted (fun a b => started_geb a b = true) (insert_desc x l).
Proof.
  induction 1 as [|z l Hl IH Hz]; simpl.
  - repeat constructor.
  - destruct (started_geb x z) eqn:Hxz.
    + constructor; [now constructor|]. constructor; [assumption|].
      eapply Forall_impl; [exact Hz|]. intros w Hzw. simpl in Hzw.
      eapply started_geb_trans; eassumption.
    + constructor; [assumption|]. apply Forall_forall. intros w Hw.
      apply insert_desc_elem in Hw as [->|Hw].
      * now apply started_geb_total.
      * rewrite Forall_forall in Hz. now apply Hz.
Qed.

Lemma order_by_desc_sorted l :
  StronglySorted (fun a b => started_geb a b = true) (order_by_desc l).
Proof.
  induction l as [|x l IH]; simpl; [constructor|]. now apply insert_desc_sorted.
Qed.

Lemma sessions_query_selected st clock user_id s :
  s ∈ sessions_query st clock user_id ->
  (exists k, sessions st !! k = Some s) /\ session_filter clock user_id s = true.
Proof.
  unfold sessions_query. intros Hs.
  apply subseteq_take, order_by_desc_elem, list_elem_of_filter in Hs as [Hf Hs].
  apply list_elem_of_fmap in Hs as ([k s'] & -> & Hs).
  apply elem_of_map_to_list in Hs. split; [now exists k|exact Hf].
Qed.

Lemma words_query_elem d user_id r :
  r ∈ words_query d user_id
  <-> (exists k, user_words d !! k = Some r) /\ UserWord.user_id r = user_id.
Proof.
  unfold words_query. rewrite list_elem_of_filter, list_elem_of_fmap, String.eqb_eq.
  split.
  - intros [Hu ([k r'] & -> & Hr)]. apply elem_of_map_to_list in Hr.
    split; [now exists k|exact Hu].
  - intros [[k Hk] Hu]. split; [exact Hu|]. exists (k, r). split; [reflexivity|].
    now apply elem_of_map_to_list.
Qed.

(** X11.  When the summary can be given.  It fails with "User not found" for
    an unknown account, whatever else the store holds.  For a known account
    it is given exactly when every word record of the account has a mastery
    level and an ease factor, every session it selects has an accuracy, and
    the stored [last_active_date] counts as false or is a date. *)
Theorem summary_given_iff st clock user_id :
  (users (database st) !! user_id = None ->
   get_user_progress_summary st clock user_id = inl UserNotFound)
  /\ (forall user,
        users (database st) !! user_id = Some user ->
        (exists p, get_user_progress_summary st clock user_id = inr p)
        <-> (forall k r,
               user_words (database st) !! k = Some r ->
               UserWord.user_id r = user_id ->
               is_Some (UserWord.mastery_level r) /\ is_Some (UserWord.ease_factor r))
            /\ (forall s, s ∈ sessions_query st clock user_id ->
                          is_Some (SessionRow.accuracy s))
            /\ (truthy (User.last_active_date user) = true ->
                (exists d, User.last_active_date user = PyDate d)
                \/ (exists t, User.last_active_date user = PyDatetime t))).
Proof.
  unfold get_user_progress_summary. split; [now intros ->|].
  intros user ->.
  assert (Hwords : ok (word_progress (words_query (database st) user_id)) = true
                   <-> forall k r,
                         user_words (database st) !! k = Some r ->
                         UserWord.user_id r = user_id ->
                         is_Some (UserWord.mastery_level r)
                         /\ is_Some (UserWord.ease_factor r)).
  { rewrite word_progress_ok, Forall_forall. split.
    - intros Hall k r Hk Hu. apply word_item_ok, Hall, words_query_elem. eauto.
    - intros Hall r Hr. apply words_query_elem in Hr as [[k Hk] Hu].
      apply word_item_ok. eauto. }
  assert (Hsessions : (exists items,
                          sessions_summary (sessions_query st clock user_id) = inr items)
                      <-> forall s, s ∈ sessions_query st clock user_id ->
                                    is_Some (SessionRow.accuracy s)).
  { rewrite sessions_summary_ok, Forall_forall. split.
    - intros Hall s Hs. apply session_item_ok; [|now apply Hall].
      apply sessions_query_selected in Hs as [_ Hf]. unfold session_filter in Hf.
      apply andb_true_iff in Hf as [_ Hf].
      destruct (SessionRow.started_at s); [eauto|discriminate].
    - intros Hall s Hs. apply session_item_ok; [|now apply Hall].
      apply sessions_query_selected in Hs as [_ Hf]. unfold session_filter in Hf.
      apply andb_true_iff in Hf as [_ Hf].
      destruct (SessionRow.started_at s); [eauto|discriminate]. }
  assert (Huser : (exists u, user_item user (profile st user_id) = inr u)
                  <-> (truthy (User.last_active_date user) = true ->
                       (exists d, User.last_active_date user = PyDate d)
                       \/ (exists t, User.last_active_date user = PyDatetime t))).
  { unfold user_item, isoformat_or_None.
    destruct (truthy (User.last_active_date user)); simpl.
    - destruct (User.last_active_date user); simpl;
        (split; [intros [u Hu]; try discriminate; intros _; eauto
                |intros Hd; try (eexists; reflexivity);
                 destruct (Hd eq_refl) as [[? [=]]|[? [=]]]]).
    - split; [discriminate|]. intros _. eexists. reflexivity. }
  rewrite <- Hwords, <- Hsessions, <- Huser. clear Hwords Hsessions Huser.
  destruct (word_progress _) as [e|ws]; simpl.
  { split; [now intros [p [=]]|]. now intros [[=] _]. }
  destruct (sessions_summary _) as [e|ss]; simpl.
  { split; [now intros [p [=]]|]. now intros (_ & [? [=]] & _). }
  destruct (user_item _ _) as [e|u]; simpl.
  { split; [now intros [p [=]]|]. now intros (_ & _ & [? [=]]). }
  split; eauto.
Qed.

Lemma summary_given_iff_witness :
  get_user_progress_summary
    (sample_store.store (sample.database (sample.user 0 0) [sample.word_A]) [])
    sample.clock "u2" = inl UserNotFound
  /\ ~ exists p,
         get_user_progress_summary
           (sample_store.store
              (sample.database (sample.user 0 0)
                 [sample.word_A; sample.row "w" None 1 None None]) [])
           sample.clock "u1" = inr p.
Proof.
  split.
  - apply (summary_given_iff
             (sample_store.store (sample.database (sample.user 0 0) [sample.word_A]) [])
             sample.clock "u2"). reflexivity.
  - intros Hp.
    apply (proj2 (summary_given_iff
                    (sample_store.store
                       (sample.database (sample.user 0 0)
                          [sample.word_A; sample.row "w" None 1 None None]) [])
                    sample.clock "u1") (sample.user 0 0) eq_refl) in Hp.
    destruct Hp as (Hwords & _).
    destruct (Hwords ("u1", "w") (sample.row "w" None 1 None None) eq_refl eq_refl)
      as [[m Hm] _].
    discriminate.
Defined.

Lemma summary_parts st clock user_id p :
  get_user_progress_summary st clock user_id = inr p ->
  Forall2 (fun r i => word_item r = inr i) (words_query (database st) user_id) (p_words p)
  /\ Forall2 (fun s i => session_item s = inr i) (sessions_query st clock user_id)
       (p_sessions p)
  /\ p_sync_timestamp p = utcnow clock
  /\ exists user,
       users (database st) !! user_id = Some user
       /\ user_item user (profile st user_id) = inr (p_user p).
Proof.
  unfold get_user_progress_summary.
  destruct (users (database st) !! user_id) as [user|]; [|discriminate].
  destruct (word_progress _) as [e|ws] eqn:Hws; simpl; [discriminate|].
  destruct (sessions_summary _) as [e|ss] eqn:Hss; simpl; [discriminate|].
  destruct (user_item _ _) as [e|u] eqn:Hu; simpl; [discriminate|].
  intros [= <-]. simpl. split; [now apply word_progress_items|].
  split; [now apply sessions_summary_items|]. split; [reflexivity|]. eauto.
Qed.

Lemma word_item_word_id r i : word_item r = inr i -> w_word_id i = UserWord.word_id r.
Proof.
  unfold word_item.
  destruct (UserWord.mastery_level r); simpl; [|discriminate].
  destruct (UserWord.ease_factor r); simpl; [|discriminate].
  now intros [= <-].
Qed.

(** The words of the summary are the rows of the account, by their keys. *)
Lemma summary_words_spec st clock user_id p i :
  keyed (user_words (database st)) ->
  get_user_progress_summary st clock user_id = inr p ->
  i ∈ p_words p
  <-> exists r,
        user_words (database st) !! (user_id, w_word_id i) = Some r
        /\ word_item r = inr i.
Proof.
  intros Hkeyed Hp. destruct (summary_parts _ _ _ _ Hp) as (Hwords & _). split.
  - intros Hi. apply list_elem_of_lookup_1 in Hi as [n Hn].
    destruct (Forall2_lookup_r _ _ _ _ _ Hwords Hn) as (r & Hr & Hitem).
    apply list_elem_of_lookup_2, words_query_elem in Hr as [[k Hk] Hu].
    exists r. split; [|exact Hitem].
    rewrite (word_item_word_id _ _ Hitem), <- Hu.
    now rewrite <- (Hkeyed _ _ Hk) in Hk.
  - intros (r & Hr & Hitem).
    assert (Hin : r ∈ words_query (database st) user_id).
    { apply words_query_elem. split; [eauto|]. now injection (Hkeyed _ _ Hr). }
    apply list_elem_of_lookup_1 in Hin as [n Hn].
    destruct (Forall2_lookup_l _ _ _ _ _ Hwords Hn) as (i' & Hi' & Hitem').
    assert (i' = i) by congruence. subst i'. now apply list_elem_of_lookup_2 in Hi'.
Qed.

(** X12.  The words of the summary are the word records of the account, no
    more and no less: an item is listed exactly when the store holds, under
    the key of the account and of the item's word, a record with the item's
    values, so each word comes once, and the summary is stamped with the
    time of the call. *)
Theorem summary_lists_the_words st clock user_id p :
  keyed (user_words (database st)) ->
  get_user_progress_summary st clock user_id = inr p ->
  (forall i,
      i ∈ p_words p
      <-> exists r,
            user_words (database st) !! (user_id, w_word_id i) = Some r
            /\ word_item r = inr i)
  /\ NoDup (w_word_id <$> p_words p)
  /\ p_sync_timestamp p = utcnow clock.
Proof.
  intros Hkeyed Hp. split; [|split].
  - intros i. now apply summary_words_spec with clock.
  - destruct (summary_parts _ _ _ _ Hp) as (Hwords & _).
    assert (Hids : w_word_id <$> p_words p
                   = UserWord.word_id <$> words_query (database st) user_id).
    { induction Hwords as [|r i rs items Hi _ IH]; [reflexivity|].
      rewrite !fmap_cons, IH. f_equal. now apply word_item_word_id. }
    rewrite Hids. apply NoDup_fmap_2_strong.
    + intros x y Hx Hy Heq.
      apply words_query_elem in Hx as [[kx Hx] Hux].
      apply words_query_elem in Hy as [[ky Hy] Huy].
      assert (Hk : kx = ky).
      { rewrite <- (Hkeyed _ _ Hx), <- (Hkeyed _ _ Hy). unfold UserWord.key.
        now rewrite Hux, Huy, Heq. }
      subst ky. congruence.
    + unfold words_query. apply NoDup_filter.
      apply (NoDup_fmap_1 UserWord.key).
      assert (Hkeys : UserWord.key <$> (snd <$> map_to_list (user_words (database st)))
                      = fst <$> map_to_list (user_words (database st))).
      { rewrite <- list_fmap_compose. apply list_fmap_ext.
        intros n [k r] Hkr. apply list_elem_of_lookup_2, elem_of_map_to_list in Hkr.
        simpl. now apply Hkeyed. }
      rewrite Hkeys. apply NoDup_fst_map_to_list.
  - now destruct (summary_parts _ _ _ _ Hp) as (_ & _ & Ht & _).
Qed.

Lemma table_keyed l : keyed (sample.table l).
Proof.
  intros k r Hk. unfold sample.table in Hk.
  apply elem_of_list_to_map_2, list_elem_of_fmap in Hk as (r' & [= -> ->] & _).
  reflexivity.
Qed.

Lemma summary_lists_the_words_witness :
  exists p,
    get_user_progress_summary
      (sample_store.store
         (sample.database (sample.user 0 0) [sample.word_A; sample.word_B]) [])
      sample.clock "u1" = inr p
    /\ NoDup (w_word_id <$> p_words p)
    /\ p_sync_timestamp p = utcnow sample.clock.
Proof.
  destruct (get_user_progress_summary
              (sample_store.store
                 (sample.database (sample.user 0 0) [sample.word_A; sample.word_B]) [])
              sample.clock "u1") as [e|p] eqn:Hp.
  { vm_compute in Hp. discriminate. }
  exists p. split; [reflexivity|].
  destruct (summary_lists_the_words
              (sample_store.store
                 (sample.database (sample.user 0 0) [sample.word_A; sample.word_B]) [])
              sample.clock "u1" p (table_keyed [sample.word_A; sample.word_B]) Hp)
    as (_ & Hnd & Ht).
  split; assumption.
Defined.

Lemma word_item_stored user_id word_id w t :
  word_item (stored (client_values user_id word_id w t))
  = inr {| w_word_id := word_id;
           w_mastery_level :=
             float_of_Decimal
               (DECIMAL_3_1 (Decimal_of_float (WordProgressBase.mastery_level w)));
           w_repetitions := Some (WordProgressBase.repetitions w);
           w_ease_factor :=
             float_of_Decimal
               (DECIMAL_3_1 (Decimal_of_float (WordProgressBase.ease_factor w)));
           w_last_review := WordProgressBase.last_review w;
           w_next_review := WordProgressBase.next_review w;
           w_seen_count := Some (WordProgressBase.seen_count w);
           w_correct_count := Some (WordProgressBase.correct_count w) |}.
Proof. reflexivity. Qed.

(** X13.  Round trip.  With plain identifiers, after a merge of distinct
    words has been committed, a summary of the account that can be given
    lists, for every entry of the batch, the word with the values the client
    sent, mastery and ease factor as the columns keep them (one decimal). *)
Theorem merge_then_summary st clock clock' user_id sync_data res d' p w :
  plain_merge (database st) user_id sync_data ->
  keyed (user_words (database st)) ->
  NoDup (WordProgressBase.word_id <$> ProgressSyncData.words sync_data) ->
  sync_user_progress (database st) clock user_id sync_data = inr (res, d') ->
  get_user_progress_summary
    {| database := d'; profile := profile st; sessions := sessions st |}
    clock' user_id = inr p ->
  w ∈ ProgressSyncData.words sync_data ->
  {| w_word_id := WordProgressBase.word_id w;
     w_mastery_level :=
       float_of_Decimal (DECIMAL_3_1 (Decimal_of_float (WordProgressBase.mastery_level w)));
     w_repetitions := Some (WordProgressBase.repetitions w);
     w_ease_factor :=
       float_of_Decimal (DECIMAL_3_1 (Decimal_of_float (WordProgressBase.ease_factor w)));
     w_last_review := WordProgressBase.last_review w;
     w_next_review := WordProgressBase.next_review w;
     w_seen_count := Some (WordProgressBase.seen_count w);
     w_correct_count := Some (WordProgressBase.correct_count w) |} ∈ p_words p.
Proof.
  intros _ Hkeyed Hnd Hrun Hp Hw.
  destruct (summary_parts _ _ _ _ Hp) as (Hwords & _). simpl in Hwords.
  assert (Hlisted : forall r i,
             user_words d' !! (user_id, WordProgressBase.word_id w) = Some r ->
             UserWord.user_id r = user_id ->
             word_item r = inr i -> i ∈ p_words p).
  { intros r i Hr Hu Hitem.
    assert (Hin : r ∈ words_query d' user_id) by (apply words_query_elem; eauto).
    apply list_elem_of_lookup_1 in Hin as [n Hn].
    destruct (Forall2_lookup_l _ _ _ _ _ Hwords Hn) as (i' & Hi' & Hitem').
    assert (i' = i) by congruence. subst i'. now apply list_elem_of_lookup_2 in Hi'. }
  assert (Hfails : forall r,
             user_words d' !! (user_id, WordProgressBase.word_id w) = Some r ->
             UserWord.user_id r = user_id ->
             UserWord.mastery_level r = None -> False).
  { intros r Hr Hu Hnull.
    assert (Hin : r ∈ words_query d' user_id) by (apply words_query_elem; eauto).
    apply list_elem_of_lookup_1 in Hin as [n Hn].
    destruct (Forall2_lookup_l _ _ _ _ _ Hwords Hn) as (i' & _ & Hitem').
    unfold word_item in Hitem'. rewrite Hnull in Hitem'. discriminate. }
  destruct (sync_result _ _ _ _ _ _ Hrun) as (s & us & Hs & _ & Hc & _ & _).
  unfold commit in Hc.
  destruct (insert_all _ _ _ _) as [e|tbl] eqn:Hins; simpl in Hc; [discriminate|].
  injection Hc as <-. simpl in Hlisted, Hfails.
  pose proof (sync_words_outcome clock user_id _
                {| rows := user_words (database st); added := []; l_conflicts := [];
                   l_updated_words := 0 |} w Hnd Hw) as Hout.
  rewrite <- Hs in Hout. simpl in Hout.
  destruct (user_words (database st) !! (user_id, WordProgressBase.word_id w))
    as [r0|] eqn:Hr0.
  - pose proof (Hkeyed _ _ Hr0) as Hkey. injection Hkey as Hu0 Hw0.
    pose proof (insert_all_keeps _ _ _ _ _ _ _ Hins Hout) as Hrow.
    destruct (UserWord.mastery_level r0) as [m|] eqn:Hm.
    + apply (Hlisted (stored (update r0 w (utcnow clock)))).
      * rewrite lookup_fmap, Hrow. reflexivity.
      * exact Hu0.
      * unfold update. rewrite word_item_stored, Hw0. reflexivity.
    + exfalso. apply (Hfails (stored r0)).
      * rewrite lookup_fmap, Hrow. reflexivity.
      * exact Hu0.
      * simpl. now rewrite Hm.
  - destruct Hout as [_ Hnew].
    pose proof (insert_all_new _ _ _ _ _ _ _ Hins Hnew) as Hrow.
    apply (Hlisted (stored (client_values user_id (WordProgressBase.word_id w) w
                              (Some (utcnow clock))))).
    + rewrite lookup_fmap, Hrow. reflexivity.
    + reflexivity.
    + apply word_item_stored.
Qed.

Lemma merge_then_summary_witness :
  exists res d' p,
    sync_user_progress
      (sample.database (sample.user 0 0) [sample.row "v" (Some 1%Q) 1 None None])
      sample.clock "u1"
      (sample.batch [sample.entry "v" (255 # 100) 2; sample.entry "n" 3 3] ∅)
    = inr (res, d')
    /\ get_user_progress_summary
         {| database := d'; profile := sample_store.ann; sessions := ∅ |}
         sample.later "u1" = inr p
    /\ exists i, i ∈ p_words p /\ w_word_id i = "v" /\ w_mastery_level i = 26 # 10.
Proof.
  destruct (sync_user_progress
              (sample.database (sample.user 0 0) [sample.row "v" (Some 1%Q) 1 None None])
              sample.clock "u1"
              (sample.batch [sample.entry "v" (255 # 100) 2; sample.entry "n" 3 3] ∅))
    as [e|[res d']] eqn:Hrun.
  { vm_compute in Hrun. discriminate. }
  pose proof Hrun as Hnf. vm_compute in Hnf. injection Hnf as <- <-.
  match type of Hrun with _ = inr (?r, ?d) => set (res := r) in *; set (d' := d) in * end.
  destruct (get_user_progress_summary
              {| database := d'; profile := sample_store.ann; sessions := ∅ |}
              sample.later "u1") as [e|p] eqn:Hp.
  { vm_compute in Hp. discriminate. }
  exists res, d', p. split; [exact Hrun|]. split; [exact Hp|].
  eexists. split.
  - apply (merge_then_summary
             (sample_store.store
                (sample.database (sample.user 0 0)
                   [sample.row "v" (Some 1%Q) 1 None None]) [])
             sample.clock sample.later "u1"
             (sample.batch [sample.entry "v" (255 # 100) 2; sample.entry "n" 3 3] ∅)
             res d' p (sample.entry "v" (255 # 100) 2)).
    + split; [apply database_plain; [reflexivity|repeat constructor]|].
      split; [reflexivity|repeat constructor].
    + apply (table_keyed [sample.row "v" (Some 1%Q) 1 None None]).
    + apply (bool_decide_unpack _). vm_compute. exact I.
    + exact Hrun.
    + exact Hp.
    + apply list_elem_of_here.
  - split; reflexivity.
Defined.

Lemma session_item_started s i :
  session_item s = inr i -> SessionRow.started_at s = Some (s_started_at i).
Proof.
  unfold session_item.
  destruct (SessionRow.accuracy s); simpl; [|discriminate].
  destruct (SessionRow.started_at s); simpl; [|discriminate].
  now intros [= <-].
Qed.

Lemma session_items_sorted l items :
  Forall2 (fun s i => session_item s = inr i) l items ->
  StronglySorted (fun a b => started_geb a b = true) l ->
  StronglySorted (fun a b => datetime_leb (s_started_at b) (s_started_at a) = true) items.
Proof.
  induction 1 as [|s i l items Hi Hall IH]; intros Hs; [constructor|].
  apply StronglySorted_inv in Hs as [Hs Hhd].
  constructor; [now apply IH|].
  clear IH Hs. induction Hall as [|s' i' l items Hi' _ IH]; [constructor|].
  apply Forall_cons in Hhd as [Hgeb Hhd]. constructor; [|now apply IH].
  unfold started_geb in Hgeb.
  now rewrite (session_item_started _ _ Hi), (session_item_started _ _ Hi') in Hgeb.
Qed.

Lemma insert_desc_Permutation x l : insert_desc x l ≡ₚ x :: l.
Proof.
  induction l as [|y l IH]; simpl; [reflexivity|].
  destruct (started_geb x y); [reflexivity|].
  rewrite IH. apply Permutation_swap.
Qed.

Lemma order_by_desc_Permutation l : order_by_desc l ≡ₚ l.
Proof.
  induction l as [|x l IH]; simpl; [reflexivity|].
  now rewrite insert_desc_Permutation, IH.
Qed.

(** X14.  The sessions of the summary.  At most 50 sessions are listed,
    newest first; each is a stored session of the account that started at or
    after the first of the current month at the time of day of the call, so
    a session of the first of the month that started earlier in the day than
    the call is not listed.  When fewer than 50 are listed, every stored
    session of the account that started at or after that moment is among
    them. *)
Theorem summary_sessions st clock user_id p :
  get_user_progress_summary st clock user_id = inr p ->
  (length (p_sessions p) <= 50)%nat
  /\ StronglySorted (fun a b => datetime_leb (s_started_at b) (s_started_at a) = true)
       (p_sessions p)
  /\ Forall (fun i =>
               (exists k s,
                   sessions st !! k = Some s
                   /\ session_item s = inr i
                   /\ SessionRow.user_id s = user_id)
               /\ datetime_leb (replace_day (utcnow clock) 1) (s_started_at i) = true
               /\ (date_key (dt_date (s_started_at i))
                   = date_key (dt_date (replace_day (utcnow clock) 1)) ->
                   dt_time (utcnow clock) <= dt_time (s_started_at i)))
       (p_sessions p)
  /\ ((length (p_sessions p) < 50)%nat ->
      forall k s t,
        sessions st !! k = Some s ->
        SessionRow.user_id s = user_id ->
        SessionRow.started_at s = Some t ->
        datetime_leb (replace_day (utcnow clock) 1) t = true ->
        exists i, i ∈ p_sessions p /\ session_item s = inr i).
Proof.
  intros Hp. destruct (summary_parts _ _ _ _ Hp) as (_ & Hitems & _).
  pose proof (Forall2_length _ _ _ Hitems) as Hlen.
  split; [|split; [|split]].
  - rewrite <- Hlen. unfold sessions_query. rewrite length_take. lia.
  - apply (session_items_sorted _ _ Hitems). unfold sessions_query.
    apply StronglySorted_app_1_l with (drop 50 (order_by_desc
      (filter (fun s => session_filter clock user_id s = true)
              (snd <$> map_to_list (sessions st))))).
    rewrite take_drop. apply order_by_desc_sorted.
  - apply Forall_forall. intros i Hi. apply list_elem_of_lookup_1 in Hi as [n Hn].
    destruct (Forall2_lookup_r _ _ _ _ _ Hitems Hn) as (s & Hs & Hitem).
    apply list_elem_of_lookup_2, sessions_query_selected in Hs as [[k Hk] Hf].
    unfold session_filter in Hf. apply andb_true_iff in Hf as [Hu Hf].
    apply String.eqb_eq in Hu.
    rewrite (session_item_started _ _ Hitem) in Hf.
    split; [now exists k, s|]. split; [exact Hf|].
    apply datetime_leb_spec in Hf. simpl in *. lia.
  - intros Hshort k s t Hk Hu Ht Hge.
    assert (Hin : s ∈ sessions_query st clock user_id).
    { unfold sessions_query in *. rewrite <- Hlen, length_take in Hshort.
      rewrite take_ge by lia.
      apply order_by_desc_elem, list_elem_of_filter. split.
      - unfold session_filter. rewrite Hu, String.eqb_refl, Ht. exact Hge.
      - apply list_elem_of_fmap. exists (k, s). split; [reflexivity|].
        now apply elem_of_map_to_list. }
    apply list_elem_of_lookup_1 in Hin as [n Hn].
    destruct (Forall2_lookup_l _ _ _ _ _ Hitems Hn) as (i & Hi & Hitem).
    exists i. split; [now apply list_elem_of_lookup_2 in Hi|exact Hitem].
Qed.

Lemma summary_sessions_witness :
  exists p,
    get_user_progress_summary
      (sample_store.store (sample.database (sample.user 0 0) [sample.word_A])
         [ sample_store.session_row 1 "u1"
             (Some (sample_store.at_ (sample.ymd 2024 3 1) 32400000000));
           sample_store.session_row 2 "u1"
             (Some (sample_store.at_ (sample.ymd 2024 3 10) 0));
           sample_store.session_row 3 "u1"
             (Some (sample_store.at_ (sample.ymd 2024 3 12) 0)) ])
      sample_store.mid_month "u1" = inr p
    /\ s_id <$> p_sessions p = [3; 2]
    /\ (length (p_sessions p) <= 50)%nat.
Proof.
  destruct (get_user_progress_summary
              (sample_store.store (sample.database (sample.user 0 0) [sample.word_A])
                 [ sample_store.session_row 1 "u1"
                     (Some (sample_store.at_ (sample.ymd 2024 3 1) 32400000000));
                   sample_store.session_row 2 "u1"
                     (Some (sample_store.at_ (sample.ymd 2024 3 10) 0));
                   sample_store.session_row 3 "u1"
                     (Some (sample_store.at_ (sample.ymd 2024 3 12) 0)) ])
              sample_store.mid_month "u1") as [e|p] eqn:Hp.
  { vm_compute in Hp. discriminate. }
  exists p. split; [reflexivity|].
  destruct (summary_sessions _ _ _ _ Hp) as (Hlen & _).
  split; [|exact Hlen].
  vm_compute in Hp. injection Hp as <-. reflexivity.
Defined.

(** ** Merge engine: the conflict report *)

Lemma sync_step_conflicts clock user_id st w :
  l_conflicts (sync_step clock user_id st w)
  = l_conflicts st ++ option_list (reported (rows st) user_id w).
Proof.
  unfold sync_step, sync_word, reported, check_conflict.
  destruct (rows st !! (user_id, WordProgressBase.word_id w)) as [r|]; simpl.
  - destruct (differs r w) eqn:Hd; simpl.
    + destruct (UserWord.mastery_level r) as [m|]; simpl; [reflexivity|].
      now rewrite app_nil_r.
    + destruct (UserWord.mastery_level r) as [m|]; simpl; now rewrite app_nil_r.
  - now rewrite app_nil_r.
Qed.

Lemma sync_words_conflicts clock user_id ws st :
  NoDup (WordProgressBase.word_id <$> ws) ->
  l_conflicts (sync_words clock user_id ws st)
  = l_conflicts st ++ omap (reported (rows st) user_id) ws.
Proof.
  revert st. induction ws as [|w ws IH]; intros st Hnd.
  - simpl. now rewrite app_nil_r.
  - rewrite fmap_cons in Hnd. apply NoDup_cons in Hnd as [Hw Hnd].
    rewrite sync_words_cons, (IH _ Hnd), sync_step_conflicts, <- app_assoc. f_equal.
    assert (Hrest : omap (reported (rows (sync_step clock user_id st w)) user_id) ws
                    = omap (reported (rows st) user_id) ws).
    { apply list_omap_ext, Forall2_same_length_lookup. split; [reflexivity|].
      intros i w1 w2 H1 H2. assert (w2 = w1) by congruence. subst w2.
      unfold reported. rewrite sync_step_rows_other; [reflexivity|].
      intros [= Heq]. apply Hw. rewrite <- Heq.
      apply list_elem_of_fmap_2. now apply list_elem_of_lookup_2 in H1. }
    rewrite Hrest. change (w :: ws) with ([w] ++ ws). rewrite omap_app. f_equal.
Qed.

(** X15.  The conflict report of a merge.  With plain identifiers, a merge of
    distinct words that commits reports, in the order of the batch, one
    conflict for each entry whose stored record has a mastery that is not
    exactly the number of the client's float, or repetitions that are not
    the client's, naming the word, the stored mastery and the client's.  The
    comparison is between the stored decimal and the binary float, so a
    stored 0.1 is reported against an incoming 0.1 (see C1).  An entry that
    is new to the store reports none. *)
Theorem merge_reports_conflicts d clock user_id sync_data res d' :
  plain_merge d user_id sync_data ->
  NoDup (WordProgressBase.word_id <$> ProgressSyncData.words sync_data) ->
  sync_user_progress d clock user_id sync_data = inr (res, d') ->
  conflicts res = omap (reported (user_words d) user_id) (ProgressSyncData.words sync_data)
  /\ (forall w, is_new (user_words d) user_id w = true ->
                reported (user_words d) user_id w = None)
  /\ (forall w r m,
        user_words d !! (user_id, WordProgressBase.word_id w) = Some r ->
        UserWord.mastery_level r = Some m ->
        is_Some (reported (user_words d) user_id w)
        <-> (~ (m == float_value (WordProgressBase.mastery_level w))%Q
             \/ UserWord.repetitions r <> Some (WordProgressBase.repetitions w)))
  /\ Forall (fun c => resolution c = "client_wins"
                      /\ exists w r m,
                           w ∈ ProgressSyncData.words sync_data
                           /\ user_words d !! (user_id, WordProgressBase.word_id w) = Some r
                           /\ UserWord.mastery_level r = Some m
                           /\ (~ (m == float_value (WordProgressBase.mastery_level w))%Q
                               \/ UserWord.repetitions r
                                  <> Some (WordProgressBase.repetitions w))
                           /\ c_word_id c = WordProgressBase.word_id w
                           /\ server_mastery c = float_of_Decimal m
                           /\ client_mastery c = WordProgressBase.mastery_level w)
       (conflicts res).
Proof.
  intros _ Hnd Hrun.
  destruct (sync_result _ _ _ _ _ _ Hrun) as (st & us & -> & _ & _ & _ & Hc).
  rewrite (sync_words_conflicts _ _ _ _ Hnd) in Hc. simpl in Hc.
  split; [exact Hc|]. split; [|split].
  - intros w Hw. unfold is_new in Hw. unfold reported.
    now destruct (user_words d !! _).
  - intros w r m Hr Hm. unfold reported. rewrite Hr, Hm.
    rewrite <- (differs_spec r w m Hm).
    destruct (differs r w); split; try discriminate; eauto.
    now intros [? [=]].
  - rewrite Hc. apply Forall_forall. intros c Hin.
    apply list_elem_of_omap in Hin as (w & Hw & Hrep). unfold reported in Hrep.
    destruct (user_words d !! (user_id, WordProgressBase.word_id w)) as [r|] eqn:Hr;
      [|discriminate].
    destruct (UserWord.mastery_level r) as [m|] eqn:Hm; [|discriminate].
    destruct (differs r w) eqn:Hd; [|discriminate].
    injection Hrep as <-. simpl. split; [reflexivity|].
    exists w, r, m. repeat split; try assumption.
    now apply (differs_spec r w m Hm).
Qed.

Lemma merge_reports_conflicts_witness :
  exists res d',
    sync_user_progress
      (sample.database (sample.user 0 0)
         [sample.row "v" (Some 1%Q) 1 None None; sample.row "w" (Some 2%Q) 1 None None])
      sample.clock "u1"
      (sample.batch [sample.entry "w" 2 1; sample.entry "v" 3 1; sample.entry "n" 3 3] ∅)
    = inr (res, d')
    /\ c_word_id <$> conflicts res = ["v"].
Proof.
  destruct (sync_user_progress
              (sample.database (sample.user 0 0)
                 [sample.row "v" (Some 1%Q) 1 None None;
                  sample.row "w" (Some 2%Q) 1 None None])
              sample.clock "u1"
              (sample.batch [sample.entry "w" 2 1; sample.entry "v" 3 1;
                             sample.entry "n" 3 3] ∅)) as [e|[res d']] eqn:Hrun.
  { vm_compute in Hrun. discriminate. }
  exists res, d'. split; [reflexivity|].
  assert (Hnd : NoDup (WordProgressBase.word_id
                         <$> [sample.entry "w" 2 1; sample.entry "v" 3 1;
                              sample.entry "n" 3 3])).
  { apply (bool_decide_unpack _). vm_compute. exact I. }
  assert (Hplain : plain_merge
                     (sample.database (sample.user 0 0)
                        [sample.row "v" (Some 1%Q) 1 None None;
                         sample.row "w" (Some 2%Q) 1 None None]) "u1"
                     (sample.batch [sample.entry "w" 2 1; sample.entry "v" 3 1;
                                    sample.entry "n" 3 3] ∅)).
  { split; [apply database_plain; [reflexivity|repeat constructor]|].
    split; [reflexivity|repeat constructor]. }
  destruct (merge_reports_conflicts _ sample.clock "u1"
              (sample.batch [sample.entry "w" 2 1; sample.entry "v" 3 1;
                             sample.entry "n" 3 3] ∅) _ _ Hplain Hnd Hrun) as (Hc & _).
  rewrite Hc. vm_compute. reflexivity.
Defined.

(** ** Merge engine and review selector together *)

(** The column keeps a mastery below 4.0 exactly for a decimal below 3.95. *)
Lemma DECIMAL_3_1_below_4 x : (DECIMAL_3_1 x < 4)%Q <-> (x < 395 # 100)%Q.
Proof.
  destruct x as [n m]. unfold DECIMAL_3_1, Qlt. simpl.
  pose proof (Pos2Z.is_pos m) as Hm.
  pose proof (Z_div_mod_eq_full (2 * (10 * Z.abs n) + Zpos m) (2 * Zpos m)) as Hdiv.
  pose proof (Z.mod_pos_bound (2 * (10 * Z.abs n) + Zpos m) (2 * Zpos m) ltac:(lia))
    as Hmod.
  set (q := (2 * (10 * Z.abs n) + Zpos m) / (2 * Zpos m)) in *.
  assert (Hq : 0 <= q) by (apply Z.div_pos; lia).
  destruct n as [|n|n]; simpl in *; nia.
Qed.

Lemma review_query_elem d clock user_id limit listed r :
  review_query d clock user_id limit = inr listed ->
  r ∈ listed ->
  (exists k, user_words d !! k = Some r) /\ review_filter clock user_id r = true.
Proof.
  unfold review_query. destruct (limit <? 0); [discriminate|]. intros [= <-] Hr.
  apply subseteq_take, order_by_elem, list_elem_of_filter in Hr as [Hf Hr].
  apply list_elem_of_fmap in Hr as ([k r'] & -> & Hr).
  apply elem_of_map_to_list in Hr. split; [now exists k|exact Hf].
Qed.

Lemma review_query_takes d clock user_id limit k r :
  0 <= limit ->
  user_words d !! k = Some r ->
  review_filter clock user_id r = true ->
  exists listed,
    review_query d clock user_id limit = inr listed
    /\ (r ∈ listed
        \/ (Z.of_nat (length listed) = limit
            /\ Forall (fun w => review_leb w r = true) listed)).
Proof.
  intros Hlimit Hk Hf. unfold review_query.
  destruct (Z.ltb_spec limit 0) as [Hneg|_]; [lia|].
  set (found := filter _ _).
  assert (Hr : r ∈ order_by found).
  { apply order_by_elem, list_elem_of_filter. split; [exact Hf|].
    apply list_elem_of_fmap. exists (k, r). split; [reflexivity|].
    now apply elem_of_map_to_list. }
  eexists. split; [reflexivity|].
  rewrite <- (take_drop (Z.to_nat limit) (order_by found)) in Hr.
  apply elem_of_app in Hr as [Hin|Hout]; [now left|right].
  split.
  - rewrite length_take.
    destruct (Nat.lt_ge_cases (Z.to_nat limit) (length (order_by found)))
      as [Hlt|Hge]; [lia|].
    rewrite drop_ge in Hout by exact Hge. now apply elem_of_nil in Hout.
  - apply Forall_forall. intros w Hw.
    apply (StronglySorted_app_1_elem_of (fun a b => review_leb a b = true)
             (take (Z.to_nat limit) (order_by found))
             (drop (Z.to_nat limit) (order_by found)) w r); [|assumption..].
    rewrite take_drop. apply order_by_sorted.
Qed.

(** X16.  From the merge to the review list.  With plain identifiers, after
    a merge of distinct words has committed, the record of an entry that was
    not passed over is due for review exactly when the client's mastery is
    below 3.95 (the column keeps one decimal, and 3.95 is kept as 4.0) and
    the client's next review is unset or not after the day of the query.  If
    it is due, the review selector returns it, unless the limit is reached
    by records that come before it or level with it; if not, the selector
    does not return it. *)
Theorem merge_then_review d clock clock' user_id sync_data res d' w limit :
  plain_merge d user_id sync_data ->
  keyed (user_words d) ->
  NoDup (WordProgressBase.word_id <$> ProgressSyncData.words sync_data) ->
  sync_user_progress d clock user_id sync_data = inr (res, d') ->
  w ∈ ProgressSyncData.words sync_data ->
  passed_over (user_words d) user_id w = false ->
  0 <= limit ->
  exists r listed,
    user_words d' !! (user_id, WordProgressBase.word_id w) = Some r
    /\ review_query d' clock' user_id limit = inr listed
    /\ (due_for_review clock' user_id r
        <-> (Decimal_of_float (WordProgressBase.mastery_level w) < 395 # 100)%Q
            /\ (WordProgressBase.next_review w = None
                \/ exists n, WordProgressBase.next_review w = Some n
                             /\ date_key n <= date_key (today clock')))
    /\ (due_for_review clock' user_id r ->
        r ∈ listed
        \/ (Z.of_nat (length listed) = limit
            /\ Forall (fun x => review_leb x r = true) listed))
    /\ (~ due_for_review clock' user_id r -> r ∉ listed).
Proof.
  intros _ Hkeyed Hnd Hrun Hw Hpass Hlimit.
  assert (Hrow : exists u i,
             user_words d' !! (user_id, WordProgressBase.word_id w)
             = Some (stored (client_values u i w (Some (utcnow clock))))
             /\ u = user_id).
  { destruct (sync_result _ _ _ _ _ _ Hrun) as (st & us & Hst & _ & Hc & _ & _).
    unfold commit in Hc.
    destruct (insert_all _ _ _ _) as [e|tbl] eqn:Hins; simpl in Hc; [discriminate|].
    injection Hc as <-. simpl.
    pose proof (sync_words_outcome clock user_id _
                  {| rows := user_words d; added := []; l_conflicts := [];
                     l_updated_words := 0 |} w Hnd Hw) as Hout.
    rewrite <- Hst in Hout. simpl in Hout. unfold passed_over in Hpass.
    destruct (user_words d !! (user_id, WordProgressBase.word_id w)) as [r0|] eqn:Hr0.
    - destruct (UserWord.mastery_level r0) as [m|]; [|discriminate].
      exists (UserWord.user_id r0), (UserWord.word_id r0).
      rewrite lookup_fmap, (insert_all_keeps _ _ _ _ _ _ _ Hins Hout).
      split; [reflexivity|]. now injection (Hkeyed _ _ Hr0).
    - destruct Hout as [_ Hnew]. exists user_id, (WordProgressBase.word_id w).
      rewrite lookup_fmap, (insert_all_new _ _ _ _ _ _ _ Hins Hnew).
      split; reflexivity. }
  destruct Hrow as (u & i & Hrow & ->).
  set (r := stored (client_values user_id i w (Some (utcnow clock)))) in *.
  assert (Hdue : due_for_review clock' user_id r
                 <-> (Decimal_of_float (WordProgressBase.mastery_level w) < 395 # 100)%Q
                     /\ (WordProgressBase.next_review w = None
                         \/ exists n, WordProgressBase.next_review w = Some n
                                      /\ date_key n <= date_key (today clock'))).
  { unfold due_for_review. subst r. simpl. rewrite <- DECIMAL_3_1_below_4. split.
    - intros (_ & (m & [= <-] & Hm) & Hn). split; assumption.
    - intros [Hm Hn]. split; [reflexivity|]. split; [eauto|exact Hn]. }
  destruct (review_query d' clock' user_id limit) as [e|listed] eqn:Hq.
  { unfold review_query in Hq. destruct (Z.ltb_spec limit 0); [lia|discriminate]. }
  exists r, listed. split; [exact Hrow|]. split; [reflexivity|].
  split; [exact Hdue|]. split.
  - intros Hr. apply due_review_filter in Hr.
    destruct (review_query_takes d' clock' user_id limit _ r Hlimit Hrow Hr)
      as (listed' & Hq' & Hcase).
    rewrite Hq in Hq'. injection Hq' as <-. exact Hcase.
  - intros Hnot Hin. apply Hnot.
    destruct (review_query_elem _ _ _ _ _ _ Hq Hin) as [_ Hf].
    now apply review_filter_due.
Qed.

Lemma merge_then_review_witness :
  exists res d' r listed,
    sync_user_progress
      (sample.database (sample.user 0 0) [sample.row "v" (Some 1%Q) 1 None None])
      sample.clock "u1"
      (sample.batch [sample.entry "v" (396 # 100) 2; sample.entry "n" (394 # 100) 3] ∅)
    = inr (res, d')
    /\ user_words d' !! ("u1", "v") = Some r
    /\ review_query d' sample.later "u1" 20 = inr listed
    /\ r ∉ listed.
Proof.
  destruct (sync_user_progress
              (sample.database (sample.user 0 0) [sample.row "v" (Some 1%Q) 1 None None])
              sample.clock "u1"
              (sample.batch [sample.entry "v" (396 # 100) 2;
                             sample.entry "n" (394 # 100) 3] ∅))
    as [e|[res d']] eqn:Hrun.
  { vm_compute in Hrun. discriminate. }
  assert (Hnd : NoDup (WordProgressBase.word_id
                         <$> [sample.entry "v" (396 # 100) 2;
                              sample.entry "n" (394 # 100) 3])).
  { apply (bool_decide_unpack _). vm_compute. exact I. }
  assert (Hplain : plain_merge
                     (sample.database (sample.user 0 0)
                        [sample.row "v" (Some 1%Q) 1 None None]) "u1"
                     (sample.batch [sample.entry "v" (396 # 100) 2;
                                    sample.entry "n" (394 # 100) 3] ∅)).
  { split; [apply database_plain; [reflexivity|repeat constructor]|].
    split; [reflexivity|repeat constructor]. }
  destruct (merge_then_review
              (sample.database (sample.user 0 0) [sample.row "v" (Some 1%Q) 1 None None])
              sample.clock sample.later "u1"
              (sample.batch [sample.entry "v" (396 # 100) 2;
                             sample.entry "n" (394 # 100) 3] ∅)
              res d' (sample.entry "v" (396 # 100) 2) 20 Hplain
              (table_keyed [sample.row "v" (Some 1%Q) 1 None None]) Hnd Hrun
              ltac:(apply list_elem_of_here) eq_refl ltac:(lia))
    as (r & listed & Hr & Hq & Hdue & _ & Hnot).
  exists res, d', r, listed. split; [reflexivity|]. split; [exact Hr|].
  split; [exact Hq|]. apply Hnot. rewrite Hdue. intros [Hlt _].
  vm_compute in Hlt. discriminate.
Defined.

(** ** Floats, columns and the range invariant *)

Lemma pow2_pos e : (0 < 2 ^ e)%Q.
Proof. apply Qpower_0_lt. reflexivity. Qed.

Lemma pow2_add a b : (2 ^ (a + b) == 2 ^ a * 2 ^ b)%Q.
Proof. apply Qpower_plus. discriminate. Qed.

Lemma pow2_opp e : (2 ^ e * 2 ^ (- e) == 1)%Q.
Proof. rewrite <- pow2_add, Z.add_opp_diag_r. reflexivity. Qed.

Lemma pow2_Z e : 0 <= e -> (inject_Z (2 ^ e) == 2 ^ e)%Q.
Proof. intros He. now rewrite Zpower_Qpower. Qed.

Lemma inject_Z_pos z : 0 < z -> (0 < inject_Z z)%Q.
Proof. intros Hz. unfold Qlt. simpl. lia. Qed.

(** [scaled n d e] is [n / d] scaled by [2 ^ (- e)]. *)
Lemma scaled_spec n d e :
  0 < d ->
  0 < snd (scaled n d e)
  /\ (inject_Z (fst (scaled n d e)) == inject_Z n / inject_Z d * 2 ^ (- e) * inject_Z (snd (scaled n d e)))%Q.
Proof.
  intros Hd. unfold scaled. pose proof (inject_Z_pos d Hd) as HdQ.
  destruct (Z.leb_spec 0 e) as [He|He]; simpl.
  - assert (Hp : 0 < 2 ^ e) by (apply Z.pow_pos_nonneg; lia).
    split; [lia|]. rewrite inject_Z_mult, (pow2_Z e He).
    pose proof (pow2_opp e) as Ho. pose proof (pow2_pos e). pose proof (pow2_pos (- e)).
    field_simplify_eq; [|lra].
    rewrite <- (Qmult_1_r (inject_Z n)) at 1. rewrite <- Ho. ring.
  - split; [exact Hd|]. rewrite inject_Z_mult, (pow2_Z (- e)) by lia.
    field. lra.
Qed.

Lemma round_half_even_spec n d :
  0 < d ->
  2 * round_half_even n d * d - d <= 2 * n <= 2 * round_half_even n d * d + d.
Proof.
  intros Hd. unfold round_half_even.
  pose proof (Z_div_mod_eq_full n d) as Hdiv.
  pose proof (Z.mod_pos_bound n d Hd) as Hmod.
  destruct (Z.compare_spec (2 * (n mod d)) d) as [Heq|Hlt|Hgt].
  - destruct (Z.even (n / d)); nia.
  - nia.
  - nia.
Qed.

Lemma inject_Z_le a b : a <= b -> (inject_Z a <= inject_Z b)%Q.
Proof. intros H. now rewrite <- Zle_Qle. Qed.

Lemma Qdiv_mult_cancel x d : (0 < d)%Q -> (x / d * d == x)%Q.
Proof. intros Hd. field. lra. Qed.

(** The exponent [binary64_pos] works out is at most the binary logarithm
    of the fraction. *)
Lemma exponent_spec n d :
  0 < n -> 0 < d ->
  let k := Z.log2 n - Z.log2 d in
  let l := if snd (scaled n d k) <=? fst (scaled n d k) then k else k - 1 in
  (2 ^ l <= inject_Z n / inject_Z d)%Q.
Proof.
  intros Hn Hd k l. subst l.
  pose proof (inject_Z_pos n Hn) as HnQ. pose proof (inject_Z_pos d Hd) as HdQ.
  set (x := (inject_Z n / inject_Z d)%Q).
  assert (Hx : (x * inject_Z d == inject_Z n)%Q) by (apply Qdiv_mult_cancel; exact HdQ).
  destruct (Z.leb_spec (snd (scaled n d k)) (fst (scaled n d k))) as [Hle|Hgt].
  - destruct (scaled_spec n d k Hd) as [Hd0 Hs]. fold x in Hs.
    apply inject_Z_le in Hle. apply inject_Z_pos in Hd0.
    pose proof (pow2_opp k) as Ho. pose proof (pow2_pos k). pose proof (pow2_pos (- k)).
    set (a := (2 ^ k)%Q) in *. set (b := (2 ^ (- k))%Q) in *.
    set (D := inject_Z (snd (scaled n d k))) in *.
    set (N := inject_Z (fst (scaled n d k))) in *.
    assert (Hxb : (1 <= x * b)%Q).
    { apply (Qmult_le_r _ _ D Hd0). rewrite Hs in Hle. lra. }
    assert (Hab : (a <= (x * b) * a)%Q).
    { rewrite <- (Qmult_1_l a) at 1. apply Qmult_le_compat_r; lra. }
    assert (Heq : (x * b * a == x)%Q).
    { rewrite <- Qmult_assoc, (Qmult_comm b a), Ho. ring. }
    lra.
  - clear Hgt.
    destruct (Z.log2_spec n Hn) as [Hlo _]. destruct (Z.log2_spec d Hd) as [_ Hhi].
    pose proof (Z.log2_nonneg n) as Hn0. pose proof (Z.log2_nonneg d) as Hd0.
    apply inject_Z_le in Hlo. apply Z.lt_le_incl, inject_Z_le in Hhi.
    rewrite pow2_Z in Hlo by lia. rewrite pow2_Z in Hhi by lia.
    replace (k - 1) with (Z.log2 n + - Z.succ (Z.log2 d)) by (subst k; lia).
    rewrite pow2_add.
    pose proof (pow2_opp (Z.succ (Z.log2 d))) as Ho.
    pose proof (pow2_pos (Z.log2 n)). pose proof (pow2_pos (Z.succ (Z.log2 d))).
    pose proof (pow2_pos (- Z.succ (Z.log2 d))).
    set (A := (2 ^ Z.log2 n)%Q) in *. set (B := (2 ^ Z.succ (Z.log2 d))%Q) in *.
    set (Bi := (2 ^ (- Z.succ (Z.log2 d)))%Q) in *.
    (* A * Bi <= x : multiply by d > 0 and B > 0 *)
    apply (Qmult_le_r _ _ (inject_Z d) HdQ). rewrite Hx.
    assert (Hstep1 : (A * Bi * inject_Z d <= A * Bi * B)%Q).
    { apply Qmult_le_l; [|exact Hhi].
      apply Qmult_lt_0_compat; assumption. }
    assert (Hstep2 : (A * Bi * B == A)%Q).
    { rewrite <- Qmult_assoc, (Qmult_comm Bi B), Ho. ring. }
    lra.
Qed.

(** [binary64_pos] is within half a unit of the last place of the fraction
    it rounds, and that unit is at most [2 ^ (-52)] of the fraction, or the
    least subnormal step. *)
Lemma binary64_pos_error n d :
  0 < n -> 0 < d ->
  exists E : Q,
    (0 < E)%Q
    /\ (E <= inject_Z n / inject_Z d * 2 ^ (-52) + 2 ^ (-1074))%Q
    /\ (inject_Z n / inject_Z d - E * (1 # 2) <= binary64_pos n d)%Q
    /\ (binary64_pos n d <= inject_Z n / inject_Z d + E * (1 # 2))%Q.
Proof.
  intros Hn Hd. pose proof (exponent_spec n d Hn Hd) as Hl. simpl in Hl.
  unfold binary64_pos.
  destruct (scaled n d (Z.log2 n - Z.log2 d)) as [n0 d0] eqn:Hs0. simpl in Hl.
  set (l := if d0 <=? n0 then Z.log2 n - Z.log2 d else Z.log2 n - Z.log2 d - 1) in *.
  set (e := Z.max (l - 52) (-1074)).
  pose proof (scaled_spec n d e Hd) as [Hd1 Hs1].
  destruct (scaled n d e) as [n1 d1] eqn:Hs. simpl in Hd1, Hs1.
  pose proof (round_half_even_spec n1 d1 Hd1) as Hm.
  set (m := round_half_even n1 d1) in *.
  set (x := (inject_Z n / inject_Z d)%Q) in *.
  assert (Hx : (0 < x)%Q).
  { subst x. apply Qlt_shift_div_l; [now apply inject_Z_pos|].
    rewrite Qmult_0_l. now apply inject_Z_pos. }
  pose proof (pow2_pos e) as Ha. pose proof (pow2_pos (- e)) as Hb.
  pose proof (pow2_opp e) as Hab.
  exists (2 ^ e)%Q. split; [exact Ha|]. split.
  - pose proof (pow2_pos (-52)) as H52. pose proof (pow2_pos (-1074)) as H1074.
    assert (Hx52 : (0 <= x * 2 ^ (-52))%Q) by (apply Qmult_le_0_compat; lra).
    subst e. destruct (Z.max_spec (l - 52) (-1074)) as [[_ ->]|[_ ->]]; [lra|].
    replace (l - 52) with (l + -52) by lia. rewrite pow2_add.
    assert (Hstep : (2 ^ l * 2 ^ (-52) <= x * 2 ^ (-52))%Q)
      by (apply Qmult_le_compat_r; lra).
    lra.
  - assert (HP : ((if 0 <=? e then (m * 2 ^ e) # 1 else m # Z.to_pos (2 ^ (- e)))
                  == inject_Z m * 2 ^ e)%Q).
    { destruct (Z.leb_spec 0 e) as [He|He].
      - change ((m * 2 ^ e) # 1) with (inject_Z (m * 2 ^ e)).
        now rewrite inject_Z_mult, pow2_Z.
      - rewrite Qmake_Qdiv, Z2Pos.id by (apply Z.pow_pos_nonneg; lia).
        rewrite pow2_Z by lia. unfold Qdiv.
        now rewrite <- Qpower_opp, Z.opp_involutive. }
    rewrite HP. clear HP.
    pose proof (inject_Z_pos d1 Hd1) as HD.
    assert (Hlo : 2 * m * d1 <= 2 * n1 + d1) by lia.
    assert (Hhi : 2 * n1 <= 2 * m * d1 + d1) by lia.
    apply inject_Z_le in Hlo, Hhi.
    rewrite inject_Z_plus, !inject_Z_mult in Hlo, Hhi.
    rewrite Hs1 in Hlo, Hhi.
    set (a := (2 ^ e)%Q) in *. set (b := (2 ^ (- e))%Q) in *.
    set (D := inject_Z d1) in *. set (M := inject_Z m) in *.
    change (inject_Z 2) with 2%Q in *.
    assert (H1 : (2 * M - 1 <= 2 * (x * b))%Q).
    { apply (Qmult_le_r _ _ D HD). lra. }
    assert (H2 : (2 * (x * b) <= 2 * M + 1)%Q).
    { apply (Qmult_le_r _ _ D HD). lra. }
    assert (H3 : ((2 * M - 1) * a <= 2 * (x * b) * a)%Q)
      by (apply Qmult_le_compat_r; lra).
    assert (H4 : (2 * (x * b) * a <= (2 * M + 1) * a)%Q)
      by (apply Qmult_le_compat_r; lra).
    assert (Heq : (2 * (x * b) * a == 2 * x)%Q).
    { rewrite <- !Qmult_assoc, (Qmult_comm b a), Hab. ring. }
    split; lra.
Qed.

Lemma round_half_even_nonneg n d : 0 <= n -> 0 < d -> 0 <= round_half_even n d.
Proof.
  intros Hn Hd. unfold round_half_even.
  assert (Hq : 0 <= n / d) by (apply Z.div_pos; lia).
  destruct (2 * (n mod d) ?= d); [destruct (Z.even (n / d))|..]; lia.
Qed.

Lemma binary64_pos_nonneg n d : 0 < n -> 0 < d -> (0 <= binary64_pos n d)%Q.
Proof.
  intros Hn Hd. unfold binary64_pos.
  destruct (scaled n d (Z.log2 n - Z.log2 d)) as [n0 d0].
  set (e := Z.max _ _).
  pose proof (scaled_spec n d e Hd) as [Hd1 _].
  assert (Hn1 : 0 <= fst (scaled n d e)).
  { unfold scaled. destruct (0 <=? e); simpl; [lia|].
    apply Z.mul_nonneg_nonneg; [lia|]. apply Z.pow_nonneg. lia. }
  destruct (scaled n d e) as [n1 d1]. simpl in *.
  pose proof (round_half_even_nonneg n1 d1 Hn1 Hd1) as Hm.
  destruct (0 <=? e); unfold Qle; simpl; [|lia].
  assert (0 <= 2 ^ e) by (apply Z.pow_nonneg; lia). nia.
Qed.

Lemma small_52 : (2 ^ (-52) <= 1 # 1000)%Q.
Proof. apply Qle_bool_imp_le. vm_compute. reflexivity. Qed.

Lemma small_1074 : (2 ^ (-1074) <= 1 # 1000)%Q.
Proof. apply Qle_bool_imp_le. vm_compute. reflexivity. Qed.

(** A positive fraction and its binary64 number differ by less than a
    thousandth of the fraction and a thousandth. *)
Lemma binary64_pos_near n d :
  0 < n -> 0 < d ->
  (inject_Z n / inject_Z d * (999 # 1000) - (1 # 1000) <= binary64_pos n d)%Q
  /\ (binary64_pos n d <= inject_Z n / inject_Z d * (1001 # 1000) + (1 # 1000))%Q.
Proof.
  intros Hn Hd. destruct (binary64_pos_error n d Hn Hd) as (E & HE & Hbound & Hlo & Hhi).
  set (x := (inject_Z n / inject_Z d)%Q) in *.
  assert (Hx : (0 < x)%Q).
  { subst x. apply Qlt_shift_div_l; [now apply inject_Z_pos|].
    rewrite Qmult_0_l. now apply inject_Z_pos. }
  pose proof small_52 as H52. pose proof small_1074 as H1074.
  assert (Hstep : (x * 2 ^ (-52) <= x * (1 # 1000))%Q)
    by (apply Qmult_le_l; assumption).
  split; lra.
Qed.

Lemma Q_as_fraction x : (x == inject_Z (Qnum x) / inject_Z (Zpos (Qden x)))%Q.
Proof. destruct x as [n d]. simpl. apply Qmake_Qdiv. Qed.

Lemma Qle_bool_false a b : Qle_bool a b = false -> (b < a)%Q.
Proof.
  intros Hf. apply Qnot_le_lt. intros Hle. apply Qle_bool_iff in Hle. congruence.
Qed.

(** What the three bounds of the request schema say of the decimal that
    denotes the float. *)
Lemma float_value_ge_0 x :
  Qle_bool (float_value 0%Q) (float_value x) = true -> (- (5 # 100) < x)%Q.
Proof.
  intros Hle. apply Qle_bool_iff in Hle. unfold float_value, binary64 in Hle.
  pose proof (Q_as_fraction x) as Hx.
  destruct (Qnum x) as [|n|n] eqn:Hn; simpl in Hle.
  - rewrite Hx. unfold Qdiv. rewrite Qmult_0_l. reflexivity.
  - assert (0 < x)%Q; [|lra]. rewrite Hx.
    apply Qlt_shift_div_l; [reflexivity|]. rewrite Qmult_0_l. reflexivity.
  - destruct (binary64_pos_near (Zpos n) (Zpos (Qden x))) as [Hlo _]; [lia..|].
    assert (Hneg : (x == - (inject_Z (Zpos n) / inject_Z (Zpos (Qden x))))%Q).
    { eapply Qeq_trans; [exact Hx|].
      change (Zneg n) with (- Zpos n). rewrite inject_Z_opp. field.
      intros H0. discriminate. }
    set (y := (inject_Z (Zpos n) / inject_Z (Zpos (Qden x)))%Q) in *.
    set (P := binary64_pos (Zpos n) (Zpos (Qden x))) in *. lra.
Qed.

Lemma float_value_le_5 x :
  Qle_bool (float_value x) (float_value 5%Q) = true -> (x < 505 # 100)%Q.
Proof.
  intros Hle. apply Qle_bool_iff in Hle.
  assert (H5 : (float_value 5 == 5)%Q) by (vm_compute; reflexivity).
  rewrite H5 in Hle. unfold float_value, binary64 in Hle.
  pose proof (Q_as_fraction x) as Hx.
  destruct (Qnum x) as [|n|n] eqn:Hn.
  - rewrite Hx. unfold Qdiv. rewrite Qmult_0_l. reflexivity.
  - destruct (binary64_pos_near (Zpos n) (Zpos (Qden x))) as [Hlo _]; [lia..|].
    rewrite <- Hx in Hlo. lra.
  - assert (x < 0)%Q; [|lra]. rewrite Hx.
    apply Qlt_shift_div_r; [reflexivity|]. rewrite Qmult_0_l. reflexivity.
Qed.

Lemma float_value_ge_13 x :
  Qle_bool (float_value (13 # 10)) (float_value x) = true -> (125 # 100 <= x)%Q.
Proof.
  intros Hle. apply Qle_bool_iff in Hle.
  assert (H13 : (129 # 100 <= float_value (13 # 10))%Q).
  { apply Qle_bool_imp_le. vm_compute. reflexivity. }
  unfold float_value at 2 in Hle. unfold binary64 in Hle.
  pose proof (Q_as_fraction x) as Hx.
  destruct (Qnum x) as [|n|n] eqn:Hn.
  - lra.
  - destruct (binary64_pos_near (Zpos n) (Zpos (Qden x))) as [_ Hhi]; [lia..|].
    rewrite <- Hx in Hhi. lra.
  - pose proof (binary64_pos_nonneg (Zpos n) (Zpos (Qden x))) as Hpos.
    assert (0 <= binary64_pos (Zpos n) (Zpos (Qden x)))%Q by (apply Hpos; lia).
    lra.
Qed.

(** What the column keeps of a decimal stays within one-decimal bounds. *)
Lemma DECIMAL_3_1_ge_0 x : (- (5 # 100) < x)%Q -> (0 <= DECIMAL_3_1 x)%Q.
Proof.
  destruct x as [n m]. unfold DECIMAL_3_1, Qlt, Qle. simpl.
  pose proof (Pos2Z.is_pos m) as Hm.
  pose proof (Z_div_mod_eq_full (2 * (10 * Z.abs n) + Zpos m) (2 * Zpos m)) as Hdiv.
  pose proof (Z.mod_pos_bound (2 * (10 * Z.abs n) + Zpos m) (2 * Zpos m) ltac:(lia))
    as Hmod.
  set (q := (2 * (10 * Z.abs n) + Zpos m) / (2 * Zpos m)) in *.
  assert (Hq : 0 <= q) by (apply Z.div_pos; lia).
  destruct n as [|n|n]; simpl in *; nia.
Qed.

Lemma DECIMAL_3_1_le_5 x : (x < 505 # 100)%Q -> (DECIMAL_3_1 x <= 5)%Q.
Proof.
  destruct x as [n m]. unfold DECIMAL_3_1, Qlt, Qle. simpl.
  pose proof (Pos2Z.is_pos m) as Hm.
  pose proof (Z_div_mod_eq_full (2 * (10 * Z.abs n) + Zpos m) (2 * Zpos m)) as Hdiv.
  pose proof (Z.mod_pos_bound (2 * (10 * Z.abs n) + Zpos m) (2 * Zpos m) ltac:(lia))
    as Hmod.
  set (q := (2 * (10 * Z.abs n) + Zpos m) / (2 * Zpos m)) in *.
  assert (Hq : 0 <= q) by (apply Z.div_pos; lia).
  destruct n as [|n|n]; simpl in *; nia.
Qed.

Lemma DECIMAL_3_1_ge_13 x : (125 # 100 <= x)%Q -> (13 # 10 <= DECIMAL_3_1 x)%Q.
Proof.
  destruct x as [n m]. unfold DECIMAL_3_1, Qlt, Qle. simpl.
  pose proof (Pos2Z.is_pos m) as Hm.
  pose proof (Z_div_mod_eq_full (2 * (10 * Z.abs n) + Zpos m) (2 * Zpos m)) as Hdiv.
  pose proof (Z.mod_pos_bound (2 * (10 * Z.abs n) + Zpos m) (2 * Zpos m) ltac:(lia))
    as Hmod.
  set (q := (2 * (10 * Z.abs n) + Zpos m) / (2 * Zpos m)) in *.
  assert (Hq : 0 <= q) by (apply Z.div_pos; lia).
  destruct n as [|n|n]; simpl in *; nia.
Qed.

Lemma stored_in_range r : in_range r -> in_range (stored r).
Proof.
  intros (Hm & He & Hrest). split; [|split; [|exact Hrest]]; simpl.
  - intros m' Hm'. destruct (UserWord.mastery_level r) as [m|]; [|discriminate].
    injection Hm' as <-. destruct (Hm m eq_refl) as [H0 H5].
    split; [apply DECIMAL_3_1_ge_0|apply DECIMAL_3_1_le_5]; lra.
  - intros e' He'. destruct (UserWord.ease_factor r) as [e|]; [|discriminate].
    injection He' as <-. destruct (He e eq_refl) as [H13 H5].
    split; [apply DECIMAL_3_1_ge_13|apply DECIMAL_3_1_le_5]; lra.
Qed.

Lemma validated_in_range user_id word_id w t :
  WordProgressBase.validate w = true ->
  in_range (stored (client_values user_id word_id w t)).
Proof.
  unfold WordProgressBase.validate. rewrite !andb_true_iff.
  intros [[[[[[Hm0 Hm5] Hr] He13] He5] Hs] Hc].
  apply Z.leb_le in Hr, Hs, Hc.
  unfold in_range, stored, client_values. simpl.
  split; [|split; [|split; [|split]]]; intros ? [= <-]; try assumption.
  - split; [now apply DECIMAL_3_1_ge_0, float_value_ge_0
           |now apply DECIMAL_3_1_le_5, float_value_le_5].
  - split; [now apply DECIMAL_3_1_ge_13, float_value_ge_13
           |now apply DECIMAL_3_1_le_5, float_value_le_5].
Qed.

Lemma sync_words_in_range clock user_id ws st :
  Forall (fun w => WordProgressBase.validate w = true) ws ->
  (forall k r, rows st !! k = Some r -> in_range (stored r)) ->
  Forall (fun r => in_range (stored r)) (added st) ->
  (forall k r, rows (sync_words clock user_id ws st) !! k = Some r -> in_range (stored r))
  /\ Forall (fun r => in_range (stored r)) (added (sync_words clock user_id ws st)).
Proof.
  revert st. induction ws as [|w ws IH]; intros st Hvalid Hrows Hadded; [now split|].
  apply Forall_cons in Hvalid as [Hw Hvalid]. rewrite sync_words_cons.
  apply IH; [exact Hvalid|..];
    destruct (sync_step_cases clock user_id st w)
      as [(r & _ & _ & Hs)|[(r & m & _ & _ & _ & Hr & Ha & _)|(_ & _ & Hr & Ha & _)]];
    rewrite ?Hs, ?Hr, ?Ha; try assumption.
  - intros k r' Hk. destruct (decide (k = (user_id, WordProgressBase.word_id w))) as [->|Hne].
    + rewrite lookup_insert_eq in Hk. injection Hk as <-.
      now apply validated_in_range.
    + rewrite lookup_insert_ne in Hk by congruence. now apply (Hrows k).
  - apply Forall_app. split; [exact Hadded|]. constructor; [|constructor].
    now apply validated_in_range.
Qed.

Lemma insert_all_in_range now us tbl new tbl' :
  insert_all now us tbl new = inr tbl' ->
  (forall k r, tbl !! k = Some r -> in_range (stored r)) ->
  Forall (fun r => in_range (stored r)) new ->
  forall k r, tbl' !! k = Some r -> in_range (stored r).
Proof.
  revert tbl. induction new as [|x new IH]; intros tbl; simpl.
  - now intros [= <-].
  - unfold insert.
    destruct (us !! UserWord.user_id x); simpl; [|discriminate].
    destruct (tbl !! UserWord.key x) eqn:Hx; simpl; [discriminate|].
    intros Hrest Htbl Hnew. apply Forall_cons in Hnew as [Hx' Hnew].
    apply (IH _ Hrest); [|exact Hnew].
    intros k r Hk. destruct (decide (k = UserWord.key x)) as [->|Hne].
    + rewrite lookup_insert_eq in Hk. injection Hk as <-. exact Hx'.
    + rewrite lookup_insert_ne in Hk by congruence. now apply (Htbl k).
Qed.

(** X17.  The merge keeps the range invariant.  If every stored record is in
    range and every entry of the batch passes the bounds of the request
    schema, every record the merge commits is in range: the mastery within
    [0.0, 5.0], the ease factor within [1.3, 5.0], the counters not
    negative. *)
Theorem merge_keeps_range d clock user_id sync_data res d' :
  (forall k r, user_words d !! k = Some r -> in_range r) ->
  Forall (fun w => WordProgressBase.validate w = true) (ProgressSyncData.words sync_data) ->
  sync_user_progress d clock user_id sync_data = inr (res, d') ->
  forall k r, user_words d' !! k = Some r -> in_range r.
Proof.
  intros Hd Hvalid Hrun k r Hk.
  destruct (sync_result _ _ _ _ _ _ Hrun) as (st & us & Hst & _ & Hc & _ & _).
  unfold commit in Hc.
  destruct (insert_all _ _ _ _) as [e|tbl] eqn:Hins; simpl in Hc; [discriminate|].
  injection Hc as <-. simpl in Hk. rewrite lookup_fmap in Hk.
  destruct (tbl !! k) as [r0|] eqn:Hr0; [|discriminate]. injection Hk as <-.
  destruct (sync_words_in_range clock user_id (ProgressSyncData.words sync_data)
              {| rows := user_words d; added := []; l_conflicts := [];
                 l_updated_words := 0 |} Hvalid) as [Hrows Hadded].
  - intros k' r' Hk'. apply stored_in_range, (Hd k' r' Hk').
  - constructor.
  - rewrite <- Hst in Hrows, Hadded.
    exact (insert_all_in_range _ _ _ _ _ Hins Hrows Hadded k r0 Hr0).
Qed.

Lemma merge_keeps_range_witness :
  exists res d',
    sync_user_progress
      (sample.database (sample.user 0 0) [sample.row "v" (Some 1%Q) 1 None None])
      sample.clock "u1"
      (sample.batch [sample.entry "v" (496 # 100) 2; sample.entry "n" 0 3] ∅)
    = inr (res, d')
    /\ forall k r, user_words d' !! k = Some r -> in_range r.
Proof.
  destruct (sync_user_progress
              (sample.database (sample.user 0 0) [sample.row "v" (Some 1%Q) 1 None None])
              sample.clock "u1"
              (sample.batch [sample.entry "v" (496 # 100) 2; sample.entry "n" 0 3] ∅))
    as [e|[res d']] eqn:Hrun.
  { vm_compute in Hrun. discriminate. }
  exists res, d'. split; [reflexivity|].
  apply (merge_keeps_range
           (sample.database (sample.user 0 0) [sample.row "v" (Some 1%Q) 1 None None])
           sample.clock "u1"
           (sample.batch [sample.entry "v" (496 # 100) 2; sample.entry "n" 0 3] ∅)
           res d').
  - intros k r Hk. apply elem_of_list_to_map_2 in Hk. simpl in Hk.
    apply elem_of_cons in Hk as [[= _ ->]|Hk]; [|now apply elem_of_nil in Hk].
    unfold in_range, sample.row. simpl.
    split; [|split; [|split; [|split]]]; intros ? [= <-]; try lia;
      split; apply Qle_bool_imp_le; reflexivity.
  - repeat constructor.
  - exact Hrun.
Defined.
